(** * beetFs: a shallow embedding of [beetsplug/beetFs.py]

    The development follows the source file top to bottom:

    - the Python values and exceptions the code manipulates ([Py]);
    - [template_mapping] and the substitution of [PATH_FORMAT];
    - the directory tree [FSNode] with its destructive [getnode], and the
      loop of [mount] that fills it;
    - [InterpolatedFLAC]: [load], [get_header] and their helpers;
    - [FileHandler]: [__init__], [open], [release], [read] and [write];
    - [Stat] and the methods [getattr] and [access] of [beetFileSystem].

    Conventions.  The source is Python 3.  Python [int] is [Z].  A
    [bytes] object is a list of bytes.  A [str] (paths, tag values,
    template keys) is a [string]: a character of ASCII is one [ascii],
    and a character beyond ASCII is written by the bytes of its UTF-8
    encoding, as in a string literal of Rocq (the code cuts text at
    ["/"], ["."] and after the ["/"] that starts a path, and replaces
    characters of ASCII, so this changes nothing to what it finds).  A
    [bytes] object and a [str] are different values: they never compare
    equal, and the functions that want the one refuse the other with
    [TypeError].  The path of a file on disk ([item.path]) is a [bytes]
    object in beets and is written as a [string], one character for each
    byte.
    A [dict] is a [gmap].  A function that may raise returns a [result];
    a method that mutates its object threads the object through the monad
    [M].  An attribute that [__init__] assigns only on some branches is an
    [option]: reading it while it is unset raises [AttributeError]. *)

From Stdlib Require Import ZArith Lia.
From Stdlib Require Import Strings.Ascii Strings.String Strings.Byte.
From stdpp Require Import gmap strings list fin_maps.

#[local] Set Warnings "-register-all".
#[local] Open Scope Z_scope.

(** ** Python values *)

Module Py.

(** The exception classes that occur in the embedded code.  [Exception_]
    is a plain [Exception(...)]; [FLACError] is [mutagen.flac.error].
    [OutOfFuel] is not a Python exception: it is what a fuel-bounded loop
    of the model answers when its fuel is spent, which the fuel handed out
    by the definitions below never lets happen. *)
Inductive exn : Set :=
| AttributeError
| TypeError
| KeyError
| IndexError
| ValueError
| UnboundLocalError
| AssertionError
| IOError
| Exception_
| FLACError
| FLACNoHeaderError
| FLACVorbisError
| UnicodeDecodeError
| OverflowError
| OutOfFuel.

#[global] Instance exn_eq_dec : EqDecision exn.
Proof. solve_decision. Defined.

(** [except IOError] also catches mutagen's FLAC errors, which derive from
    [IOError] ([class error(IOError)], [FLACNoHeaderError(error)],
    [FLACVorbisError(ValueError, error)]). *)
Definition isinstance_IOError (e : exn) : bool :=
  match e with
  | IOError | FLACError | FLACNoHeaderError | FLACVorbisError => true
  | _ => false
  end.

Inductive result (A : Type) : Type :=
| Ok (a : A)
| Raise (e : exn).
#[global] Arguments Ok {A} a.
#[global] Arguments Raise {A} e.

#[global] Instance result_ret : MRet result := fun _ a => Ok a.
#[global] Instance result_bind : MBind result := fun _ _ f r =>
  match r with
  | Ok a => f a
  | Raise e => Raise e
  end.
#[global] Instance result_fmap : FMap result := fun _ _ f r =>
  match r with
  | Ok a => Ok (f a)
  | Raise e => Raise e
  end.

(** Code that mutates an object of type [S] and may raise.  The state is
    kept when an exception leaves the code, as the object is in Python. *)
Definition M (S A : Type) : Type := S → result A * S.

#[global] Instance M_ret {S} : MRet (M S) := fun _ a s => (Ok a, s).
#[global] Instance M_bind {S} : MBind (M S) := fun _ _ f m s =>
  match m s with
  | (Ok a, s') => f a s'
  | (Raise e, s') => (Raise e, s')
  end.

Definition raise {S A} (e : exn) : M S A := fun s => (Raise e, s).
Definition lift {S A} (r : result A) : M S A := fun s => (r, s).
Definition get {S} : M S S := fun s => (Ok s, s).
Definition put {S} (s : S) : M S unit := fun _ => (Ok tt, s).
Definition modify {S} (f : S → S) : M S unit := fun s => (Ok tt, f s).

(** [try: body except Exception: handler].  Every exception the code
    can raise derives from [Exception]; [OutOfFuel] is not one of them
    and is let through. *)
Definition try_except_Exception {S A} (body handler : M S A) : M S A :=
  fun s =>
    match body s with
    | (Raise e, s') =>
        if decide (e = OutOfFuel) then (Raise e, s') else handler s'
    | r => r
    end.

(** [for x in xs: body x] *)
Fixpoint for_each {S A} (xs : list A) (body : A → M S unit) : M S unit :=
  match xs with
  | [] => mret tt
  | x :: xs' => body x ≫= λ _, for_each xs' body
  end.

(** [range(a, b)] *)
Definition range (a b : Z) : list Z :=
  (λ i : nat, a + Z.of_nat i) <$> seq 0 (Z.to_nat (b - a)).

(** Reading an attribute that may not have been assigned. *)
Definition attr {A} (o : option A) : result A :=
  match o with
  | Some a => Ok a
  | None => Raise AttributeError
  end.

(** [d[k]] on a [dict]. *)
Definition getitem `{Countable K} {A} (d : gmap K A) (k : K) : result A :=
  match d !! k with
  | Some a => Ok a
  | None => Raise KeyError
  end.

(** [list(d.keys())].  Python lists the keys in the order of the
    dictionary and the model in the order of the map; what is stated of
    such a list is which keys it has, and how often. *)
Definition keys `{Countable K} {A} (d : gmap K A) : list K :=
  (map_to_list d).*1.

(** *** Sequences *)

Definition len {A} (s : list A) : Z := Z.of_nat (length s).

(** How a slice bound is brought into [0 .. len]: a negative bound counts
    from the end, and bounds outside the sequence are clipped. *)
Definition slice_index (n i : Z) : Z :=
  if i <? 0 then Z.max 0 (i + n) else Z.min i n.

(** [s[a:b]] *)
Definition slice {A} (s : list A) (a b : Z) : list A :=
  let lo := slice_index (len s) a in
  let hi := slice_index (len s) b in
  take (Z.to_nat (hi - lo)) (drop (Z.to_nat lo) s).

(** [s[a:]] *)
Definition slice_from {A} (s : list A) (a : Z) : list A :=
  drop (Z.to_nat (slice_index (len s) a)) s.

(** [s[i]], for a list. *)
Definition index {A} (s : list A) (i : Z) : result A :=
  let j := if i <? 0 then i + len s else i in
  if j <? 0 then Raise IndexError
  else match s !! Z.to_nat j with
       | Some a => Ok a
       | None => Raise IndexError
       end.

(** *** Bytes *)

Definition bytes : Set := list byte.

#[global] Instance byte_eq_dec : EqDecision byte.
Proof.
  intros x y. destruct (Byte.eqb x y) eqn:E.
  - left. by apply Byte.byte_dec_bl.
  - right. by apply Byte.eqb_false.
Defined.

Definition byte_val (b : byte) : Z := Z.of_N (Byte.to_N b).

(** [ord(s)]: [s] must hold exactly one character. *)
Definition ord (s : bytes) : result Z :=
  match s with
  | [b] => Ok (byte_val b)
  | _ => Raise TypeError
  end.

(** [chr(n)] *)
Definition chr (n : Z) : result byte :=
  if (0 <=? n) && (n <? 256) then
    match Byte.of_N (Z.to_N n) with
    | Some b => Ok b
    | None => Raise ValueError
    end
  else Raise ValueError.

(** *** Text *)

Definition chars (s : string) : list ascii := String.list_ascii_of_string s.
Definition text (l : list ascii) : string := String.string_of_list_ascii l.

(** [s[a:b]] and [s[a:]] on text. *)
Definition str_slice (s : string) (a b : Z) : string := text (slice (chars s) a b).
Definition str_slice_from (s : string) (a : Z) : string := text (slice_from (chars s) a).

(** [s.rfind(c)]: the index of the last [c] in [s], or [-1]. *)
Fixpoint rfind_from (c : ascii) (s : list ascii) (i : Z) (found : Z) : Z :=
  match s with
  | [] => found
  | x :: s' => rfind_from c s' (i + 1) (if decide (x = c) then i else found)
  end.
Definition rfind (c : ascii) (s : string) : Z := rfind_from c (chars s) 0 (-1).

Definition is_upper (c : ascii) : bool :=
  let n := nat_of_ascii c in (65 <=? n)%nat && (n <=? 90)%nat.
Definition is_lower (c : ascii) : bool :=
  let n := nat_of_ascii c in (97 <=? n)%nat && (n <=? 122)%nat.
Definition is_digit (c : ascii) : bool :=
  let n := nat_of_ascii c in (48 <=? n)%nat && (n <=? 57)%nat.

Definition lower_char (c : ascii) : ascii :=
  if is_upper c then ascii_of_nat (nat_of_ascii c + 32) else c.
Definition upper_char (c : ascii) : ascii :=
  if is_lower c then ascii_of_nat (nat_of_ascii c - 32) else c.

(** [s.lower()] and [s.upper()] on the letters of ASCII.  ([str.lower]
    also maps letters beyond ASCII; the one use of it in the file compares
    the result with ["flac"] and ["mp3"], which no such letter gives.) *)
Definition lower (s : string) : string := text (lower_char <$> chars s).
Definition upper (s : string) : string := text (upper_char <$> chars s).

(** Whether a text has the characters of ASCII only. *)
Definition is_ascii (s : string) : bool :=
  forallb (λ c, (nat_of_ascii c <? 128)%nat) (chars s).

(** [s.upper()] follows the case mappings of Unicode.  On text of ASCII
    it is [upper]; what it makes of text with other characters is the
    table of the Python runtime, which is taken as a parameter. *)
Class Unicode : Type := { unicode_upper : string → string }.

Definition str_upper `{Unicode} (s : string) : string :=
  if is_ascii s then upper s else unicode_upper s.

(** *** UTF-8 *)

(** Where the strict decoder of UTF-8 stands: between two characters, or
    inside one, with the number of bytes it still needs and the range the
    next one must lie in (the ranges exclude the encodings that are too
    long, the surrogates and what lies beyond U+10FFFF). *)
Inductive utf8_state : Set :=
| Utf8Start
| Utf8Cont (n : nat) (lo hi : Z).

Definition utf8_step (st : utf8_state) (b : Z) : option utf8_state :=
  match st with
  | Utf8Start =>
      if b <? 128 then Some Utf8Start
      else if (194 <=? b) && (b <=? 223) then Some (Utf8Cont 1 128 191)
      else if b =? 224 then Some (Utf8Cont 2 160 191)
      else if b =? 237 then Some (Utf8Cont 2 128 159)
      else if (225 <=? b) && (b <=? 239) then Some (Utf8Cont 2 128 191)
      else if b =? 240 then Some (Utf8Cont 3 144 191)
      else if (241 <=? b) && (b <=? 243) then Some (Utf8Cont 3 128 191)
      else if b =? 244 then Some (Utf8Cont 3 128 143)
      else None
  | Utf8Cont n lo hi =>
      if (lo <=? b) && (b <=? hi) then
        Some (match n with
              | S (S n') => Utf8Cont (S n') 128 191
              | _ => Utf8Start
              end)
      else None
  end.

Fixpoint utf8_scan (st : utf8_state) (bs : list Z) : bool :=
  match bs with
  | [] => match st with Utf8Start => true | Utf8Cont _ _ _ => false end
  | b :: bs' =>
      match utf8_step st b with
      | Some st' => utf8_scan st' bs'
      | None => false
      end
  end.

(** Whether bytes are the UTF-8 encoding of a text. *)
Definition utf8_valid (bs : list Z) : bool := utf8_scan Utf8Start bs.

(** [b.decode()], for a [bytes] object written as a [string]: the text
    the bytes encode in UTF-8, or [UnicodeDecodeError]. *)
Definition decode (b : string) : result string :=
  if utf8_valid ((λ c, Z.of_nat (nat_of_ascii c)) <$> chars b) then Ok b
  else Raise UnicodeDecodeError.

(** The line ends of a text read from a file opened without [newline]:
    ["\r\n"] and a lone ["\r"] become ["\n"]. *)
Fixpoint universal_newlines (s : bytes) : bytes :=
  match s with
  | [] => []
  | c :: rest =>
      if decide (c = x0d) then
        match rest with
        | d :: rest' =>
            if decide (d = x0a) then x0a :: universal_newlines rest'
            else x0a :: universal_newlines rest
        | [] => [x0a]
        end
      else c :: universal_newlines rest
  end.

(** [f.read()] on a file opened in text mode, from the bytes that are
    left in it: they are decoded (in UTF-8, the encoding Python prefers
    where no other is configured) and the line ends are translated.  The
    text is held by the bytes of its UTF-8 encoding. *)
Definition read_text (data : bytes) : result bytes :=
  if utf8_valid (byte_val <$> data) then Ok (universal_newlines data)
  else Raise UnicodeDecodeError.

(** A value that is a [str] or a [bytes] object, where the code is
    handed either. *)
Inductive pydata : Set :=
| Str (text : bytes)
| Bytes (data : bytes).

(** [b == s] for a [bytes] object [b] and a [str] literal [s]: the two
    are never equal. *)
Definition bytes_eq_str (b : bytes) (s : string) : bool := false.

(** [s + b] for a [str] [s] and a [bytes] object [b]. *)
Definition str_add_bytes (s : string) (b : bytes) : result bytes :=
  Raise TypeError.

(** [s.split(sep)] for a separator of one character. *)
Fixpoint split (sep : ascii) (s : string) : list string :=
  match s with
  | EmptyString => [EmptyString]
  | String c s' =>
      if decide (c = sep) then EmptyString :: split sep s'
      else match split sep s' with
           | w :: ws => String c w :: ws
           | [] => [String c EmptyString]
           end
  end.

(** [os.path.splitext(p)] ([genericpath._splitext] with [sep = '/'],
    [extsep = '.']): the extension starts at the last dot of the last
    path component, unless that component has only dots before it. *)
Definition splitext (p : string) : string * string :=
  let sepIndex := rfind "/" p in
  let dotIndex := rfind "." p in
  if (sepIndex <? dotIndex)
     && negb (forallb (λ c, bool_decide (c = "."%char))
                (slice (chars p) (sepIndex + 1) dotIndex))
  then (str_slice p 0 dotIndex, str_slice_from p dotIndex)
  else (p, EmptyString).

(** The decimal digits of a natural number, most significant first. *)
Definition digit_char (d : Z) : ascii := ascii_of_nat (48 + Z.to_nat d).

Fixpoint digits_fuel (fuel : nat) (n : Z) : list ascii :=
  match fuel with
  | O => []
  | S fuel' =>
      if n <? 10 then [digit_char n]
      else digits_fuel fuel' (n / 10) ++ [digit_char (n mod 10)]
  end.

(** [str(n)] for an [int]. *)
Definition str_int (n : Z) : string :=
  if n <? 0 then String "-" (text (digits_fuel (S (Z.to_nat (- n))) (- n)))
  else text (digits_fuel (S (Z.to_nat n)) n).

(** ['%02i' % n] for an [int]: at least two characters, padded on the left
    with zeros (the sign counts towards the width). *)
Definition format_02i (n : Z) : string :=
  if (0 <=? n) && (n <? 10) then String "0" (str_int n) else str_int n.

End Py.
Export Py.

(** ** Collection items and [template_mapping] *)

(** A [float] is represented by the two things Python's formatting can
    observe of it in this file: [int(x)] and [str(x)]. *)
Record pyfloat : Set := { float_int : Z; float_str : string }.

(** The values found in the fields of an item. *)
Inductive value : Set :=
| VStr (s : string)
| VInt (n : Z)
| VBool (b : bool)
| VFloat (x : pyfloat).

(** [str(value)] *)
Definition str (v : value) : string :=
  match v with
  | VStr s => s
  | VInt n => str_int n
  | VBool true => "True"
  | VBool false => "False"
  | VFloat x => float_str x
  end.

(** ['%02i' % value] *)
Definition percent_02i (v : value) : result string :=
  match v with
  | VStr _ => Raise TypeError
  | VInt n => Ok (format_02i n)
  | VBool b => Ok (format_02i (if b then 1 else 0))
  | VFloat x => Ok (format_02i (float_int x))
  end.

(** An item of the beets library: the fields of [METADATA_FIELDS], the
    path of the file on disk and the database identifier. *)
Module Item.
Record t : Set := {
  id : Z;
  path : string;
  length : pyfloat;
  bitrate : Z;
  title : string;
  artist : string;
  album : string;
  genre : string;
  composer : string;
  grouping : string;
  year : Z;
  month : Z;
  day : Z;
  track : Z;
  tracktotal : Z;
  disc : Z;
  disctotal : Z;
  lyrics : string;
  comments : string;
  bpm : Z;
  comp : bool;
}.
End Item.

Definition METADATA_RW_FIELDS : list (string * string) :=
  [ ("title", "text"); ("artist", "text"); ("album", "text");
    ("genre", "text"); ("composer", "text"); ("grouping", "text");
    ("year", "int"); ("month", "int"); ("day", "int"); ("track", "int");
    ("tracktotal", "int"); ("disc", "int"); ("disctotal", "int");
    ("lyrics", "text"); ("comments", "text"); ("bpm", "int");
    ("comp", "bool") ]%string.

Definition METADATA_FIELDS : list (string * string) :=
  [ ("length", "real"); ("bitrate", "int") ]%string ++ METADATA_RW_FIELDS.

Definition METADATA_KEYS : list string := fst <$> METADATA_FIELDS.

(** The attributes of an item, by name. *)
Definition attributes (item : Item.t) : list (string * value) :=
  [ ("length", VFloat (Item.length item)); ("bitrate", VInt (Item.bitrate item));
    ("title", VStr (Item.title item)); ("artist", VStr (Item.artist item));
    ("album", VStr (Item.album item)); ("genre", VStr (Item.genre item));
    ("composer", VStr (Item.composer item));
    ("grouping", VStr (Item.grouping item));
    ("year", VInt (Item.year item)); ("month", VInt (Item.month item));
    ("day", VInt (Item.day item)); ("track", VInt (Item.track item));
    ("tracktotal", VInt (Item.tracktotal item));
    ("disc", VInt (Item.disc item)); ("disctotal", VInt (Item.disctotal item));
    ("lyrics", VStr (Item.lyrics item)); ("comments", VStr (Item.comments item));
    ("bpm", VInt (Item.bpm item)); ("comp", VBool (Item.comp item)) ]%string.

(** [getattr(item, key)] *)
Definition getattr (item : Item.t) (key : string) : result value :=
  match (list_to_map (attributes item) : gmap string value) !! key with
  | Some v => Ok v
  | None => Raise AttributeError
  end.

(** [re.sub(r'[\\/:]|^\.', '_', value)]: every backslash, slash and colon,
    and a dot at the very start of the string, become an underscore.
    [at_start] tells whether the scan stands at position 0, where [^]
    matches. *)
Definition unsafe_char (c : ascii) : bool :=
  bool_decide (c = "\"%char) || bool_decide (c = "/"%char)
  || bool_decide (c = ":"%char).

Fixpoint re_sub_scan (at_start : bool) (value : string) : string :=
  match value with
  | EmptyString => EmptyString
  | String c rest =>
      String
        (if unsafe_char c || (at_start && bool_decide (c = "."%char))
         then "_"%char else c)
        (re_sub_scan false rest)
  end.

Definition re_sub (value : string) : string := re_sub_scan true value.

(** One turn of the loop [for key in METADATA_KEYS].  The statement
    [value.replace(os.sep, '_')] of the source drops its result and has no
    effect. *)
Definition template_mapping_key (item : Item.t)
    (mapping : gmap string string) (key : string)
  : result (gmap string string) :=
  value ← getattr item key;
  rendered ←
    match value with
    | VStr s => Ok (re_sub s)
    | _ =>
        if bool_decide (key ∈ ["track"; "tracktotal"; "disc"; "disctotal"]%string)
        then percent_02i value
        else Ok (str value)
    end;
  Ok (<[key := rendered]> mapping).

Definition template_mapping `{Unicode} (item : Item.t)
  : result (gmap string string) :=
  mapping ← foldl (λ acc key, mapping ← acc; template_mapping_key item mapping key)
            (Ok ∅) METADATA_KEYS;
  format_ ← decode (str_slice_from (splitext (Item.path item)).2 1);
  let mapping := <["format" := re_sub format_]> mapping in
  let mapping := <["format_upper" := str_upper (re_sub format_)]> mapping in
  (* fix dud entries *)
  artist ← getitem mapping "artist";
  let mapping :=
    if decide (artist = "") then <["artist" := "Unknown Artist"]> mapping
    else mapping in
  album ← getitem mapping "album";
  let mapping :=
    if decide (album = "") then <["album" := "Unknown Album"]> mapping
    else mapping in
  year ← getitem mapping "year";
  let mapping :=
    if decide (year = "0") then <["year" := "Unknown Year"]> mapping
    else mapping in
  title ← getitem mapping "title";
  let mapping :=
    if decide (title = "") then <["title" := "Unknown Track"]> mapping
    else mapping in
  Ok mapping.

(** ** [string.Template] *)

Definition PATH_FORMAT : string :=
  "$artist/$album ($year) [$format_upper]/$track - $artist - $title.$format".

Definition id_start (c : ascii) : bool :=
  bool_decide (c = "_"%char) || is_lower c || is_upper c.
Definition id_char (c : ascii) : bool := id_start c || is_digit c.

(** Where the scan of a template stands: in plain text, just after a [$],
    inside [$name], just after [${], or inside [${name]. The name read so
    far is kept in reverse. *)
Inductive scan : Set :=
| Plain
| Dollar
| Named (name : list ascii)
| BraceOpen
| Braced (name : list ascii).

(** [Template(t).substitute(mapping)]: [$$] is a dollar sign, [$name] and
    [${name}] are replaced by [mapping[name]] ([KeyError] when absent),
    any other use of [$] is a [ValueError].  Placeholders are replaced
    from left to right, so the first one at fault decides the error.
    The mapping is only ever asked for [mapping[name]], which is what the
    scan is given. *)
Fixpoint substitute_scan (mapping : string → result string) (st : scan)
    (t : string) : result string :=
  match t with
  | EmptyString =>
      match st with
      | Plain => Ok EmptyString
      | Named name => mapping (text (rev name))
      | Dollar | BraceOpen | Braced _ => Raise ValueError
      end
  | String c t' =>
      match st with
      | Plain =>
          if bool_decide (c = "$"%char) then substitute_scan mapping Dollar t'
          else String c <$> substitute_scan mapping Plain t'
      | Dollar =>
          if bool_decide (c = "$"%char)
          then String "$" <$> substitute_scan mapping Plain t'
          else if id_start c then substitute_scan mapping (Named [c]) t'
          else if bool_decide (c = "{"%char)
          then substitute_scan mapping BraceOpen t'
          else Raise ValueError
      | Named name =>
          if id_char c then substitute_scan mapping (Named (c :: name)) t'
          else
            v ← mapping (text (rev name));
            rest ← (if bool_decide (c = "$"%char)
                    then substitute_scan mapping Dollar t'
                    else String c <$> substitute_scan mapping Plain t');
            Ok (v +:+ rest)
      | BraceOpen =>
          if id_start c then substitute_scan mapping (Braced [c]) t'
          else Raise ValueError
      | Braced name =>
          if id_char c then substitute_scan mapping (Braced (c :: name)) t'
          else if bool_decide (c = "}"%char) then
            v ← mapping (text (rev name));
            rest ← substitute_scan mapping Plain t';
            Ok (v +:+ rest)
          else Raise ValueError
      end
  end.

Definition substitute (template : string) (mapping : gmap string string)
  : result string :=
  substitute_scan (getitem mapping) Plain template.

(** The first lines of [mount], for a path format: [structure_split],
    [structure_depth] and the dictionary [templates]. *)
Definition structure_split_of (path_format : string) : list string :=
  split "/" path_format.

Definition structure_depth_of (path_format : string) : Z :=
  len (structure_split_of path_format).

Definition templates_of (path_format : string) : gmap Z string :=
  foldl (λ templates level,
           match index (structure_split_of path_format) level with
           | Ok t => <[level := t]> templates
           | Raise _ => templates
           end)
        ∅ (range 0 (structure_depth_of path_format)).

(** [level_subbed], as the loop [for level in range(0, structure_depth)]
    of [mount] fills it for one item. *)
Definition level_subbed_of (templates : gmap Z string) (structure_depth : Z)
    (mapping : gmap string string) : result (gmap Z string) :=
  foldl (λ acc level,
           level_subbed ← acc;
           template ← getitem templates level;
           segment ← substitute template mapping;
           Ok (<[level := segment]> level_subbed))
        (Ok ∅) (range 0 structure_depth).

(** ** The directory tree *)

(** A directory node: the sub-directories by name and the files by name,
    each file with the identifier of its item. *)
Inductive FSNode : Type :=
  mkFSNode { dirs : gmap string FSNode; files : gmap string Z }.

(** Every node but the root is created by [FSNode({}, {})] inside [adddir]
    and stored under one name of one parent, so a node is identified by
    the names that lead to it from [directory_structure].  A reference to
    a node is that list of names; mutating the node behind a reference
    rebuilds the spine above it. *)
Abbreviation noderef := (list string) (only parsing).

Fixpoint node_at (t : FSNode) (p : noderef) : option FSNode :=
  match p with
  | [] => Some t
  | d :: p' =>
      match dirs t !! d with
      | Some child => node_at child p'
      | None => None
      end
  end.

Fixpoint update_at (p : noderef) (f : FSNode → FSNode) (t : FSNode) : FSNode :=
  match p with
  | [] => f t
  | d :: p' =>
      match dirs t !! d with
      | Some child => mkFSNode (<[d := update_at p' f child]> (dirs t)) (files t)
      | None => t
      end
  end.

(** Python lists are objects: a list handed to a function is shared with
    the caller, and [pop] is seen by both.  The lists of path elements
    live in a heap, and a variable holds the address of its list. *)
Abbreviation loc := nat (only parsing).

(** The globals of the module ([directory_structure], [structure_depth])
    and the heap of list objects. *)
Record world : Type := {
  directory_structure : FSNode;
  structure_depth : Z;
  heap : gmap loc (list string);
}.

Definition set_tree (f : FSNode → FSNode) (w : world) : world :=
  {| directory_structure := f (directory_structure w);
     structure_depth := structure_depth w;
     heap := heap w |}.

Definition set_heap (f : gmap loc (list string) → gmap loc (list string))
    (w : world) : world :=
  {| directory_structure := directory_structure w;
     structure_depth := structure_depth w;
     heap := f (heap w) |}.

(** The list at an address. *)
Definition contents (w : world) (l : loc) : list string :=
  default [] (heap w !! l).

(** A list display or a slice creates a new list object. *)
Definition list_new (xs : list string) : M world loc :=
  λ w, let l := fresh (dom (heap w)) in (Ok l, set_heap <[l := xs]> w).

Definition list_read (l : loc) : M world (list string) :=
  λ w, (Ok (contents w l), w).

(** [l.append(x)] *)
Definition list_append (l : loc) (x : string) : M world unit :=
  λ w, (Ok tt, set_heap <[l := contents w l ++ [x]]> w).

(** [l.pop(0)] *)
Definition list_pop0 (l : loc) : M world string :=
  λ w, match contents w l with
       | [] => (Raise IndexError, w)
       | x :: xs => (Ok x, set_heap <[l := xs]> w)
       end.

(** The node behind a reference.  A reference that [getnode] answered
    leads to a node; the other case only makes the function total. *)
Definition deref (node : noderef) : M world FSNode :=
  λ w, match node_at (directory_structure w) node with
       | Some n => (Ok n, w)
       | None => (Raise KeyError, w)
       end.

(** [node.dirs[name]]: a reference to the child. *)
Definition getitem_dirs (node : noderef) (name : string) : M world noderef :=
  n ← deref node;
  _ ← lift (getitem (dirs n) name);
  mret (node ++ [name]).

(** [node.dirs[name] = child] *)
Definition setitem_dirs (node : noderef) (name : string) (child : FSNode)
  : M world unit :=
  modify (set_tree (update_at node
            (λ n, mkFSNode (<[name := child]> (dirs n)) (files n)))).

(** [node.files[name] = id] *)
Definition setitem_files (node : noderef) (name : string) (id : Z)
  : M world unit :=
  modify (set_tree (update_at node
            (λ n, mkFSNode (dirs n) (<[name := id]> (files n))))).

Module FSNode.

(** [getnode] calls itself once for every element it pops; the fuel is
    the number of calls left, and [getnode] below starts with as many
    as the list has elements. *)
Fixpoint getnode_fuel (fuel : nat) (self : noderef) (elements : loc)
    (root : option noderef) : M world noderef :=
  let root := default self root in
  l ← list_read elements;
  match l with
  | _ :: _ =>
      match fuel with
      | O => raise OutOfFuel
      | S fuel' =>
          topdir ← list_pop0 elements;
          child ← getitem_dirs root topdir;
          getnode_fuel fuel' self elements (Some child)
      end
  | [] =>
      (* base case *)
      mret root
  end.

Definition getnode (self : noderef) (elements : loc) (root : option noderef)
  : M world noderef :=
  l ← list_read elements;
  getnode_fuel (length l) self elements root.

(** [len(elements) == 1 and elements[0] == ''] *)
Definition is_root_path (l : list string) : bool :=
  bool_decide (len l = 1) && bool_decide (l !! 0%nat = Some EmptyString).

Definition adddir (self : noderef) (elements : loc) (directory : string)
    (root : option noderef) : M world unit :=
  let root := default self root in
  l ← list_read elements;
  (* [elements = []] binds the local name to a new list; the list of the
     caller is left as it is *)
  elements ← (if is_root_path l then list_new [] else mret elements);
  node ← getnode self elements (Some root);
  n ← deref node;
  if bool_decide (is_Some (dirs n !! directory)) then mret tt
  else setitem_dirs node directory (mkFSNode ∅ ∅).

Definition addfile (self : noderef) (elements : loc) (filename : string)
    (id : Z) (root : option noderef) : M world unit :=
  let root := default self root in
  l ← list_read elements;
  elements ← (if is_root_path l then list_new [] else mret elements);
  node ← getnode self elements (Some root);
  setitem_files node filename id.

(** [listdir]: the names of the sub-directories of the node at
    [elements], or of its files. *)
Definition listdir (self : noderef) (elements : loc) (directories : bool)
    (root : option noderef) : M world (list string) :=
  let root := default self root in
  l ← list_read elements;
  elements ← (if is_root_path l then list_new [] else mret elements);
  node ← getnode self elements (Some root);
  n ← deref node;
  if directories then mret (keys (dirs n)) else mret (keys (files n)).

End FSNode.

(** ** [mount] *)

(** The body of the loop [for level in range(0, structure_depth - 1)]:
    the directory of one level is added.  The global
    [directory_structure] is the root of the tree, the reference [[]]. *)
Definition mount_level (level_subbed : gmap Z string) (sub_elements : loc)
    (level : Z) : M world unit :=
  _ ← match level_subbed !! (level - 1) with
      | Some segment => list_append sub_elements segment
      | None => mret tt
      end;
  directory ← lift (getitem level_subbed level);
  (* add this directory to the master structure *)
  FSNode.adddir [] sub_elements directory None.

(** The body of the loop [for item in list(lib.items())], with the
    globals [templates] and [structure_depth] it reads. *)
Definition mount_item `{Unicode} (templates : gmap Z string)
    (structure_depth : Z) (item : Item.t) : M world unit :=
  (* build the template map *)
  mapping ← lift (template_mapping item);
  (* do the substitutions *)
  level_subbed ← lift (level_subbed_of templates structure_depth mapping);
  (* build a directory structure *)
  sub_elements ← list_new [];
  _ ← for_each (range 0 (structure_depth - 1))
        (mount_level level_subbed sub_elements);
  (* add this item as a file *)
  segment ← lift (getitem level_subbed (structure_depth - 3));
  _ ← list_append sub_elements segment;
  segment ← lift (getitem level_subbed (structure_depth - 2));
  _ ← list_append sub_elements segment;
  filename ← lift (getitem level_subbed (structure_depth - 1));
  FSNode.addfile [] sub_elements filename (Item.id item) None.

(** [mount] up to the start of the FUSE server, for the items of the
    library.  The global [library] is the argument [lib] of
    [FileHandler] below. *)
Definition mount `{Unicode} (items : list Item.t) : M world unit :=
  let structure_depth := structure_depth_of PATH_FORMAT in
  let templates := templates_of PATH_FORMAT in
  _ ← modify (λ w, {| directory_structure := mkFSNode ∅ ∅;
                      structure_depth := structure_depth;
                      heap := heap w |});
  for_each items (mount_item templates structure_depth).

(** ** [InterpolatedFLAC] *)

(** [ord(b)] for an element of a [bytes] object.  Such an element is an
    [int], and [ord] wants a [str] or a [bytes] object of length one: it
    raises [TypeError]. *)
Definition ord_int (b : Z) : result Z := Raise TypeError.

(** [to_int_be]: [reduce] over the elements of its argument, from 0.
    Both callers hand it what [read(3)] returned on a [BytesIO], a
    [bytes] object; the first element, if there is one, ends the
    reduction with the [TypeError] of [ord]. *)
Definition to_int_be (string : bytes) : result Z :=
  foldl (λ a b, a ← a; o ← ord_int (byte_val b); Ok (Z.shiftl a 8 + o))
        (Ok 0) string.

(** [mutagen.id3.BitPaddedInt]: big-endian, the low seven bits of each
    byte. *)
Definition BitPaddedInt (s : bytes) : Z :=
  foldl (λ a b, Z.shiftl a 7 + Z.land (byte_val b) 127) 0 s.

(** The magic of a FLAC stream, as the bytes a file has it. *)
Definition fLaC : bytes := ["f"; "L"; "a"; "C"]%byte.

(** A metadata block of mutagen, as far as this file looks into one: a
    padding block with its [length], or a block of another class with its
    [code] and the bytes its [write()] gives. *)
Inductive MetadataBlock : Set :=
| Padding (length : Z)
| Block (code : Z) (data : bytes).

(** [Padding(data)].  mutagen reads the block from the bytes it is
    given (the length of a padding block is their number); data that is
    neither a [bytes] object nor a file is refused with [TypeError]. *)
Definition Padding_of (data : pydata) : result MetadataBlock :=
  match data with
  | Bytes data => Ok (Padding (len data))
  | Str _ => Raise TypeError
  end.

Definition block_code (b : MetadataBlock) : Z :=
  match b with
  | Padding _ => 1
  | Block code _ => code
  end.

(** [block.write()]; for padding, [b'\x00' * self.length]. *)
Definition block_write (b : MetadataBlock) : bytes :=
  match b with
  | Padding length => replicate (Z.to_nat length) x00
  | Block _ data => data
  end.

(** Whether a block has the attribute [length]: padding has it, and so
    has the stream-info block (code 0), where it is the duration of the
    stream; the other blocks do not. *)
Definition has_length (b : MetadataBlock) : bool :=
  match b with
  | Padding _ => true
  | Block code _ => bool_decide (code = 0)
  end.

(** [padding.length], for the block [get_header] calls [padding]: the
    last block of the list, which is the padding block that
    [group_padding] put there.  (On a block of another class the model
    answers [AttributeError]; that case does not arise.) *)
Definition block_length (b : MetadataBlock) : result Z :=
  match b with
  | Padding length => Ok length
  | Block _ _ => Raise AttributeError
  end.

Definition is_padding (b : MetadataBlock) : bool :=
  match b with
  | Padding _ => true
  | Block _ _ => false
  end.

(** [mutagen.flac.MetadataBlock.group_padding]: the padding blocks are
    taken out and one padding block is put at the end; it has their
    lengths and four bytes for every header that went away. *)
Definition group_padding (blocks : list MetadataBlock) : list MetadataBlock :=
  let paddings := filter (λ b, is_padding b = true) blocks in
  let others := filter (λ b, is_padding b ≠ true) blocks in
  let size := foldr Z.add 0 ((λ b, default 0 (match b with Padding n => Some n | _ => None end)) <$> paddings) in
  others ++ [Padding (size + 4 * (len paddings - 1))].

(** [struct.pack(">I", n)[-3:]] *)
Definition pack_length (n : Z) : result bytes :=
  b2 ← chr (Z.land (Z.shiftr n 16) 255);
  b1 ← chr (Z.land (Z.shiftr n 8) 255);
  b0 ← chr (Z.land n 255);
  Ok [b2; b1; b0].

(** One block of [writeblocks]: the code byte, the length on three bytes,
    the data.  A block of more than [2**24] bytes is refused. *)
Definition writeblock (code : Z) (datum : bytes) : result bytes :=
  byte ← chr code;
  if 2 ^ 24 <? len datum then Raise FLACError
  else
    length ← pack_length (len datum);
    Ok (byte :: length ++ datum).

(** [mutagen.flac.MetadataBlock.writeblocks]: the blocks in order, the
    code of the last one with its high bit set. *)
Fixpoint writeblocks_from (blocks : list MetadataBlock) : result bytes :=
  match blocks with
  | [] => Ok []
  | [b] => writeblock (Z.lor (block_code b) 128) (block_write b)
  | b :: rest =>
      head ← writeblock (block_code b) (block_write b);
      tail ← writeblocks_from rest;
      Ok (head ++ tail)
  end.

Definition writeblocks (blocks : list MetadataBlock) : result bytes :=
  match blocks with
  | [] => Raise IndexError
  | _ => writeblocks_from blocks
  end.

(** [BytesIO]: the buffer and the position of the next read. *)
Record BytesIO : Set := { buf : bytes; pos : Z }.

(** [BytesIO(initial)]: the initial value must be a [bytes] object. *)
Definition BytesIO_of (initial : pydata) : result BytesIO :=
  match initial with
  | Bytes data => Ok {| buf := data; pos := 0 |}
  | Str _ => Raise TypeError
  end.

Module InterpolatedFLAC.

Record t : Set := {
  metadata_blocks : list MetadataBlock;
  tags : option MetadataBlock;
  cuesheet : option MetadataBlock;
  seektable : option MetadataBlock;
  filedata : pydata;
  fileobj : BytesIO;
  offset_ : option Z;
}.

Definition set_fileobj (f : BytesIO) (self : t) : t :=
  {| metadata_blocks := metadata_blocks self; tags := tags self;
     cuesheet := cuesheet self; seektable := seektable self;
     filedata := filedata self; fileobj := f; offset_ := offset_ self |}.

Definition set_metadata_blocks (bs : list MetadataBlock) (self : t) : t :=
  {| metadata_blocks := bs; tags := tags self;
     cuesheet := cuesheet self; seektable := seektable self;
     filedata := filedata self; fileobj := fileobj self;
     offset_ := offset_ self |}.

Definition set_tags (b : MetadataBlock) (self : t) : t :=
  {| metadata_blocks := metadata_blocks self; tags := Some b;
     cuesheet := cuesheet self; seektable := seektable self;
     filedata := filedata self; fileobj := fileobj self;
     offset_ := offset_ self |}.

Definition set_cuesheet (b : MetadataBlock) (self : t) : t :=
  {| metadata_blocks := metadata_blocks self; tags := tags self;
     cuesheet := Some b; seektable := seektable self;
     filedata := filedata self; fileobj := fileobj self;
     offset_ := offset_ self |}.

Definition set_seektable (b : MetadataBlock) (self : t) : t :=
  {| metadata_blocks := metadata_blocks self; tags := tags self;
     cuesheet := cuesheet self; seektable := Some b;
     filedata := filedata self; fileobj := fileobj self;
     offset_ := offset_ self |}.

Definition set_offset (n : Z) (self : t) : t :=
  {| metadata_blocks := metadata_blocks self; tags := tags self;
     cuesheet := cuesheet self; seektable := seektable self;
     filedata := filedata self; fileobj := fileobj self;
     offset_ := Some n |}.

(** [self.fileobj.read(n)] *)
Definition read (n : Z) : M t bytes :=
  λ self,
    let f := fileobj self in
    let start := Z.max 0 (pos f) in
    let data := if n <? 0 then slice_from (buf f) start
                else slice (buf f) start (start + n) in
    (Ok data, set_fileobj {| buf := buf f; pos := pos f + len data |} self).

(** [self.fileobj.seek(p)] *)
Definition seek (p : Z) : M t unit :=
  λ self,
    if p <? 0 then (Raise ValueError, self)
    else (Ok tt, set_fileobj {| buf := buf (fileobj self); pos := p |} self).

(** [self.fileobj.tell()] *)
Definition tell : M t Z := λ self, (Ok (pos (fileobj self)), self).

(** [__check_header].  The bytes read from the [BytesIO] are compared
    with the [str] literals ["fLaC"] and ["ID3"].  When [size] is [None]
    the argument of the [raise] is evaluated first, and a [BytesIO] has
    no attribute [name].  The [return size] of the source stands inside
    that [if], behind the [raise]; where [size] is not [None] the
    function runs off its end and answers [None]. *)
Definition check_header : M t (option Z) :=
  header ← read 4;
  size ←
    (if negb (bytes_eq_str header "fLaC") then
       if bytes_eq_str (slice header 0 3) "ID3" then
         six ← read 6;
         let size := 14 + BitPaddedInt (slice_from six 2) in
         _ ← seek (size - 4);
         magic ← read 4;
         mret (if negb (bytes_eq_str magic "fLaC") then None else Some size)
       else mret None
     else mret (Some 4));
  match size with
  | None =>
      _ ← (raise AttributeError : M t unit);
      raise FLACNoHeaderError
  | Some _ => mret None
  end.

(** The [else] branch of the [try] in [__read_metadata_block], for the
    local variable [block] ([None] while it is unbound). *)
Definition register_block (block : option MetadataBlock) : M t unit :=
  match block with
  | None => raise UnboundLocalError
  | Some block =>
      self ← get;
      _ ← put (set_metadata_blocks (metadata_blocks self ++ [block]) self);
      if decide (block_code block = 4) then
        match tags self with
        | None => modify (set_tags block)
        | Some _ => raise FLACVorbisError
        end
      else if decide (block_code block = 5) then
        match cuesheet self with
        | None => modify (set_cuesheet block)
        | Some _ => raise Exception_
        end
      else if decide (block_code block = 3) then
        match seektable self with
        | None => modify (set_seektable block)
        | Some _ => raise Exception_
        end
      else mret tt
  end.

(** [__read_metadata_block].  The two first lines stand before the
    [try], so what they raise leaves the function.  In the [try], the
    assignment to [block] is indented under the [raise] of the
    short-read test, so it never runs: either the plain [Exception]
    leaves the function (it is not one of the classes the [except]
    names), or nothing was raised and the [else] branch runs with
    [block] unbound. *)
Definition read_metadata_block : M t Z :=
  b ← read 1;
  byte ← lift (ord b);
  s ← read 3;
  size ← lift (to_int_be s);
  let block : option MetadataBlock := None in
  data ← read size;
  if decide (len data ≠ size) then raise Exception_
  else
    _ ← register_block block;
    mret (Z.lxor (Z.shiftr byte 7) 1).

(** [while self.__read_metadata_block(self.fileobj): pass] *)
Fixpoint read_metadata_blocks (fuel : nat) : M t unit :=
  match fuel with
  | O => raise OutOfFuel
  | S fuel' =>
      more ← read_metadata_block;
      if decide (more ≠ 0) then read_metadata_blocks fuel' else mret tt
  end.

(** [load].  The attributes are assigned in the order of the source;
    [fileobj] is assigned when [BytesIO(filedata)] has returned. *)
Definition load (filedata : pydata) : M t unit :=
  _ ← modify (λ self,
        {| metadata_blocks := []; tags := None; cuesheet := None;
           seektable := None; filedata := filedata;
           fileobj := fileobj self; offset_ := offset_ self |});
  f ← lift (BytesIO_of filedata);
  _ ← modify (set_fileobj f);
  _ ← check_header;
  _ ← read_metadata_blocks (S (length (buf f)));
  two ← read 2;
  if negb (existsb (bytes_eq_str two) ["ÿø"; "ÿù"]%string)
  then raise FLACNoHeaderError
  else
    self ← get;
    match index (metadata_blocks self) 0 with
    | Ok block =>
        if has_length block then mret tt else raise FLACNoHeaderError
    | Raise _ => raise FLACNoHeaderError
    end.

(** [InterpolatedFLAC(filedata)]: mutagen's constructor calls [load]
    on its argument, and the object exists if [load] returns. *)
Definition new (filedata : pydata) : result t :=
  let blank := {| metadata_blocks := []; tags := None; cuesheet := None;
                  seektable := None; filedata := Bytes [];
                  fileobj := {| buf := []; pos := 0 |};
                  offset_ := None |} in
  match load filedata blank with
  | (Ok _, self) => Ok self
  | (Raise e, _) => Raise e
  end.

(** [__find_audio_offset]; [byte] is the code byte of the last block
    read. *)
Fixpoint find_audio_offset_loop (fuel : nat) (byte : Z) : M t Z :=
  if decide (Z.land (Z.shiftr byte 7) 1 = 0) then
    match fuel with
    | O => raise OutOfFuel
    | S fuel' =>
        b ← read 1;
        byte ← lift (ord b);
        s ← read 3;
        size ← lift (to_int_be s);
        _ ← read size;
        find_audio_offset_loop fuel' byte
    end
  else tell.

Definition find_audio_offset : M t Z :=
  self ← get;
  find_audio_offset_loop (S (length (buf (fileobj self)))) 0.

(** [self.metadata_blocks[-1].length], read and assigned. *)
Definition last_length : M t Z :=
  self ← get;
  lift (index (metadata_blocks self) (-1) ≫= block_length).

Definition set_last_length (n : Z) : M t unit :=
  modify (λ self,
    set_metadata_blocks
      (match reverse (metadata_blocks self) with
       | Padding _ :: front => reverse (Padding n :: front)
       | _ => metadata_blocks self
       end) self).

(** [MetadataBlock.writeblocks(self.metadata_blocks)] *)
Definition render : M t bytes :=
  self ← get; lift (writeblocks (metadata_blocks self)).

Definition assert (b : bool) : M t unit :=
  if b then mret tt else raise AssertionError.

(** [int - x] where [x] is an [int] or [None]. *)
Definition sub (a : Z) (b : option Z) : result Z :=
  match b with
  | Some b => Ok (a - b)
  | None => Raise TypeError
  end.

(** [get_header].  The padding that is appended is made from a [str],
    ['\x00' * 1020]. *)
Definition get_header : M t bytes :=
  _ ← seek 0;
  (* Ensure we've got padding at the end, and only at the end. *)
  padding ← lift (Padding_of (Str (replicate 1020 x00)));
  _ ← modify (λ self,
        set_metadata_blocks (metadata_blocks self ++ [padding]) self);
  _ ← modify (λ self,
        set_metadata_blocks (group_padding (metadata_blocks self)) self);
  header ← check_header;
  (* "fLaC" and maybe ID3 *)
  audio ← find_audio_offset;
  available ← lift (sub audio header);
  data ← render;
  data ←
    (if len data >? available then
       (* If we have too much data, see if we can reduce padding. *)
       length ← last_length;
       let newlength := length - (len data - available) in
       if newlength >? 0 then
         _ ← set_last_length newlength;
         data ← render;
         _ ← assert (bool_decide (len data = available));
         mret data
       else mret data
     else if len data <? available then
       (* If we have too little data, increase padding. *)
       length ← last_length;
       _ ← set_last_length (length + (available - len data));
       data ← render;
       _ ← assert (bool_decide (len data = available));
       mret data
     else mret data);
  whole ← lift (str_add_bytes "fLaC" data);
  _ ← modify (set_offset (len whole));
  lift (str_add_bytes "fLaC" data).

Definition offset (self : t) : result Z := attr (offset_ self).

End InterpolatedFLAC.

(** ** [FileHandler] *)

(** mutagen's dictionary interface to the tags of a FLAC object,
    [inf[key]] and [inf[key] = value] ([FileType.__getitem__] and
    [__setitem__]).  It is library code outside this repository and is
    taken as a parameter. *)
Class Mutagen : Type := {
  flac_getitem : InterpolatedFLAC.t → string → result (list string);
  flac_setitem : InterpolatedFLAC.t → string → string → result InterpolatedFLAC.t;
}.

(** The beets library, as far as this file uses it: the items by
    identifier.  [lib.get_item] answers [None] for an unknown identifier;
    [lib.store] writes the fields of an item back. *)
Definition Library : Type := gmap Z Item.t.

(** The files on disk that [open(path, 'r+')] opens, by path: the bytes
    of each. *)
Definition Disk : Type := gmap string bytes.

Module FileHandler.

(** The object.  [header] and [music_data] are the two sequences that
    [read] and [write] cut and join; [write] hands what it joined to the
    decoder as a [bytes] object. *)
Record t : Type := {
  path : string;
  item : Item.t;
  real_path : string;
  instance_count : Z;
  format : string;
  inf : option InterpolatedFLAC.t;
  header : option bytes;
  bound : option Z;
  music_offset : option Z;
  music_data : bytes;
}.

(** [os.path.splitext(path)[1][1:].lower()] *)
Definition format_of (path : string) : string :=
  lower (str_slice_from (splitext path).2 1).

(** [self.inf[key] = value], for the four tags copied from the item. *)
Definition tags_from_item `{Mutagen} (item : Item.t) (inf : InterpolatedFLAC.t)
  : result InterpolatedFLAC.t :=
  inf ← flac_setitem inf "title" (Item.title item);
  inf ← flac_setitem inf "album" (Item.album item);
  inf ← flac_setitem inf "artist" (Item.artist item);
  flac_setitem inf "genre" (Item.genre item).

(** [inf.get_header(...)], [len(header)] and [inf.offset()]: the object
    afterwards, the header and the two numbers. *)
Definition header_of (inf : InterpolatedFLAC.t)
  : result (InterpolatedFLAC.t * bytes * Z * Z) :=
  match InterpolatedFLAC.get_header inf with
  | (Ok header, inf) =>
      music_offset ← InterpolatedFLAC.offset inf;
      Ok (inf, header, len header, music_offset)
  | (Raise e, _) => Raise e
  end.

(** The branches on [self.format] in [__init__]: what they assign to
    [inf], [header], [bound] and [music_offset].  No branch is taken for
    a format other than ["flac"] and ["mp3"], and the four attributes
    stay unset.  [file_contents] are the bytes of the file that was
    opened; it was opened in text mode (['r+']), so
    [self.file_object.read()] is a [str]. *)
Definition bounds_of `{Mutagen} (format : string) (item : Item.t)
    (file_contents : bytes)
  : result (option InterpolatedFLAC.t * option bytes * option Z * option Z) :=
  if decide (format = "flac") then
    text ← read_text file_contents;
    inf ← InterpolatedFLAC.new (Str text);
    (* get values from database *)
    inf ← tags_from_item item inf;
    '(inf, header, bound, music_offset) ← header_of inf;
    Ok (Some inf, Some header, Some bound, Some music_offset)
  else if decide (format = "mp3") then
    (* disable interpolation for now *)
    Ok (None, None, Some 0, Some 0)
  else Ok (None, None, None, None).

(** [FileHandler(path, lib)], with the files on disk.  The file is
    opened in text mode, so what [read()] gives at the end is the text
    of the file from the offset on. *)
Definition init `{Mutagen} (path : string) (lib : Library) (disk : Disk)
  : M world t :=
  let pathsplit := split "/" (str_slice_from path 1) in
  (* determine the item and real path *)
  w ← get;
  elements ← list_new (slice pathsplit 0 (structure_depth w - 1));
  node ← FSNode.getnode [] elements None;
  n ← deref node;
  name ← lift (index pathsplit (structure_depth w - 1));
  id ← lift (getitem (files n) name);
  item ← lift (attr (lib !! id));
  let real_path := Item.path item in
  (* open the on-disk file for reading *)
  file_contents ← lift (match disk !! real_path with
                        | Some data => Ok data
                        | None => Raise IOError
                        end);
  let instance_count := 1 in
  (* now get the bounds of the file_class *)
  let format := format_of path in
  '(inf, header, bound, music_offset) ← lift (bounds_of format item file_contents);
  (* read in the contents of the file *)
  offset ← lift (attr music_offset);
  (* [seek] refuses a negative offset *)
  _ ← (if offset <? 0 then raise ValueError else mret tt);
  music_data ← lift (read_text (slice_from file_contents offset));
  mret {| path := path; item := item; real_path := real_path;
          instance_count := instance_count; format := format;
          inf := inf; header := header; bound := bound;
          music_offset := music_offset; music_data := music_data |}.

Definition set_instance_count (n : Z) (self : t) : t :=
  {| path := path self; item := item self; real_path := real_path self;
     instance_count := n; format := format self;
     inf := inf self; header := header self; bound := bound self;
     music_offset := music_offset self; music_data := music_data self |}.

(** [open]: as [__init__] handles the actual opening, the instance count
    is incremented and nothing else. *)
Definition open : M t unit :=
  self ← get;
  put (set_instance_count (instance_count self + 1) self).

(** [release]: the instance count is decremented while it is positive;
    the answer tells whether it was not. *)
Definition release : M t bool :=
  self ← get;
  if instance_count self >? 0 then
    _ ← put (set_instance_count (instance_count self - 1) self);
    mret false
  else mret true.

Definition read (self : t) (size offset : Z) : result bytes :=
  bound ← attr (bound self);
  (* check if read is within header boundary *)
  if offset <? bound then
    header ← attr (header self);
    if offset + size <? len header then
      (* can just read from header *)
      Ok (slice header offset (offset + size))
    else
      (* get the header + some data from file *)
      Ok (slice header offset (len header)
          ++ slice (music_data self) 0 (size - (len header - offset)))
  else
    (* otherwise, pass read call to underlying file system *)
    header ← attr (header self);
    Ok (slice (music_data self) (offset - len header)
              (offset - len header + size)).

(** The object and the library, which [write] changes. *)
Definition state : Type := t * Library.

Definition set_inf (inf : InterpolatedFLAC.t) : M state unit :=
  modify (λ '(self, lib),
    ({| path := path self; item := item self; real_path := real_path self;
        instance_count := instance_count self; format := format self;
        inf := Some inf; header := header self; bound := bound self;
        music_offset := music_offset self;
        music_data := music_data self |}, lib)).

Definition set_item (f : Item.t → Item.t) : M state unit :=
  modify (λ '(self, lib),
    ({| path := path self; item := f (item self);
        real_path := real_path self;
        instance_count := instance_count self; format := format self;
        inf := inf self; header := header self; bound := bound self;
        music_offset := music_offset self;
        music_data := music_data self |}, lib)).

Definition set_header (h : bytes) (b o : Z) : M state unit :=
  modify (λ '(self, lib),
    ({| path := path self; item := item self; real_path := real_path self;
        instance_count := instance_count self; format := format self;
        inf := inf self; header := Some h; bound := Some b;
        music_offset := Some o;
        music_data := music_data self |}, lib)).

Definition with_title (v : string) (i : Item.t) : Item.t :=
  {| Item.id := Item.id i; Item.path := Item.path i;
     Item.length := Item.length i; Item.bitrate := Item.bitrate i;
     Item.title := v; Item.artist := Item.artist i;
     Item.album := Item.album i; Item.genre := Item.genre i;
     Item.composer := Item.composer i; Item.grouping := Item.grouping i;
     Item.year := Item.year i; Item.month := Item.month i;
     Item.day := Item.day i; Item.track := Item.track i;
     Item.tracktotal := Item.tracktotal i; Item.disc := Item.disc i;
     Item.disctotal := Item.disctotal i; Item.lyrics := Item.lyrics i;
     Item.comments := Item.comments i; Item.bpm := Item.bpm i;
     Item.comp := Item.comp i |}.

Definition with_album (v : string) (i : Item.t) : Item.t :=
  {| Item.id := Item.id i; Item.path := Item.path i;
     Item.length := Item.length i; Item.bitrate := Item.bitrate i;
     Item.title := Item.title i; Item.artist := Item.artist i;
     Item.album := v; Item.genre := Item.genre i;
     Item.composer := Item.composer i; Item.grouping := Item.grouping i;
     Item.year := Item.year i; Item.month := Item.month i;
     Item.day := Item.day i; Item.track := Item.track i;
     Item.tracktotal := Item.tracktotal i; Item.disc := Item.disc i;
     Item.disctotal := Item.disctotal i; Item.lyrics := Item.lyrics i;
     Item.comments := Item.comments i; Item.bpm := Item.bpm i;
     Item.comp := Item.comp i |}.

Definition with_artist (v : string) (i : Item.t) : Item.t :=
  {| Item.id := Item.id i; Item.path := Item.path i;
     Item.length := Item.length i; Item.bitrate := Item.bitrate i;
     Item.title := Item.title i; Item.artist := v;
     Item.album := Item.album i; Item.genre := Item.genre i;
     Item.composer := Item.composer i; Item.grouping := Item.grouping i;
     Item.year := Item.year i; Item.month := Item.month i;
     Item.day := Item.day i; Item.track := Item.track i;
     Item.tracktotal := Item.tracktotal i; Item.disc := Item.disc i;
     Item.disctotal := Item.disctotal i; Item.lyrics := Item.lyrics i;
     Item.comments := Item.comments i; Item.bpm := Item.bpm i;
     Item.comp := Item.comp i |}.

Definition with_genre (v : string) (i : Item.t) : Item.t :=
  {| Item.id := Item.id i; Item.path := Item.path i;
     Item.length := Item.length i; Item.bitrate := Item.bitrate i;
     Item.title := Item.title i; Item.artist := Item.artist i;
     Item.album := Item.album i; Item.genre := v;
     Item.composer := Item.composer i; Item.grouping := Item.grouping i;
     Item.year := Item.year i; Item.month := Item.month i;
     Item.day := Item.day i; Item.track := Item.track i;
     Item.tracktotal := Item.tracktotal i; Item.disc := Item.disc i;
     Item.disctotal := Item.disctotal i; Item.lyrics := Item.lyrics i;
     Item.comments := Item.comments i; Item.bpm := Item.bpm i;
     Item.comp := Item.comp i |}.

(** [str(inf[key][0]).encode('utf-8')] *)
Definition first_tag `{Mutagen} (inf : InterpolatedFLAC.t) (key : string)
  : M state string :=
  lift (values ← flac_getitem inf key; index values 0).

(** [self.lib.store(self.item)] and [self.lib.save()] *)
Definition store_item : M state unit :=
  modify (λ '(self, lib), (self, <[Item.id (item self) := item self]> lib)).

(** [try: body except IOError: handler] *)
Definition try_except_IOError {S A} (body handler : M S A) : M S A :=
  λ s, match body s with
       | (Raise e, s') =>
           if isinstance_IOError e then handler s' else (Raise e, s')
       | r => r
       end.

(** The body of the [try] in [write]. *)
Definition update_tags `{Mutagen} (filedata buf : bytes) : M state (option Z) :=
  (* now obtain a new Interpolated FLAC from the temporary file *)
  inf ← lift (InterpolatedFLAC.new (Bytes filedata));
  _ ← set_inf inf;
  (* instead of putting the values into the FLAC, extract the values *)
  v ← first_tag inf "title"; _ ← set_item (with_title v);
  v ← first_tag inf "album"; _ ← set_item (with_album v);
  v ← first_tag inf "artist"; _ ← set_item (with_artist v);
  v ← first_tag inf "genre"; _ ← set_item (with_genre v);
  _ ← store_item;
  (* get values from database *)
  '(self, _) ← get;
  inf ← lift (flac_setitem inf "title" (Item.title (item self)));
  _ ← set_inf inf;
  inf ← lift (flac_setitem inf "album" (Item.album (item self)));
  _ ← set_inf inf;
  inf ← lift (flac_setitem inf "artist" (Item.artist (item self)));
  _ ← set_inf inf;
  inf ← lift (flac_setitem inf "genre" (Item.genre (item self)));
  _ ← set_inf inf;
  match InterpolatedFLAC.get_header inf with
  | (Raise e, inf) => _ ← set_inf inf; raise e
  | (Ok header, inf) =>
      _ ← set_inf inf;
      music_offset ← lift (InterpolatedFLAC.offset inf);
      _ ← set_header header (len header) music_offset;
      mret (Some (len buf))
  end.

(** [write]: [Some n] is the number it returns, [None] is a return
    without a value. *)
Definition write `{Mutagen} (offset : Z) (buf : bytes) : M state (option Z) :=
  '(self, _) ← get;
  (* determine if offset is within header; if not, discard write *)
  bound ← lift (attr (bound self));
  if offset <? bound then
    (* load interpolated file into memory *)
    header ← lift (attr (header self));
    let filedata := header ++ music_data self in
    (* patch in the new data *)
    let filedata2 := slice filedata 0 offset ++ buf
                     ++ slice_from filedata (offset + len buf) in
    let filedata := filedata2 in
    if decide (format self = "flac") then
      try_except_IOError (update_tags filedata buf) (mret None)
    else mret None
  else mret None.

End FileHandler.

(** ** [Stat] and [beetFileSystem] *)

Module errno.
Definition ENOENT : Z := 2.
Definition EACCES : Z := 13.
End errno.

(** [stat.S_IFDIR], octal 040000. *)
Definition S_IFDIR : Z := 16384.

(** The result of [os.stat], as far as [getattr] reads it; the three
    times are the floats of [os.stat]. *)
Module os.
Record stat_result (timestamp : Type) : Type := {
  st_mode : Z;
  st_size : Z;
  st_uid : Z;
  st_gid : Z;
  st_nlink : Z;
  st_atime : timestamp;
  st_mtime : timestamp;
  st_ctime : timestamp;
}.
#[global] Arguments st_mode {timestamp} _.
#[global] Arguments st_size {timestamp} _.
#[global] Arguments st_uid {timestamp} _.
#[global] Arguments st_gid {timestamp} _.
#[global] Arguments st_nlink {timestamp} _.
#[global] Arguments st_atime {timestamp} _.
#[global] Arguments st_mtime {timestamp} _.
#[global] Arguments st_ctime {timestamp} _.
End os.

(** What the file asks of the operating system and of the modules
    [datetime] and [calendar]; it is outside this repository and is
    taken as a parameter.  [datetime] is the class [datetime.datetime];
    [timegm dt] is [calendar.timegm(dt.timetuple())]; [fromtimestamp]
    answers [None] where [datetime.fromtimestamp] raises (a time outside
    the range of the platform, [OverflowError]), and [os_stat] answers
    [None] where [os.stat] raises [OSError]. *)
Class OS : Type := {
  datetime : Type;
  timestamp : Type;
  getuid : Z;
  getgid : Z;
  timegm : datetime → Z;
  fromtimestamp : timestamp → option datetime;
  os_stat : string → option (os.stat_result timestamp);
}.

Module Stat.

Definition DIRSIZE : Z := 4096.

Record t : Set := {
  st_mode : Z;
  st_ino : Z;
  st_dev : Z;
  st_nlink : Z;
  st_uid : Z;
  st_gid : Z;
  st_size : Z;
  st_atime : Z;
  st_mtime : Z;
  st_ctime : Z;
}.

Section os.
Context `{OS}.

Definition datetime_epoch (dt : datetime) : Z := timegm dt.

(** [Stat(st_mode, st_size, st_nlink, st_uid, st_gid, dt_atime, dt_mtime,
    dt_ctime)]; an argument left out is [None] (every call of the file
    gives [st_nlink]).  [now] is what [datetime.datetime.utcnow()] answers
    during the call; it stands for a time that is [None] ([dt or now],
    and a [datetime] is never false).  Assigning to [dt_atime] stores the
    epoch of the value in [st_atime], and so for the two other times. *)
Definition init (now : datetime) (st_mode st_size st_nlink : Z)
    (st_uid st_gid : option Z) (dt_atime dt_mtime dt_ctime : option datetime)
  : t :=
  {| st_mode := st_mode;
     st_ino := 0;
     st_dev := 0;
     st_nlink := st_nlink;
     st_uid := default getuid st_uid;
     st_gid := default getgid st_gid;
     st_size := st_size;
     st_atime := datetime_epoch (default now dt_atime);
     st_mtime := datetime_epoch (default now dt_mtime);
     st_ctime := datetime_epoch (default now dt_ctime) |}.

End os.
End Stat.

Module beetFileSystem.

(** [directory_structure.getnode(pathsplit[0:structure_depth-1])
    .files[pathsplit[structure_depth-1]]]: the identifier the tree has
    for a path of a file.  The slice is a new list. *)
Definition file_id (pathsplit : list string) : M world Z :=
  w ← get;
  elements ← list_new (slice pathsplit 0 (structure_depth w - 1));
  node ← FSNode.getnode [] elements None;
  n ← deref node;
  name ← lift (index pathsplit (structure_depth w - 1));
  lift (getitem (files n) name).

(** [pathsplit[len(pathsplit)-1] in
    directory_structure.getnode(pathsplit[0:len(pathsplit)-1]).dirs] *)
Definition is_directory (pathsplit : list string) : M world bool :=
  name ← lift (index pathsplit (len pathsplit - 1));
  elements ← list_new (slice pathsplit 0 (len pathsplit - 1));
  node ← FSNode.getnode [] elements None;
  n ← deref node;
  mret (bool_decide (is_Some (dirs n !! name))).

Section os.
Context `{OS}.

(** [datetime.datetime.fromtimestamp(t)] *)
Definition datetime_fromtimestamp (t : timestamp) : result datetime :=
  match fromtimestamp t with
  | Some dt => Ok dt
  | None => Raise OverflowError
  end.

(** [getattr]: a [Stat], or a negative [errno].  [self.lib] is the
    global [library], here [lib].  The modes are octal 755 and 544 in
    the source. *)
Definition getattr (now : datetime) (lib : Library) (path : string)
  : M world (Stat.t + Z) :=
  try_except_Exception
    (if decide (path = "/") then
       let mode := Z.lor S_IFDIR 493 in
       let st := Stat.init now mode Stat.DIRSIZE 2 None None None None None in
       mret (inl st)
     else
       (* determine if it's a directory or a file list *)
       let pathsplit := split "/" (str_slice_from path 1) in
       w ← get;
       if decide (len pathsplit = structure_depth w) then
         (* it's a file *)
         id ← file_id pathsplit;
         item ← lift (attr (lib !! id));
         let item := Item.path item in
         if decide (item = "") then
           (* file not found *)
           mret (inr (- errno.ENOENT))
         else
           statinfo ← lift (match os_stat item with
                            | Some statinfo => Ok statinfo
                            | None => Raise IOError
                            end);
           dt_atime ← lift (datetime_fromtimestamp (os.st_atime statinfo));
           dt_mtime ← lift (datetime_fromtimestamp (os.st_mtime statinfo));
           dt_ctime ← lift (datetime_fromtimestamp (os.st_ctime statinfo));
           let st :=
             Stat.init now (os.st_mode statinfo) (os.st_size statinfo)
               (os.st_nlink statinfo)
               (Some (os.st_uid statinfo)) (Some (os.st_gid statinfo))
               (Some dt_atime) (Some dt_mtime) (Some dt_ctime) in
           mret (inl st)
       else
         (* it's a directory *)
         found ← is_directory pathsplit;
         if negb found then
           (* directory not found *)
           mret (inr (- errno.ENOENT))
         else
           let mode := Z.lor S_IFDIR 356 in
           let st :=
             Stat.init now mode Stat.DIRSIZE 2 None None None None None in
           mret (inl st))
    (mret (inr (- errno.ENOENT))).

End os.

(** [access]: [0], or a negative [errno]; nothing is caught.  The tests
    of [flags] in the source have empty bodies. *)
Definition access (lib : Library) (path : string) (flags : Z) : M world Z :=
  let pathsplit := split "/" (str_slice_from path 1) in
  if decide (path = "/") then mret 0
  else
    w ← get;
    let is_dir := negb (bool_decide (len pathsplit = structure_depth w)) in
    (* check for existence *)
    if is_dir then
      found ← is_directory pathsplit;
      if negb found then mret (- errno.EACCES)
      else
        (* if exists, always return allowed for directories *)
        mret 0
    else
      id ← file_id pathsplit;
      item ← lift (attr (lib !! id));
      let item := Item.path item in
      if decide (item = "") then mret (- errno.EACCES)
      else mret 0.

End beetFileSystem.

(** * Vocabulary of the statements *)



(** The rules of the path template resolver, in the words of the
    specification. *)

(** Every backslash, slash and colon, and a dot in the first position,
    is replaced by an underscore. *)
Definition replace_unsafe (s : string) : string :=
  text (imap (λ i c,
                if bool_decide (c ∈ ["\"; "/"; ":"]%char ∨ (i = 0%nat ∧ c = "."%char))
                then "_"%char else c)
             (chars s)).

(** Zeros on the left up to a width. *)
Definition zero_pad (width : nat) (s : string) : string :=
  text (replicate (width - String.length s) "0"%char) +:+ s.

(** The extension of a path, without its dot. *)
Definition extension (path : string) : string :=
  str_slice_from (splitext path).2 1.

(** Whether the extension of the file of an item is text in UTF-8. *)
Definition decodable (item : Item.t) : bool :=
  utf8_valid ((λ c, Z.of_nat (nat_of_ascii c))
              <$> chars (extension (Item.path item))).

(** What each placeholder stands for, for an item whose extension reads
    [format_] as text. *)
Definition rendered_fields `{Unicode} (item : Item.t) (format_ : string)
  : list (string * string) :=
  [ ("artist",
     if decide (Item.artist item = "") then "Unknown Artist"
     else replace_unsafe (Item.artist item));
    ("album",
     if decide (Item.album item = "") then "Unknown Album"
     else replace_unsafe (Item.album item));
    ("title",
     if decide (Item.title item = "") then "Unknown Track"
     else replace_unsafe (Item.title item));
    ("year",
     if decide (Item.year item = 0) then "Unknown Year"
     else str_int (Item.year item));
    ("genre", replace_unsafe (Item.genre item));
    ("composer", replace_unsafe (Item.composer item));
    ("grouping", replace_unsafe (Item.grouping item));
    ("lyrics", replace_unsafe (Item.lyrics item));
    ("comments", replace_unsafe (Item.comments item));
    ("track", zero_pad 2 (str_int (Item.track item)));
    ("tracktotal", zero_pad 2 (str_int (Item.tracktotal item)));
    ("disc", zero_pad 2 (str_int (Item.disc item)));
    ("disctotal", zero_pad 2 (str_int (Item.disctotal item)));
    ("month", str_int (Item.month item));
    ("day", str_int (Item.day item));
    ("bpm", str_int (Item.bpm item));
    ("bitrate", str_int (Item.bitrate item));
    ("length", float_str (Item.length item));
    ("comp", if Item.comp item then "True" else "False");
    ("format", replace_unsafe format_);
    ("format_upper", str_upper (replace_unsafe format_)) ]%string.



(** The three segments [PATH_FORMAT] gives for a mapping, when the
    mapping has the fields. *)
Definition path_segments (fields : gmap string string) : option (list string) :=
  artist ← fields !! "artist"%string;
  album ← fields !! "album"%string;
  year ← fields !! "year"%string;
  format_upper ← fields !! "format_upper"%string;
  track ← fields !! "track"%string;
  title ← fields !! "title"%string;
  format ← fields !! "format"%string;
  Some [ artist;
         album +:+ " (" +:+ year +:+ ") [" +:+ format_upper +:+ "]";
         track +:+ " - " +:+ artist +:+ " - " +:+ title +:+ "." +:+ format ]%string.

(** What [adddir] and [addfile] do to the node they reach. *)
Definition ensure_dir (directory : string) (n : FSNode) : FSNode :=
  match dirs n !! directory with
  | Some _ => n
  | None => mkFSNode (<[directory := mkFSNode ∅ ∅]> (dirs n)) (files n)
  end.

Definition set_file (filename : string) (id : Z) (n : FSNode) : FSNode :=
  mkFSNode (dirs n) (<[filename := id]> (files n)).

(** [n] calls of [release] in a row: the answers, and the handler
    afterwards. *)
Fixpoint releases (n : nat) (self : FileHandler.t)
  : list bool * FileHandler.t :=
  match n with
  | O => ([], self)
  | S n' =>
      match FileHandler.release self with
      | (Ok answer, self') =>
          let '(answers, self'') := releases n' self' in
          (answer :: answers, self'')
      | (Raise _, self') => ([], self')
      end
  end.

(** [level_subbed], as [mount] computes it for an item under
    [PATH_FORMAT], and the segments of the virtual path of the item:
    [level_subbed[0]], [level_subbed[1]], ... in this order. *)
Definition level_subbed `{Unicode} (item : Item.t) : result (gmap Z string) :=
  template_mapping item
  ≫= level_subbed_of (templates_of PATH_FORMAT) (structure_depth_of PATH_FORMAT).

Definition segments `{Unicode} (item : Item.t) : list string :=
  match level_subbed item with
  | Ok subbed =>
      omap (λ level, subbed !! level) (range 0 (structure_depth_of PATH_FORMAT))
  | Raise _ => []
  end.

(** The identifier a tree has for a file name in the directory at a
    path. *)
Definition file_at (t : FSNode) (dir : list string) (name : string)
  : option Z :=
  n ← node_at t dir; files n !! name.

(** The item that is found under a virtual path after the items of a
    list were mounted one after the other: the last one that has the
    segments of the path. *)
Definition mounted `{Unicode} (items : list Item.t) (path : list string)
  : option Item.t :=
  last (filter (λ item, segments item = path) items).

(** The items [mount] gets to: those before the first one whose
    extension is not text, where [template_mapping] raises and the loop
    ends. *)
Fixpoint resolved (items : list Item.t) : list Item.t :=
  match items with
  | [] => []
  | item :: items' => if decodable item then item :: resolved items' else []
  end.

(** A tree with a file put under two levels of directories. *)
Definition tree_insert (l0 l1 l2 : string) (id : Z) (t : FSNode) : FSNode :=
  update_at [l0; l1] (set_file l2 id)
    (update_at [l0] (ensure_dir l1) (ensure_dir l0 t)).

Definition insert_item `{Unicode} (t : FSNode) (item : Item.t) : FSNode :=
  match segments item with
  | [l0; l1; l2] => tree_insert l0 l1 l2 (Item.id item) t
  | _ => t
  end.

(** A string that can name a directory entry: it is not empty, has no
    slash, and does not start with a dot. *)
Definition entry_name (s : string) : Prop :=
  s ≠ ""%string ∧ ("/"%char ∉ chars s) ∧ head (chars s) ≠ Some "."%char.

(** The virtual path made of segments: a slash before each of them. *)
Definition virtual_path (segs : list string) : string :=
  foldr (λ seg rest, String "/" (seg +:+ rest)) EmptyString segs.

(** A world in which lists may have been made, and nothing else has
    changed: the tree, the depth and the lists that were there are the
    same. *)
Definition only_allocates (w w' : world) : Prop :=
  directory_structure w' = directory_structure w
  ∧ structure_depth w' = structure_depth w
  ∧ ∀ l, is_Some (heap w !! l) → heap w' !! l = heap w !! l.

(** The [Stat] that [getattr] makes for a directory, with the
    permission bits [mode], and for a file, from the result of
    [os.stat]. *)
Definition directory_stat `{OS} (now : datetime) (mode : Z) : Stat.t :=
  Stat.init now (Z.lor S_IFDIR mode) Stat.DIRSIZE 2 None None None None None.

Definition file_stat `{OS} (now : datetime)
    (statinfo : os.stat_result timestamp) (dt_atime dt_mtime dt_ctime : datetime)
  : Stat.t :=
  Stat.init now (os.st_mode statinfo) (os.st_size statinfo)
    (os.st_nlink statinfo)
    (Some (os.st_uid statinfo)) (Some (os.st_gid statinfo))
    (Some dt_atime) (Some dt_mtime) (Some dt_ctime).

(** The item that the tree and the library give for the names of a
    path of a file: the walk to the directory, its file map, the
    library. *)
Definition item_at (w : world) (lib : Library) (pathsplit : list string)
  : result Item.t :=
  match node_at (directory_structure w)
          (slice pathsplit 0 (structure_depth w - 1)) with
  | Some n =>
      name ← index pathsplit (structure_depth w - 1);
      id ← getitem (files n) name;
      attr (lib !! id)
  | None => Raise KeyError
  end.

(** * Examples

    Concrete values on which the properties below are evaluated. *)

Definition example_item : Item.t :=
  {| Item.id := 7; Item.path := "/music/x.mp3";
     Item.length := {| float_int := 215; float_str := "215.3" |};
     Item.bitrate := 320; Item.title := "T"; Item.artist := "A";
     Item.album := "B"; Item.genre := ""; Item.composer := "";
     Item.grouping := ""; Item.year := 2001; Item.month := 1; Item.day := 2;
     Item.track := 1; Item.tracktotal := 12; Item.disc := 1;
     Item.disctotal := 1; Item.lyrics := ""; Item.comments := "";
     Item.bpm := 0; Item.comp := false |}.

(** The same item with another identifier and another file. *)
Definition example_item_at (id : Z) (path : string) : Item.t :=
  {| Item.id := id; Item.path := path;
     Item.length := Item.length example_item;
     Item.bitrate := 320; Item.title := "T"; Item.artist := "A";
     Item.album := "B"; Item.genre := ""; Item.composer := "";
     Item.grouping := ""; Item.year := 2001; Item.month := 1; Item.day := 2;
     Item.track := 1; Item.tracktotal := 12; Item.disc := 1;
     Item.disctotal := 1; Item.lyrics := ""; Item.comments := "";
     Item.bpm := 0; Item.comp := false |}.

(** An item whose genre is empty and whose other fields need the
    treatment of [template_mapping]. *)
Definition example_dud_item : Item.t :=
  {| Item.id := 9; Item.path := "/music/.hidden/y.FLAC";
     Item.length := {| float_int := 3; float_str := "3.5" |};
     Item.bitrate := 900; Item.title := "a/b:c"; Item.artist := "";
     Item.album := ".B"; Item.genre := ""; Item.composer := "";
     Item.grouping := ""; Item.year := 0; Item.month := 0; Item.day := 0;
     Item.track := 3; Item.tracktotal := 12; Item.disc := 10;
     Item.disctotal := 100; Item.lyrics := ""; Item.comments := "";
     Item.bpm := 0; Item.comp := true |}.

(** An item whose file has the one byte 255 for an extension, which is
    no text in UTF-8. *)
Definition example_undecodable_item : Item.t :=
  example_item_at 11 ("/music/x." +:+ String "255" "").

(** A header of seventeen bytes: the magic, a first block of two bytes
    and a last block, padding of three bytes. *)
Definition example_header : bytes :=
  fLaC ++ [x00; x00; x00; x02; x41; x42] ++ [x81; x00; x00; x03; x00; x00; x00].

(** A handler in the state the ["flac"] branch of [__init__] is written
    to leave: a header, its length as [bound], and the payload. *)
Definition example_flac_handler : FileHandler.t :=
  {| FileHandler.path := "/A/B (2001) [FLAC]/01 - A - T.flac";
     FileHandler.item := example_item_at 8 "/music/x.flac";
     FileHandler.real_path := "/music/x.flac";
     FileHandler.instance_count := 1;
     FileHandler.format := "flac";
     FileHandler.inf := None;
     FileHandler.header := Some example_header;
     FileHandler.bound := Some 17;
     FileHandler.music_offset := Some 17;
     FileHandler.music_data := [xff; xf8; x01; x02] |}.

(** The smallest FLAC stream: the magic, one last block of type 0
    (stream info, 34 bytes) and the start of an audio frame. *)
Definition minimal_flac : bytes :=
  fLaC ++ [x80; x00; x00; x22] ++ replicate 34 x00 ++ [xff; xf8].

Definition example_library : Library :=
  {[ 7 := example_item;
     8 := example_item_at 8 "/music/x.flac";
     10 := example_item_at 10 "/music/x.ogg" ]}.

Definition example_disk : Disk :=
  {[ "/music/x.mp3"%string := [x49; x44; x33; x01; x02];
     "/music/x.flac"%string := minimal_flac;
     "/music/x.ogg"%string := [x4f; x67; x67; x53] ]}.

(** An empty world: nothing mounted, no list allocated. *)
Definition empty_world : world :=
  {| directory_structure := mkFSNode ∅ ∅; structure_depth := 0; heap := ∅ |}.

(** A stand-in for the case mappings beyond ASCII: such characters are
    left as they are.  The examples have none. *)
Definition example_unicode : Unicode := {| unicode_upper s := s |}.

(** The world after [mount] on the example library. *)
Definition example_world : world :=
  (mount (H := example_unicode)
     [example_item; example_item_at 8 "/music/x.flac";
      example_item_at 10 "/music/x.ogg"] empty_world).2.

(** A stand-in for mutagen's tag interface: no tag is found, and setting
    a tag leaves the object as it is. *)
Definition example_mutagen : Mutagen :=
  {| flac_getitem _ _ := Raise KeyError; flac_setitem inf _ _ := Ok inf |}.

(** An object with the given blocks, for [get_header]. *)
Definition example_flac (blocks : list MetadataBlock) : InterpolatedFLAC.t :=
  {| InterpolatedFLAC.metadata_blocks := blocks;
     InterpolatedFLAC.tags := None;
     InterpolatedFLAC.cuesheet := None;
     InterpolatedFLAC.seektable := None;
     InterpolatedFLAC.filedata := Bytes minimal_flac;
     InterpolatedFLAC.fileobj := {| buf := minimal_flac; pos := 0 |};
     InterpolatedFLAC.offset_ := None |}.

(** A stream-info block. *)
Definition example_streaminfo : MetadataBlock := Block 0 (replicate 34 x00).

(** An operating system for the examples: one user, a clock that
    stands still, and one file. *)
Definition example_os : OS :=
  {| datetime := Z; timestamp := Z;
     getuid := 1000; getgid := 1000;
     timegm dt := dt; fromtimestamp ts := Some ts;
     os_stat path :=
       if decide (path = "/music/x.mp3"%string)
       then Some {| os.st_mode := 33188; os.st_size := 5; os.st_uid := 1000;
                    os.st_gid := 1000; os.st_nlink := 1; os.st_atime := 10;
                    os.st_mtime := 20; os.st_ctime := 30 |}
       else None |}.

(** * Properties *)

(** ** Slices *)

Section slices.
Context {A : Type}.
Implicit Types (s t : list A) (a b : Z).

Lemma len_nonneg s : 0 ≤ len s.
Proof. unfold len. lia. Qed.

Lemma len_app s t : len (s ++ t) = len s + len t.
Proof. unfold len. rewrite length_app. lia. Qed.

(** With bounds that are not negative, a slice is a [take] of a [drop]. *)
Lemma slice_nonneg s a b :
  0 ≤ a → 0 ≤ b →
  slice s a b = take (Z.to_nat b - Z.to_nat a) (drop (Z.to_nat a) s).
Proof.
  intros Ha Hb. unfold slice, slice_index, len.
  destruct (Z.ltb_spec a 0), (Z.ltb_spec b 0); try lia.
  destruct (Z_lt_le_dec a (Z.of_nat (length s))) as [Hlt|Hge].
  - rewrite (Z.min_l a) by lia.
    destruct (Z_lt_le_dec b (Z.of_nat (length s))).
    + rewrite (Z.min_l b) by lia. f_equal. lia.
    + rewrite (Z.min_r b) by lia.
      rewrite !take_ge; [done | rewrite length_drop; lia ..].
  - rewrite !(drop_ge s) by lia. by rewrite !take_nil.
Qed.

Lemma slice_empty s a b : 0 ≤ a → b ≤ a → 0 ≤ b → slice s a b = [].
Proof.
  intros. rewrite slice_nonneg by lia.
  replace (Z.to_nat b - Z.to_nat a)%nat with 0%nat by lia. done.
Qed.

(** Up to the end of the first list, a slice of [s ++ t] is one of [s]. *)
Lemma slice_app_l s t a b :
  0 ≤ a → 0 ≤ b → b ≤ len s → slice (s ++ t) a b = slice s a b.
Proof.
  intros Ha Hb Hle. unfold len in Hle. rewrite !slice_nonneg by lia.
  rewrite drop_app, take_app, length_drop.
  replace (Z.to_nat b - Z.to_nat a - (length s - Z.to_nat a))%nat
    with 0%nat by lia.
  by rewrite take_0, app_nil_r.
Qed.

(** From the end of the first list on, it is a slice of [t]. *)
Lemma slice_app_r s t a b :
  len s ≤ a → a ≤ b →
  slice (s ++ t) a b = slice t (a - len s) (b - len s).
Proof.
  intros Ha Hb. unfold len in *.
  rewrite !slice_nonneg by lia.
  rewrite drop_app, (drop_ge s) by lia. simpl.
  f_equal; [lia|]. f_equal. lia.
Qed.

(** Across the end of the first list, it is the rest of [s] and then
    the start of [t]: the two parts meet at [len s]. *)
Lemma slice_app_across s t a b :
  0 ≤ a → a ≤ len s → len s ≤ b →
  slice (s ++ t) a b = slice s a (len s) ++ slice t 0 (b - len s).
Proof.
  intros Ha Hle Hb. unfold len in *. rewrite !slice_nonneg by lia.
  rewrite drop_app, take_app, length_drop, Nat2Z.id. simpl.
  rewrite drop_0. f_equal.
  - rewrite !take_ge; [done | rewrite length_drop; lia ..].
  - replace (Z.to_nat a - length s)%nat with 0%nat by lia.
    rewrite drop_0. f_equal. lia.
Qed.
End slices.

(** ** [FileHandler.read] *)

(** C1.  A handler whose [bound] is the length of its header serves the
    virtual stream [header ++ payload]: a read that ends at or before the
    boundary is a slice of the header, a read that starts at or after it
    is a slice of the payload, and a read across it is the rest of the
    header followed by the start of the payload.  In every case the bytes
    are the window [offset, offset + size) of [header ++ payload], so no
    byte is repeated or lost where the two meet. *)
Theorem read_splices_header_and_payload
    (self : FileHandler.t) (h : bytes) (size offset : Z) :
  FileHandler.header self = Some h →
  FileHandler.bound self = Some (len h) →
  0 ≤ size → 0 ≤ offset →
  let boundary := len h in
  let payload := FileHandler.music_data self in
  (offset + size ≤ boundary →
     FileHandler.read self size offset = Ok (slice h offset (offset + size)))
  ∧ (offset < boundary < offset + size →
     FileHandler.read self size offset
     = Ok (slice h offset boundary
           ++ slice payload 0 (size - (boundary - offset))))
  ∧ (boundary ≤ offset →
     FileHandler.read self size offset
     = Ok (slice payload (offset - boundary) (offset - boundary + size)))
  ∧ FileHandler.read self size offset
    = Ok (slice (h ++ payload) offset (offset + size)).
Proof.
  intros Hh Hb Hsize Hoff boundary payload.
  unfold FileHandler.read. rewrite Hb, Hh. simpl.
  fold boundary. fold payload.
  pose proof (len_nonneg h) as Hlen. fold boundary in Hlen.
  destruct (Z.ltb_spec offset boundary) as [Hin|Hout].
  - destruct (Z.ltb_spec (offset + size) boundary) as [Hshort|Hlong].
    + repeat split; intros; try lia; try done.
      by rewrite slice_app_l by (fold boundary; lia).
    + repeat split; intros; try lia; try done.
      * assert (offset + size = boundary) as -> by lia.
        replace (size - (boundary - offset)) with 0 by lia.
        by rewrite (slice_empty payload 0 0), app_nil_r by lia.
      * rewrite slice_app_across by (fold boundary; lia).
        fold boundary. do 3 f_equal. lia.
  - repeat split; intros; try lia; try done.
    + assert (size = 0) as -> by lia. assert (offset = boundary) as -> by lia.
      rewrite !Z.sub_diag, !Z.add_0_r.
      rewrite (slice_empty payload 0 0) by lia.
      by rewrite (slice_empty h boundary boundary) by lia.
    + rewrite slice_app_r by (fold boundary; lia).
      fold boundary. do 2 f_equal. lia.
Qed.

(** Every call of [read] by a handler that [__init__] made is covered by
    the theorem above as soon as its header is set; a concrete handler
    with a five-byte header and a four-byte payload shows a read across
    the boundary. *)
Lemma read_splices_header_and_payload_witness :
  let self := example_flac_handler in
  FileHandler.header self = Some example_header
  ∧ FileHandler.bound self = Some (len example_header)
  ∧ FileHandler.read self 4 15
    = Ok (slice (example_header ++ FileHandler.music_data self) 15 19)
  ∧ FileHandler.read self 4 15 = Ok [x00; x00; xff; xf8].
Proof.
  intros self.
  assert (0 ≤ 4) as H4 by lia. assert (0 ≤ 15) as H15 by lia.
  pose proof (read_splices_header_and_payload self example_header 4 15
                eq_refl eq_refl H4 H15) as (_ & _ & _ & Hread).
  split; [reflexivity|]. split; [reflexivity|].
  split; [exact Hread | reflexivity].
Defined.

(** ** Running monadic code *)

(** The operations of the monads are unfolded and the state is pushed
    through the binds. *)
Ltac run :=
  unfold mbind, mret, fmap, M_bind, M_ret, result_bind, result_ret,
    result_fmap, get, put, modify, lift, raise in *;
  cbn beta iota zeta in *.

(** What a bind that returned went through. *)
Lemma M_bind_inv {S A B} (m : M S A) (f : A → M S B) (s s' : S) (r : B) :
  (m ≫= f) s = (Ok r, s') → ∃ a s1, m s = (Ok a, s1) ∧ f a s1 = (Ok r, s').
Proof.
  unfold mbind, M_bind. destruct (m s) as [[a|e] s1]; [eauto | done].
Qed.

(** ** [FileHandler.write] *)

Section write.
Context `{Mutagen}.
Implicit Types (self : FileHandler.t) (lib : Library) (buf : bytes).

(** A write at or after the boundary returns without a value and
    changes neither the handler nor the library. *)
Lemma write_outside_header self lib offset buf b :
  FileHandler.bound self = Some b → b ≤ offset →
  FileHandler.write offset buf (self, lib) = (Ok None, (self, lib)).
Proof.
  intros Hb Hle. unfold FileHandler.write. run.
  rewrite Hb. cbn. destruct (Z.ltb_spec offset b); [lia | done].
Qed.


Lemma update_tags_decode_error filedata buf st e :
  InterpolatedFLAC.new (Bytes filedata) = Raise e →
  FileHandler.update_tags filedata buf st = (Raise e, st).
Proof. intros He. unfold FileHandler.update_tags. run. by rewrite He. Qed.
End write.

(** ** [InterpolatedFLAC.load] *)

(** [to_int_be] on a [bytes] object: 0 when it is empty, and the
    [TypeError] of [ord] at its first element otherwise. *)
Lemma to_int_be_raised (e : exn) (s : bytes) :
  foldl (λ a b, a ← a; o ← ord_int (byte_val b); Ok (Z.shiftl a 8 + o))
        (Raise e) s
  = Raise e.
Proof. induction s as [|b s IH]; [done | exact IH]. Qed.

Lemma to_int_be_bytes (s : bytes) :
  to_int_be s = match s with [] => Ok 0 | _ :: _ => Raise TypeError end.
Proof.
  destruct s as [|b s]; [done|]. unfold to_int_be. cbn [foldl].
  apply to_int_be_raised.
Qed.

(** [__check_header] refuses every stream: the bytes it read are no
    [str], so [size] is [None], and the message of the error asks the
    [BytesIO] for its name. *)
Lemma check_header_raises (self : InterpolatedFLAC.t) :
  ∃ self', InterpolatedFLAC.check_header self = (Raise AttributeError, self').
Proof. unfold InterpolatedFLAC.check_header. run. eauto. Qed.

Lemma load_raises (filedata : pydata) (self : InterpolatedFLAC.t) :
  ∃ self',
    InterpolatedFLAC.load filedata self
    = (Raise (match filedata with
              | Bytes _ => AttributeError
              | Str _ => TypeError
              end), self').
Proof.
  unfold InterpolatedFLAC.load. run. destruct filedata as [text|data]; cbn.
  - eauto.
  - destruct (check_header_raises
                (InterpolatedFLAC.set_fileobj {| buf := data; pos := 0 |}
                   {| InterpolatedFLAC.metadata_blocks := [];
                      InterpolatedFLAC.tags := None;
                      InterpolatedFLAC.cuesheet := None;
                      InterpolatedFLAC.seektable := None;
                      InterpolatedFLAC.filedata := Bytes data;
                      InterpolatedFLAC.fileobj := InterpolatedFLAC.fileobj self;
                      InterpolatedFLAC.offset_ := InterpolatedFLAC.offset_ self |}))
      as [self' Hcheck].
    rewrite Hcheck. eauto.
Qed.

(** The constructor raises on every argument: [AttributeError] on a
    [bytes] object, from [__check_header], and [TypeError] on a [str],
    from [BytesIO]. *)
Lemma new_raises (filedata : pydata) :
  InterpolatedFLAC.new filedata
  = Raise (match filedata with
           | Bytes _ => AttributeError
           | Str _ => TypeError
           end).
Proof.
  unfold InterpolatedFLAC.new.
  destruct (load_raises filedata
              {| InterpolatedFLAC.metadata_blocks := [];
                 InterpolatedFLAC.tags := None;
                 InterpolatedFLAC.cuesheet := None;
                 InterpolatedFLAC.seektable := None;
                 InterpolatedFLAC.filedata := Bytes [];
                 InterpolatedFLAC.fileobj := {| buf := []; pos := 0 |};
                 InterpolatedFLAC.offset_ := None |}) as (self' & ->).
  done.
Qed.

(** A read of one byte, and of up to [n] bytes, where bytes are left. *)
Lemma read_one (pre rest : bytes) (b : byte) (self : InterpolatedFLAC.t) :
  InterpolatedFLAC.read 1
    (InterpolatedFLAC.set_fileobj
       {| buf := pre ++ b :: rest; pos := len pre |} self)
  = (Ok [b],
     InterpolatedFLAC.set_fileobj
       {| buf := pre ++ b :: rest; pos := len pre + 1 |} self).
Proof.
  unfold InterpolatedFLAC.read. cbn.
  pose proof (len_nonneg pre). rewrite Z.max_r by lia.
  rewrite slice_app_r by lia.
  replace (len pre - len pre) with 0 by lia.
  replace (len pre + 1 - len pre) with 1 by lia.
  rewrite slice_nonneg by lia. reflexivity.
Qed.

Lemma read_some (pre rest : bytes) (b : byte) (n : Z)
    (self : InterpolatedFLAC.t) :
  buf (InterpolatedFLAC.fileobj self) = pre ++ b :: rest →
  pos (InterpolatedFLAC.fileobj self) = len pre →
  0 < n →
  ∃ data p,
    InterpolatedFLAC.read n self
    = (Ok (b :: data),
       InterpolatedFLAC.set_fileobj
         {| buf := buf (InterpolatedFLAC.fileobj self); pos := p |} self).
Proof.
  intros Hbuf Hpos Hn. unfold InterpolatedFLAC.read. rewrite Hbuf, Hpos.
  pose proof (len_nonneg pre). rewrite Z.max_r by lia.
  destruct (Z.ltb_spec n 0); [lia|]. cbn zeta.
  rewrite slice_app_r by lia.
  replace (len pre - len pre) with 0 by lia.
  rewrite slice_nonneg by lia. rewrite drop_0.
  replace (Z.to_nat (len pre + n - len pre) - Z.to_nat 0)%nat
    with (S (Z.to_nat (n - 1))) by lia.
  cbn [take]. eauto.
Qed.

(** With two bytes or more left in the stream, [__read_metadata_block]
    ends at [to_int_be] and registers no block. *)
Lemma read_metadata_block_raises (pre rest : bytes) (b0 b1 : byte)
    (self : InterpolatedFLAC.t) :
  ∃ self',
    InterpolatedFLAC.read_metadata_block
      (InterpolatedFLAC.set_fileobj
         {| buf := pre ++ b0 :: b1 :: rest; pos := len pre |} self)
    = (Raise TypeError, self')
    ∧ InterpolatedFLAC.metadata_blocks self'
      = InterpolatedFLAC.metadata_blocks self.
Proof.
  unfold InterpolatedFLAC.read_metadata_block. run.
  rewrite read_one. cbn [ord].
  destruct (read_some (pre ++ [b0]) rest b1 3
              (InterpolatedFLAC.set_fileobj
                 {| buf := pre ++ b0 :: b1 :: rest; pos := len pre + 1 |} self))
    as (data & p & ->); [by rewrite <- app_assoc | by rewrite len_app | lia |].
  rewrite to_int_be_bytes. eauto.
Qed.

(** C6.  On the smallest well-formed stream (magic, one last stream-info
    block, an audio frame) [load] does not classify the block, and
    neither does it on any other stream: [__check_header] compares the
    bytes it read with the [str] ["fLaC"], finds them different, and
    [AttributeError] leaves the constructor before a block is read.  A
    [str] is refused by [BytesIO] with [TypeError].  Past the header, the
    block reader would not classify a block either: with two bytes or
    more in the stream it raises [TypeError] at [to_int_be] and no block
    is registered. *)
Theorem load_fails_on_every_stream :
  InterpolatedFLAC.new (Bytes minimal_flac) = Raise AttributeError
  ∧ (∀ data : bytes, InterpolatedFLAC.new (Bytes data) = Raise AttributeError)
  ∧ (∀ text : bytes, InterpolatedFLAC.new (Str text) = Raise TypeError)
  ∧ (∀ (pre rest : bytes) (b0 b1 : byte) (self : InterpolatedFLAC.t),
       ∃ self',
         InterpolatedFLAC.read_metadata_block
           (InterpolatedFLAC.set_fileobj
              {| buf := pre ++ b0 :: b1 :: rest; pos := len pre |} self)
         = (Raise TypeError, self')
         ∧ InterpolatedFLAC.metadata_blocks self'
           = InterpolatedFLAC.metadata_blocks self).
Proof.
  split; [apply (new_raises (Bytes minimal_flac))|].
  split; [intros data; apply (new_raises (Bytes data))|].
  split; [intros text; apply (new_raises (Str text))|].
  apply read_metadata_block_raises.
Qed.

(** ** [FileHandler.__init__] *)

Section init.
Context `{Mutagen}.

(** The ["flac"] branch never completes, the ["mp3"] branch sets the
    two offsets to 0 and nothing else, and no other branch exists. *)
Lemma bounds_of_inv format item data inf header bound music_offset :
  FileHandler.bounds_of format item data = Ok (inf, header, bound, music_offset) →
  (format = "mp3"%string ∧ inf = None ∧ header = None
     ∧ bound = Some 0 ∧ music_offset = Some 0)
  ∨ (format ≠ "flac"%string ∧ format ≠ "mp3"%string ∧ inf = None
     ∧ header = None ∧ bound = None ∧ music_offset = None).
Proof.
  unfold FileHandler.bounds_of.
  destruct (decide (format = "flac"%string)) as [->|Hflac].
  - destruct (read_text data) as [text|e]; [|done].
    cbn. by rewrite (new_raises (Str text)).
  - destruct (decide (format = "mp3"%string)) as [->|Hmp3]; intros [= <- <- <- <-].
    + left. done.
    + right. done.
Qed.

(** What a handler that [__init__] returned looks like. *)
Lemma init_inv path lib disk w self w' :
  FileHandler.init path lib disk w = (Ok self, w') →
  ∃ item data,
    FileHandler.bounds_of (FileHandler.format_of path) item data
    = Ok (FileHandler.inf self, FileHandler.header self,
          FileHandler.bound self, FileHandler.music_offset self)
    ∧ FileHandler.format self = FileHandler.format_of path
    ∧ is_Some (FileHandler.music_offset self).
Proof.
  unfold FileHandler.init. run. intros Hinit.
  repeat case_match; simplify_eq.
  eexists _, _. cbn. split; [eassumption|]. split; [done|].
  match goal with Ha : attr ?o = Ok _ |- is_Some ?o => by destruct o end.
Qed.

Lemma init_ok_is_mp3 path lib disk w self w' :
  FileHandler.init path lib disk w = (Ok self, w') →
  FileHandler.format_of path = "mp3"%string
  ∧ FileHandler.format self = "mp3"%string
  ∧ FileHandler.header self = None
  ∧ FileHandler.bound self = Some 0.
Proof.
  intros (item & data & Hb & Hf & Hoff)%init_inv.
  apply bounds_of_inv in Hb as [(Hmp3 & _ & Hh & Hbound & _)|(_ & _ & _ & _ & _ & Hnone)].
  - rewrite Hf. done.
  - rewrite Hnone in Hoff. by destruct Hoff.
Qed.

(** A handler for an mp3 file has no [header]; [read] looks for it on
    every path and raises. *)
Lemma read_without_header self size offset :
  FileHandler.header self = None → is_Some (FileHandler.bound self) →
  FileHandler.read self size offset = Raise AttributeError.
Proof.
  intros Hh [b Hb]. unfold FileHandler.read. rewrite Hb, Hh. cbn.
  by destruct (offset <? b).
Qed.

(** C10.  [__init__] returns a handler only for a path whose extension
    is ["flac"] or ["mp3"].  For any other extension no branch assigns
    [bound] or [music_offset] (nor [inf], nor [header]), and the
    constructor raises: there is no handler object for such a path. *)
Theorem init_completes_only_for_flac_or_mp3 path lib disk w :
  (∀ self w', FileHandler.init path lib disk w = (Ok self, w') →
     FileHandler.format_of path = "flac"%string
     ∨ FileHandler.format_of path = "mp3"%string)
  ∧ (FileHandler.format_of path ≠ "flac"%string →
     FileHandler.format_of path ≠ "mp3"%string →
     (∀ item data,
        FileHandler.bounds_of (FileHandler.format_of path) item data
        = Ok (None, None, None, None))
     ∧ ∃ e w', FileHandler.init path lib disk w = (Raise e, w')).
Proof.
  split.
  - intros self w' [Hmp3 _]%init_ok_is_mp3. by right.
  - intros Hflac Hmp3. split.
    + intros item data. unfold FileHandler.bounds_of.
      by repeat destruct (decide _).
    + destruct (FileHandler.init path lib disk w) as [[self|e] w'] eqn:Hinit.
      * apply init_ok_is_mp3 in Hinit as [? _]. done.
      * eauto.
Qed.
End init.

(** The constructor returns for the mp3 file of the example library and
    raises [AttributeError], at the read of [music_offset], for its ogg
    file. *)
Lemma init_completes_only_for_flac_or_mp3_witness :
  let init := FileHandler.init (H := example_mutagen) in
  (∃ self w', init "/A/B (2001) [MP3]/01 - A - T.mp3" example_library
                example_disk example_world = (Ok self, w')
              ∧ (FileHandler.format_of "/A/B (2001) [MP3]/01 - A - T.mp3" = "flac"%string
                 ∨ FileHandler.format_of "/A/B (2001) [MP3]/01 - A - T.mp3" = "mp3"%string))
  ∧ FileHandler.format_of "/A/B (2001) [OGG]/01 - A - T.ogg" ≠ "flac"%string
  ∧ FileHandler.format_of "/A/B (2001) [OGG]/01 - A - T.ogg" ≠ "mp3"%string
  ∧ (init "/A/B (2001) [OGG]/01 - A - T.ogg" example_library example_disk
       example_world).1 = Raise AttributeError
  ∧ ∃ e w', init "/A/B (2001) [OGG]/01 - A - T.ogg" example_library
              example_disk example_world = (Raise e, w').
Proof.
  intros init.
  pose proof (init_completes_only_for_flac_or_mp3 (H := example_mutagen)
                "/A/B (2001) [MP3]/01 - A - T.mp3" example_library
                example_disk example_world) as [Hmp3 _].
  pose proof (init_completes_only_for_flac_or_mp3 (H := example_mutagen)
                "/A/B (2001) [OGG]/01 - A - T.ogg" example_library
                example_disk example_world) as [_ Hogg].
  assert (FileHandler.format_of "/A/B (2001) [OGG]/01 - A - T.ogg" ≠ "flac"%string)
    as Hf by (vm_compute; discriminate).
  assert (FileHandler.format_of "/A/B (2001) [OGG]/01 - A - T.ogg" ≠ "mp3"%string)
    as Hm by (vm_compute; discriminate).
  split.
  - destruct (init "/A/B (2001) [MP3]/01 - A - T.mp3" example_library
                example_disk example_world) as [r w'] eqn:Hinit.
    assert (∃ self, r = Ok self) as [self ->].
    { replace r with (init "/A/B (2001) [MP3]/01 - A - T.mp3" example_library
                        example_disk example_world).1 by (by rewrite Hinit).
      vm_compute. eauto. }
    exists self, w'. split; [done|]. exact (Hmp3 self w' Hinit).
  - split; [exact Hf|]. split; [exact Hm|].
    split; [vm_compute; reflexivity|]. exact (proj2 (Hogg Hf Hm)).
Defined.

(** C8.  For the mp3 file of the example library [__init__] returns a
    handler whose [bound] is 0 and whose payload is the whole file, but
    [read(1, 0)] on it raises [AttributeError] instead of returning the
    first byte of the file: the mp3 branch never assigns [header], which
    [read] needs on every path. *)
Theorem mp3_read_raises_AttributeError :
  ∃ self w',
    FileHandler.init (H := example_mutagen) "/A/B (2001) [MP3]/01 - A - T.mp3"
      example_library example_disk example_world = (Ok self, w')
    ∧ FileHandler.bound self = Some 0
    ∧ example_disk !! FileHandler.real_path self = Some (FileHandler.music_data self)
    ∧ FileHandler.header self = None
    ∧ FileHandler.read self 1 0 = Raise AttributeError.
Proof.
  destruct (FileHandler.init (H := example_mutagen) _ _ _ _) as [r w'] eqn:Hinit.
  assert (r = (FileHandler.init (H := example_mutagen)
                 "/A/B (2001) [MP3]/01 - A - T.mp3"
                 example_library example_disk example_world).1) as Hr
    by (by rewrite Hinit).
  vm_compute in Hr. subst r.
  eexists _, w'. split; [reflexivity|].
  repeat split; vm_compute; reflexivity.
Qed.

(** Every handler for an mp3 file behaves so, on every read. *)
Lemma mp3_read_always_raises `{Mutagen} path lib disk w self w' size offset :
  FileHandler.init path lib disk w = (Ok self, w') →
  FileHandler.read self size offset = Raise AttributeError.
Proof.
  intros (_ & _ & Hh & Hb)%init_ok_is_mp3.
  apply read_without_header; [done | by rewrite Hb].
Qed.

(** ** Writes into the header and past it *)

Section write_claims.
Context `{Mutagen}.
Implicit Types (self : FileHandler.t) (lib : Library) (buf : bytes).


(** C5, as the code has it.  A write at or past the boundary is
    discarded: [write] returns without a value, raises nothing, and
    leaves the handler and the library as they were. *)
Theorem write_beyond_boundary_is_discarded self lib offset buf b :
  FileHandler.bound self = Some b → b ≤ offset →
  FileHandler.write offset buf (self, lib) = (Ok None, (self, lib))
  ∧ ¬ ∃ e st', FileHandler.write offset buf (self, lib) = (Raise e, st').
Proof.
  intros Hb Hle. rewrite (write_outside_header self lib offset buf b) by done.
  split; [done|]. by intros (e & st' & [=]).
Qed.
End write_claims.


(** A write at the boundary of the example handler, and one far into the
    payload of an mp3 handler. *)
Lemma write_beyond_boundary_is_discarded_witness :
  let self := example_flac_handler in
  FileHandler.bound self = Some 17
  ∧ 17 ≤ 17
  ∧ FileHandler.write (H := example_mutagen) 17 [x00] (self, example_library)
    = (Ok None, (self, example_library)).
Proof.
  intros self.
  assert (17 ≤ 17) as Hle by lia.
  split; [reflexivity|]. split; [exact Hle|].
  exact (proj1 (write_beyond_boundary_is_discarded (H := example_mutagen) self
                  example_library 17 [x00] 17 eq_refl Hle)).
Defined.

(** C5, as stated, asks for an error.  At the boundary of the example
    handler [write] raises nothing and returns without a value. *)
Lemma write_beyond_boundary_not_rejected :
  FileHandler.bound example_flac_handler = Some 17
  ∧ (FileHandler.write (H := example_mutagen) 17 [x00]
       (example_flac_handler, example_library)).1 = Ok None
  ∧ ¬ ∃ e, (FileHandler.write (H := example_mutagen) 17 [x00]
              (example_flac_handler, example_library)).1 = Raise e.
Proof.
  split; [reflexivity|].
  assert ((FileHandler.write (H := example_mutagen) 17 [x00]
             (example_flac_handler, example_library)).1 = Ok None) as Hw
    by (vm_compute; reflexivity).
  split; [exact Hw|]. rewrite Hw. by intros [e [=]].
Qed.

(** ** [InterpolatedFLAC.get_header] *)


(** An object with a stream-info block, on the smallest stream. *)
Example get_header_example :
  InterpolatedFLAC.get_header (example_flac [example_streaminfo])
  = (Raise TypeError, example_flac [example_streaminfo]).
Proof. reflexivity. Qed.

(** ** [template_mapping] *)

Lemma text_chars (s : string) : text (chars s) = s.
Proof. apply String.string_of_list_ascii_of_string. Qed.

Lemma chars_text (l : list ascii) : chars (text l) = l.
Proof. apply String.list_ascii_of_string_of_list_ascii. Qed.

(** After position 0 the scan replaces the three unsafe characters. *)
Lemma re_sub_scan_rest (f : nat → ascii → ascii) (s : string) :
  (∀ i c, f i c = if unsafe_char c then "_"%char else c) →
  re_sub_scan false s = text (imap f (chars s)).
Proof.
  intros Hf. revert f Hf. induction s as [|c s IH]; intros f Hf; [done|].
  cbn. rewrite Hf. cbn [andb orb]. rewrite orb_false_r. f_equal.
  apply IH. intros i c'. apply Hf.
Qed.

Lemma unsafe_char_elem (c : ascii) :
  unsafe_char c = bool_decide (c ∈ ["\"; "/"; ":"]%char).
Proof.
  unfold unsafe_char.
  destruct (bool_decide_reflect (c = "\"%char)) as [->|H1]; [done|].
  destruct (bool_decide_reflect (c = "/"%char)) as [->|H2]; [done|].
  destruct (bool_decide_reflect (c = ":"%char)) as [->|H3]; [done|].
  symmetry. apply bool_decide_eq_false. rewrite !elem_of_cons, elem_of_nil.
  tauto.
Qed.

(** [re.sub(r'[\\/:]|^\.', '_', value)] does what the specification says
    of text fields. *)
Lemma re_sub_replace_unsafe (s : string) : re_sub s = replace_unsafe s.
Proof.
  unfold re_sub, replace_unsafe. destruct s as [|c s]; [done|].
  cbn. f_equal.
  - rewrite unsafe_char_elem.
    destruct (bool_decide_reflect (c ∈ ["\"; "/"; ":"]%char)) as [Hin|Hnin].
    + by rewrite (bool_decide_eq_true_2 (_ ∨ _)) by (by left).
    + cbn. destruct (bool_decide_reflect (c = "."%char)) as [->|Hdot].
      * by rewrite (bool_decide_eq_true_2 (_ ∨ _)) by (by right).
      * by rewrite (bool_decide_eq_false_2 (_ ∨ _)) by (intros [?|[_ ?]]; done).
  - apply re_sub_scan_rest. intros i c'. unfold compose.
    rewrite unsafe_char_elem.
    destruct (bool_decide_reflect (c' ∈ ["\"; "/"; ":"]%char)) as [Hin|Hnin].
    + by rewrite (bool_decide_eq_true_2 (_ ∨ _)) by (by left).
    + by rewrite (bool_decide_eq_false_2 (_ ∨ _)) by (intros [?|[? _]]; done).
Qed.

Lemma re_sub_empty (s : string) : re_sub s = ""%string ↔ s = ""%string.
Proof. unfold re_sub. by destruct s. Qed.

Lemma digits_fuel_S (fuel : nat) (n : Z) :
  digits_fuel (S fuel) n
  = if n <? 10 then [digit_char n]
    else digits_fuel fuel (n / 10) ++ [digit_char (n mod 10)].
Proof. reflexivity. Qed.

(** The digits of a number below ten, and of a larger one. *)
Lemma digits_fuel_length (fuel : nat) (n : Z) :
  (1 ≤ length (digits_fuel (S fuel) n))%nat.
Proof.
  rewrite digits_fuel_S. destruct (n <? 10); [cbn; lia|].
  rewrite length_app. cbn [length]. lia.
Qed.

Lemma str_int_digit (n : Z) :
  0 ≤ n < 10 → str_int n = String (digit_char n) EmptyString.
Proof.
  intros Hn. unfold str_int. destruct (Z.ltb_spec n 0); [lia|].
  rewrite digits_fuel_S. by destruct (Z.ltb_spec n 10); [|lia].
Qed.

Lemma length_text (l : list ascii) : String.length (text l) = length l.
Proof. unfold text. induction l as [|c l IH]; cbn; [done | by rewrite IH]. Qed.

Lemma str_int_long (n : Z) :
  n < 0 ∨ 10 ≤ n → (2 ≤ String.length (str_int n))%nat.
Proof.
  intros Hn. unfold str_int. destruct (Z.ltb_spec n 0).
  - cbn [String.length]. rewrite length_text.
    pose proof (digits_fuel_length (Z.to_nat (- n)) (- n)). lia.
  - destruct Hn; [lia|]. rewrite length_text.
    destruct (Z.to_nat n) as [|fuel] eqn:Hfuel; [lia|].
    rewrite digits_fuel_S. destruct (Z.ltb_spec n 10); [lia|].
    rewrite length_app. pose proof (digits_fuel_length fuel (n / 10)).
    cbn [length]. lia.
Qed.

(** ['%02i' % n] is [str(n)] padded with zeros to two characters. *)
Lemma format_02i_zero_pad (n : Z) : format_02i n = zero_pad 2 (str_int n).
Proof.
  unfold format_02i, zero_pad.
  destruct (Z.leb_spec 0 n), (Z.ltb_spec n 10); cbn [andb].
  - by rewrite str_int_digit by lia.
  - pose proof (str_int_long n).
    replace (2 - String.length (str_int n))%nat with 0%nat by lia. done.
  - pose proof (str_int_long n).
    replace (2 - String.length (str_int n))%nat with 0%nat by lia. done.
  - lia.
Qed.

(** [str(n) == '0'] exactly when [n] is 0. *)
Lemma str_int_zero (n : Z) : str_int n = "0"%string ↔ n = 0.
Proof.
  split; [|by intros ->].
  intros Hs. destruct (Z_lt_le_dec n 0) as [Hneg|Hpos].
  - unfold str_int in Hs. destruct (Z.ltb_spec n 0); [done | lia].
  - destruct (Z_lt_le_dec n 10) as [Hsmall|Hbig].
    + rewrite str_int_digit in Hs by lia.
      assert (n = 0 ∨ n = 1 ∨ n = 2 ∨ n = 3 ∨ n = 4 ∨ n = 5 ∨ n = 6
              ∨ n = 7 ∨ n = 8 ∨ n = 9) as Hcases by lia.
      destruct Hcases as [->|[->|[->|[->|[->|[->|[->|[->|[->| ->]]]]]]]]];
        done.
    + pose proof (str_int_long n) as Hlong. rewrite Hs in Hlong.
      cbn in Hlong. lia.
Qed.

(** The digits are those of the number: read back in base ten, they give
    it again. *)
Lemma digits_fuel_value (fuel : nat) (n : Z) :
  0 ≤ n → (Z.to_nat n < fuel)%nat →
  foldl (λ acc c, 10 * acc + (Z.of_nat (nat_of_ascii c) - 48)) 0
        (digits_fuel fuel n) = n.
Proof.
  revert n. induction fuel as [|fuel IH]; intros n Hn Hfuel; [lia|].
  rewrite digits_fuel_S. destruct (Z.ltb_spec n 10) as [Hsmall|Hbig].
  - cbn [foldl]. unfold digit_char. rewrite nat_ascii_embedding by lia. lia.
  - rewrite foldl_app. cbn [foldl].
    assert (0 ≤ n / 10 < n) by (split; [apply Z.div_pos; lia | apply Z.div_lt; lia]).
    rewrite IH by lia.
    pose proof (Z.mod_pos_bound n 10 ltac:(lia)).
    unfold digit_char. rewrite nat_ascii_embedding by lia.
    pose proof (Z.div_mod n 10 ltac:(lia)). lia.
Qed.

Lemma bind_Ok {A B} (a : A) (f : A → result B) : (Ok a ≫= f) = f a.
Proof. reflexivity. Qed.

(** A lookup in a mapping written as a chain of insertions with literal
    keys. *)
Ltac lookup_field :=
  repeat first
    [ rewrite lookup_insert_eq
    | rewrite lookup_insert_ne by discriminate ].

Section template_mapping.
Context `{Unicode}.

(** One turn of the loop, by the kind of the field. *)
Lemma template_mapping_key_text item mapping key s :
  getattr item key = Ok (VStr s) →
  template_mapping_key item mapping key = Ok (<[key := re_sub s]> mapping).
Proof. intros Hg. unfold template_mapping_key. by rewrite Hg. Qed.

Lemma template_mapping_key_position item mapping key n :
  getattr item key = Ok (VInt n) →
  bool_decide (key ∈ ["track"; "tracktotal"; "disc"; "disctotal"]%string) = true →
  template_mapping_key item mapping key = Ok (<[key := format_02i n]> mapping).
Proof.
  intros Hg Hp. unfold template_mapping_key. rewrite Hg. cbn. by rewrite Hp.
Qed.

Lemma template_mapping_key_other item mapping key v :
  getattr item key = Ok v →
  match v with VStr _ => False | _ => True end →
  bool_decide (key ∈ ["track"; "tracktotal"; "disc"; "disctotal"]%string) = false →
  template_mapping_key item mapping key = Ok (<[key := str v]> mapping).
Proof.
  intros Hg Hv Hp. unfold template_mapping_key. rewrite Hg. cbn. rewrite Hp.
  by destruct v.
Qed.

(** The mapping after the loop over [METADATA_KEYS]. *)
Lemma template_mapping_loop (item : Item.t) :
  foldl (λ acc key, mapping ← acc; template_mapping_key item mapping key)
        (Ok ∅) METADATA_KEYS
  = Ok (<["comp" := str (VBool (Item.comp item))]>
       (<["bpm" := str_int (Item.bpm item)]>
       (<["comments" := re_sub (Item.comments item)]>
       (<["lyrics" := re_sub (Item.lyrics item)]>
       (<["disctotal" := format_02i (Item.disctotal item)]>
       (<["disc" := format_02i (Item.disc item)]>
       (<["tracktotal" := format_02i (Item.tracktotal item)]>
       (<["track" := format_02i (Item.track item)]>
       (<["day" := str_int (Item.day item)]>
       (<["month" := str_int (Item.month item)]>
       (<["year" := str_int (Item.year item)]>
       (<["grouping" := re_sub (Item.grouping item)]>
       (<["composer" := re_sub (Item.composer item)]>
       (<["genre" := re_sub (Item.genre item)]>
       (<["album" := re_sub (Item.album item)]>
       (<["artist" := re_sub (Item.artist item)]>
       (<["title" := re_sub (Item.title item)]>
       (<["bitrate" := str_int (Item.bitrate item)]>
       (<["length" := float_str (Item.length item)]> ∅))))))))))))))))))).
Proof.
  change METADATA_KEYS with
    ["length"; "bitrate"; "title"; "artist"; "album"; "genre"; "composer";
     "grouping"; "year"; "month"; "day"; "track"; "tracktotal"; "disc";
     "disctotal"; "lyrics"; "comments"; "bpm"; "comp"]%string.
  cbn [foldl].
  repeat (rewrite bind_Ok; first
    [ erewrite template_mapping_key_text by (vm_compute; reflexivity)
    | erewrite template_mapping_key_position by (vm_compute; reflexivity)
    | erewrite template_mapping_key_other
        by first [vm_compute; reflexivity | exact I] ]).
  reflexivity.
Qed.

(** A dud entry is replaced in place. *)
Lemma fix_dud_entry (mapping : gmap string string) (key v dud unknown : string) :
  mapping !! key = Some v →
  (if decide (v = dud) then <[key := unknown]> mapping else mapping)
  = <[key := if decide (v = dud) then unknown else v]> mapping.
Proof.
  intros Hv. destruct (decide (v = dud)); [done|]. by rewrite insert_id.
Qed.

(** [template_mapping] returns the mapping the specification describes
    for every item whose extension is text in UTF-8, and raises the
    error of [decode] for the others. *)
Lemma template_mapping_rendered (item : Item.t) :
  template_mapping item
  = if decodable item
    then Ok (list_to_map (rendered_fields item (extension (Item.path item))))
    else Raise UnicodeDecodeError.
Proof.
  unfold template_mapping. rewrite template_mapping_loop, bind_Ok.
  unfold decode, decodable, extension.
  destruct (utf8_valid _); [|reflexivity]. rewrite bind_Ok.
  cbv zeta. unfold getitem.
  lookup_field. rewrite bind_Ok.
  erewrite fix_dud_entry by (lookup_field; reflexivity).
  lookup_field. rewrite bind_Ok.
  erewrite fix_dud_entry by (lookup_field; reflexivity).
  lookup_field. rewrite bind_Ok.
  erewrite fix_dud_entry by (lookup_field; reflexivity).
  lookup_field. rewrite bind_Ok.
  erewrite fix_dud_entry by (lookup_field; reflexivity).
  f_equal. unfold rendered_fields.
  rewrite <- !re_sub_replace_unsafe, <- !format_02i_zero_pad.
  assert (∀ s u : string,
            (if decide (s = ""%string) then u else re_sub s)
            = (if decide (re_sub s = ""%string) then u else re_sub s)) as Hdud.
  { intros s u. destruct (decide (s = ""%string)) as [->|Hs]; [done|].
    rewrite decide_False; [done|]. by rewrite re_sub_empty. }
  assert (∀ (n : Z) (u : string),
            (if decide (n = 0) then u else str_int n)
            = (if decide (str_int n = "0"%string) then u else str_int n)) as Hyear.
  { intros n u. destruct (decide (n = 0)) as [->|Hn]; [done|].
    rewrite decide_False; [done|]. by rewrite str_int_zero. }
  rewrite !Hdud, Hyear.
  generalize
    (if decide (re_sub (Item.artist item) = ""%string)
     then "Unknown Artist"%string else re_sub (Item.artist item))
    (if decide (re_sub (Item.album item) = ""%string)
     then "Unknown Album"%string else re_sub (Item.album item))
    (if decide (re_sub (Item.title item) = ""%string)
     then "Unknown Track"%string else re_sub (Item.title item))
    (if decide (str_int (Item.year item) = "0"%string)
     then "Unknown Year"%string else str_int (Item.year item)).
  generalize (re_sub (Item.artist item)) (re_sub (Item.album item))
    (re_sub (Item.title item)) (re_sub (Item.genre item))
    (re_sub (Item.composer item)) (re_sub (Item.grouping item))
    (re_sub (Item.lyrics item)) (re_sub (Item.comments item))
    (str_int (Item.year item)) (str_int (Item.month item))
    (str_int (Item.day item)) (str_int (Item.bpm item))
    (str_int (Item.bitrate item)) (float_str (Item.length item))
    (format_02i (Item.track item)) (format_02i (Item.tracktotal item))
    (format_02i (Item.disc item)) (format_02i (Item.disctotal item))
    (re_sub (str_slice_from (splitext (Item.path item)).2 1)).
  intros. generalize (str_upper s17). intros.
  destruct (Item.comp item); vm_compute; reflexivity.
Qed.

(** ** The segments of [PATH_FORMAT] *)

(** The three levels of [PATH_FORMAT], substituted from a mapping that has
    the seven fields. *)
Lemma level_subbed_PATH_FORMAT (mapping : gmap string string) (l0 l1 l2 : string) :
  path_segments mapping = Some [l0; l1; l2] →
  level_subbed_of (templates_of PATH_FORMAT) (structure_depth_of PATH_FORMAT)
    mapping
  = Ok (<[2 := l2]> (<[1 := l1]> (<[0 := l0]> ∅))).
Proof.
  unfold path_segments. intros Hseg.
  destruct (mapping !! "artist"%string) as [artist|] eqn:Hartist; [|done].
  destruct (mapping !! "album"%string) as [album|] eqn:Halbum; [|done].
  destruct (mapping !! "year"%string) as [year|] eqn:Hyear; [|done].
  destruct (mapping !! "format_upper"%string) as [format_upper|] eqn:Hupper;
    [|done].
  destruct (mapping !! "track"%string) as [track|] eqn:Htrack; [|done].
  destruct (mapping !! "title"%string) as [title|] eqn:Htitle; [|done].
  destruct (mapping !! "format"%string) as [format|] eqn:Hformat; [|done].
  cbn in Hseg. injection Hseg as <- <- <-.
  assert (getitem mapping "artist"%string = Ok artist) as Gartist
    by (unfold getitem; by rewrite Hartist).
  assert (getitem mapping "album"%string = Ok album) as Galbum
    by (unfold getitem; by rewrite Halbum).
  assert (getitem mapping "year"%string = Ok year) as Gyear
    by (unfold getitem; by rewrite Hyear).
  assert (getitem mapping "format_upper"%string = Ok format_upper) as Gupper
    by (unfold getitem; by rewrite Hupper).
  assert (getitem mapping "track"%string = Ok track) as Gtrack
    by (unfold getitem; by rewrite Htrack).
  assert (getitem mapping "title"%string = Ok title) as Gtitle
    by (unfold getitem; by rewrite Htitle).
  assert (getitem mapping "format"%string = Ok format) as Gformat
    by (unfold getitem; by rewrite Hformat).
  clear Hartist Halbum Hyear Hupper Htrack Htitle Hformat.
  unfold level_subbed_of, substitute.
  revert Gartist Galbum Gyear Gupper Gtrack Gtitle Gformat.
  generalize (getitem mapping). intros g Gartist Galbum Gyear Gupper Gtrack Gtitle Gformat.
  vm_compute. vm_compute in Gartist, Galbum, Gyear, Gupper, Gtrack, Gtitle, Gformat.
  rewrite Gartist, Galbum, Gyear, Gupper, Gtrack, Gtitle, Gformat.
  reflexivity.
Qed.

(** The mapping of the specification has all the fields of
    [PATH_FORMAT]. *)
Lemma path_segments_rendered (item : Item.t) (format_ : string) :
  ∃ l0 l1 l2,
    path_segments (list_to_map (rendered_fields item format_))
    = Some [l0; l1; l2]
    ∧ l0 = (if decide (Item.artist item = ""%string) then "Unknown Artist"%string
            else replace_unsafe (Item.artist item)).
Proof.
  unfold path_segments, rendered_fields.
  cbn [list_to_map foldr uncurry fst snd]. unfold uncurry. cbn [fst snd].
  repeat (lookup_field; cbn [mbind option_bind]).
  eexists _, _, _. split; reflexivity.
Qed.

(** The first segment is never empty. *)
Lemma artist_segment_nonempty (item : Item.t) :
  (if decide (Item.artist item = ""%string) then "Unknown Artist"%string
   else replace_unsafe (Item.artist item)) ≠ ""%string.
Proof.
  destruct (decide _) as [|Hne]; [done|].
  rewrite <- re_sub_replace_unsafe. by rewrite re_sub_empty.
Qed.

(** C7.  [template_mapping] first decodes the extension of the file of
    the item, and raises [UnicodeDecodeError] when it is not text in
    UTF-8: such an item has no segments.  For every other item it
    returns, and gives each placeholder the value the specification
    describes: in a text field every backslash, slash and colon and a dot
    in first position is an underscore ([replace_unsafe]); track,
    tracktotal, disc and disctotal are padded with zeros to two
    characters ([zero_pad]); an empty artist, album or title reads
    "Unknown Artist", "Unknown Album" or "Unknown Track" and the year 0
    reads "Unknown Year" (the test is made on the value after the
    replacement).  The segments substituted from [PATH_FORMAT] are put
    together from these values. *)
Theorem template_mapping_renders_fields (item : Item.t) :
  let fields : gmap string string :=
    list_to_map (rendered_fields item (extension (Item.path item))) in
  template_mapping item
  = (if decodable item then Ok fields else Raise UnicodeDecodeError)
  ∧ ∃ l0 l1 l2,
      path_segments fields = Some [l0; l1; l2]
      ∧ level_subbed_of (templates_of PATH_FORMAT)
          (structure_depth_of PATH_FORMAT) fields
        = Ok (<[2 := l2]> (<[1 := l1]> (<[0 := l0]> ∅))).
Proof.
  intros fields. split; [apply template_mapping_rendered|].
  destruct (path_segments_rendered item (extension (Item.path item)))
    as (l0 & l1 & l2 & Hseg & _).
  exists l0, l1, l2. split; [exact Hseg|].
  by apply level_subbed_PATH_FORMAT.
Qed.

End template_mapping.

(** The item of the scenario of the specification, an item with dud
    entries, and an item whose extension is the byte 255. *)
Example template_mapping_example :
  (m ← template_mapping (H := example_unicode) example_item;
   map_to_list <$> level_subbed_of (templates_of PATH_FORMAT)
                     (structure_depth_of PATH_FORMAT) m)
  = Ok [(2, "01 - A - T.mp3"); (1, "B (2001) [MP3]"); (0, "A")]%string.
Proof. vm_compute. reflexivity. Qed.

Example template_mapping_dud_example :
  (m ← template_mapping (H := example_unicode) example_dud_item;
   map_to_list <$> level_subbed_of (templates_of PATH_FORMAT)
                     (structure_depth_of PATH_FORMAT) m)
  = Ok [(2, "03 - Unknown Artist - a_b_c.FLAC");
        (1, "_B (Unknown Year) [FLAC]"); (0, "Unknown Artist")]%string.
Proof. vm_compute. reflexivity. Qed.

Example template_mapping_undecodable_example :
  template_mapping (H := example_unicode) example_undecodable_item
  = Raise UnicodeDecodeError.
Proof. vm_compute. reflexivity. Qed.

(** ** The directory tree *)

Lemma node_at_app (t : FSNode) (p q : noderef) :
  node_at t (p ++ q) = node_at t p ≫= λ n, node_at n q.
Proof.
  revert t. induction p as [|d p IH]; intros t; [done|].
  cbn. destruct (dirs t !! d); [apply IH | done].
Qed.

Lemma node_at_prefix (t : FSNode) (p q : noderef) :
  is_Some (node_at t (p ++ q)) → is_Some (node_at t p).
Proof. rewrite node_at_app. destruct (node_at t p); [eauto | by intros [? ?]]. Qed.

Lemma node_at_snoc (t n : FSNode) (p : noderef) (d : string) :
  node_at t p = Some n → node_at t (p ++ [d]) = dirs n !! d.
Proof.
  intros Hp. rewrite node_at_app, Hp. cbn. by destruct (dirs n !! d).
Qed.

(** A node updated in place is found where it was. *)
Lemma node_at_update_at (t n : FSNode) (p : noderef) (f : FSNode → FSNode) :
  node_at t p = Some n → node_at (update_at p f t) p = Some (f n).
Proof.
  revert t. induction p as [|d p IH]; intros t; cbn.
  - by intros [= ->].
  - destruct (dirs t !! d) as [child|] eqn:Hd; [|done]. intros Hn.
    cbn. rewrite lookup_insert_eq. by apply IH.
Qed.

Lemma update_at_id (t n : FSNode) (p : noderef) (f : FSNode → FSNode) :
  node_at t p = Some n → f n = n → update_at p f t = t.
Proof.
  revert t. induction p as [|d p IH]; intros t; cbn.
  - by intros [= ->].
  - destruct (dirs t !! d) as [child|] eqn:Hd; [|done]. intros Hn Hf.
    rewrite (IH child) by done. rewrite insert_id by done. by destruct t.
Qed.

Lemma ensure_dir_has (directory : string) (n : FSNode) :
  is_Some (dirs (ensure_dir directory n) !! directory).
Proof.
  unfold ensure_dir. destruct (dirs n !! directory) eqn:Hd.
  - rewrite Hd. eauto.
  - cbn. rewrite lookup_insert_eq. eauto.
Qed.

(** ** The heap of lists *)

Lemma world_eta (w : world) :
  w = {| directory_structure := directory_structure w;
         structure_depth := structure_depth w; heap := heap w |}.
Proof. by destruct w. Qed.

Lemma contents_lookup (w : world) (l : loc) (xs : list string) :
  heap w !! l = Some xs → contents w l = xs.
Proof. unfold contents. by intros ->. Qed.

Lemma set_heap_insert_insert (w : world) (l : loc) (xs ys : list string) :
  set_heap <[l := ys]> (set_heap <[l := xs]> w) = set_heap <[l := ys]> w.
Proof. unfold set_heap. cbn. by rewrite insert_insert_eq. Qed.

Lemma set_heap_insert_id (w : world) (l : loc) (xs : list string) :
  heap w !! l = Some xs → set_heap <[l := xs]> w = w.
Proof. intros Hl. unfold set_heap. rewrite insert_id by done. by destruct w. Qed.

(** ** [FSNode.getnode] *)

Lemma getnode_fuel_unfold fuel self elements root :
  FSNode.getnode_fuel fuel self elements root
  = (let root := default self root in
     l ← list_read elements;
     match l with
     | _ :: _ =>
         match fuel with
         | O => raise OutOfFuel
         | S fuel' =>
             topdir ← list_pop0 elements;
             child ← getitem_dirs root topdir;
             FSNode.getnode_fuel fuel' self elements (Some child)
         end
     | [] => mret root
     end).
Proof. by destruct fuel. Qed.

(** [getnode] on a path that exists: it answers the node at the end of
    the path and leaves the list it was given empty. *)
Lemma getnode_fuel_ok (l : list string) :
  ∀ fuel self elements root w,
    heap w !! elements = Some l → (length l ≤ fuel)%nat →
    is_Some (node_at (directory_structure w) (default self root ++ l)) →
    FSNode.getnode_fuel fuel self elements root w
    = (Ok (default self root ++ l), set_heap <[elements := []]> w).
Proof.
  induction l as [|x l IH]; intros fuel self elements root w Hl Hfuel Hnode;
    rewrite getnode_fuel_unfold; run; unfold list_read;
    rewrite (contents_lookup w elements _ Hl).
  - by rewrite app_nil_r, set_heap_insert_id.
  - destruct fuel as [|fuel]; [cbn in Hfuel; lia|].
    unfold list_pop0. rewrite (contents_lookup w elements _ Hl).
    unfold getitem_dirs, deref. run. cbn [directory_structure set_heap].
    destruct (node_at_prefix _ _ _ Hnode) as [n Hn]. rewrite Hn.
    assert (is_Some (dirs n !! x)) as [child Hchild].
    { rewrite <- (node_at_snoc _ _ _ _ Hn).
      apply (node_at_prefix _ _ l). by rewrite <- app_assoc. }
    unfold getitem. rewrite Hchild.
    rewrite (IH fuel self elements (Some (default self root ++ [x]))
               (set_heap <[elements := l]> w)).
    + cbn [from_option id]. by rewrite <- app_assoc, set_heap_insert_insert.
    + cbn. by rewrite lookup_insert_eq.
    + cbn in Hfuel. lia.
    + cbn [from_option id directory_structure set_heap]. by rewrite <- app_assoc.
Qed.

Lemma getnode_ok self elements root w l :
  heap w !! elements = Some l →
  is_Some (node_at (directory_structure w) (default self root ++ l)) →
  FSNode.getnode self elements root w
  = (Ok (default self root ++ l), set_heap <[elements := []]> w).
Proof.
  intros Hl Hnode. unfold FSNode.getnode. run. unfold list_read.
  rewrite (contents_lookup w elements _ Hl). by apply getnode_fuel_ok.
Qed.

(** Whenever [getnode] returns, the list it was given is empty, the tree
    and the other lists are as before, and the answer is the path that
    was in the list, below [root]. *)
Lemma getnode_fuel_returns (fuel : nat) :
  ∀ self elements root w node w',
    FSNode.getnode_fuel fuel self elements root w = (Ok node, w') →
    contents w' elements = []
    ∧ node = default self root ++ contents w elements
    ∧ directory_structure w' = directory_structure w
    ∧ structure_depth w' = structure_depth w
    ∧ ∀ l, l ≠ elements → heap w' !! l = heap w !! l.
Proof.
  induction fuel as [|fuel IH]; intros self elements root w node w';
    rewrite getnode_fuel_unfold; run; unfold list_read;
    destruct (contents w elements) as [|x xs] eqn:Hc.
  - intros [= <- <-]. by rewrite app_nil_r.
  - done.
  - intros [= <- <-]. by rewrite app_nil_r.
  - unfold list_pop0. rewrite Hc. unfold getitem_dirs, deref. run.
    cbn [directory_structure set_heap].
    destruct (node_at _ _) as [n|]; [|done].
    destruct (getitem (dirs n) x) as [child|]; [|done].
    intros Hrec. apply IH in Hrec as (Hempty & -> & Htree & Hdepth & Hframe).
    split; [done|]. split.
    { cbn [from_option id]. unfold contents at 1. cbn. rewrite lookup_insert_eq. cbn.
      by rewrite <- app_assoc. }
    split; [done|]. split; [done|].
    intros l Hl. rewrite Hframe by done. cbn. by rewrite lookup_insert_ne.
Qed.

Lemma getnode_returns self elements root w node w' :
  FSNode.getnode self elements root w = (Ok node, w') →
  contents w' elements = []
  ∧ node = default self root ++ contents w elements
  ∧ directory_structure w' = directory_structure w
  ∧ structure_depth w' = structure_depth w
  ∧ ∀ l, l ≠ elements → heap w' !! l = heap w !! l.
Proof. unfold FSNode.getnode. run. unfold list_read. apply getnode_fuel_returns. Qed.

(** The fuel [getnode] starts with is never spent. *)
Lemma getnode_fuel_enough (l : list string) :
  ∀ fuel self elements root w w',
    contents w elements = l → (length l ≤ fuel)%nat →
    FSNode.getnode_fuel fuel self elements root w ≠ (Raise OutOfFuel, w').
Proof.
  induction l as [|x l IH]; intros fuel self elements root w w' Hc Hfuel;
    rewrite getnode_fuel_unfold; run; unfold list_read; rewrite Hc; [done|].
  destruct fuel as [|fuel]; [cbn in Hfuel; lia|].
  unfold list_pop0. rewrite Hc. unfold getitem_dirs, deref. run.
  cbn [directory_structure set_heap].
  destruct (node_at _ _) as [n|]; [|done].
  destruct (getitem (dirs n) x) as [child|e] eqn:Hg.
  - apply IH; [|cbn in Hfuel; lia].
    unfold contents. cbn. by rewrite lookup_insert_eq.
  - unfold getitem in Hg. destruct (dirs n !! x); [done|].
    by injection Hg as <-.
Qed.

(** ** [FSNode.adddir] and [FSNode.addfile] *)

Lemma update_at_ext (t n : FSNode) (p : noderef) (f g : FSNode → FSNode) :
  node_at t p = Some n → f n = g n → update_at p f t = update_at p g t.
Proof.
  revert t. induction p as [|d p IH]; intros t; cbn.
  - by intros [= ->].
  - destruct (dirs t !! d) as [child|] eqn:Hd; [|done]. intros Hn Hfg.
    by rewrite (IH child).
Qed.

(** [adddir] on the path of an existing node: the directory is there
    afterwards, and the list is empty. *)
Lemma adddir_ok elements directory w p n :
  heap w !! elements = Some p → FSNode.is_root_path p = false →
  node_at (directory_structure w) p = Some n →
  FSNode.adddir [] elements directory None w
  = (Ok tt, set_tree (update_at p (ensure_dir directory))
              (set_heap <[elements := []]> w)).
Proof.
  intros Hp Hroot Hn. unfold FSNode.adddir. run. unfold list_read.
  rewrite (contents_lookup w elements p Hp), Hroot. cbn [from_option id].
  rewrite (getnode_ok [] elements (Some []) w p) by (cbn; eauto).
  cbn [from_option id app]. unfold deref.
  cbn [directory_structure set_heap]. rewrite Hn.
  destruct (dirs n !! directory) as [child|] eqn:Hd.
  - rewrite bool_decide_eq_true_2 by eauto. f_equal.
    unfold set_tree. cbn [directory_structure set_heap structure_depth heap].
    rewrite (update_at_id _ n) by (unfold ensure_dir; by try rewrite Hd).
    done.
  - rewrite bool_decide_eq_false_2 by (by intros [? ?]).
    unfold setitem_dirs. run. unfold set_tree.
    cbn [directory_structure set_heap structure_depth heap].
    rewrite (update_at_ext _ n p _ (ensure_dir directory)); [done..|].
    unfold ensure_dir. by rewrite Hd.
Qed.

Lemma addfile_ok elements filename ident w p n :
  heap w !! elements = Some p → FSNode.is_root_path p = false →
  node_at (directory_structure w) p = Some n →
  FSNode.addfile [] elements filename ident None w
  = (Ok tt, set_tree (update_at p (set_file filename ident))
              (set_heap <[elements := []]> w)).
Proof.
  intros Hp Hroot Hn. unfold FSNode.addfile. run. unfold list_read.
  rewrite (contents_lookup w elements p Hp), Hroot. cbn [from_option id].
  rewrite (getnode_ok [] elements (Some []) w p) by (cbn; eauto).
  cbn [from_option id app]. unfold setitem_files. run. done.
Qed.

(** A list that reads [['']] is in the heap, and a new list is another
    one. *)
Lemma root_path_allocated (w : world) (elements : loc) :
  FSNode.is_root_path (contents w elements) = true →
  elements ≠ fresh (dom (heap w)).
Proof.
  unfold contents. intros Hroot Heq.
  pose proof (is_fresh (dom (heap w))) as Hfresh. rewrite <- Heq in Hfresh.
  apply not_elem_of_dom in Hfresh. rewrite Hfresh in Hroot. done.
Qed.

(** The first lines [adddir], [addfile] (and [listdir]) share: the list
    the walk is made on, and the walk.  When the list reads [['']] the
    walk is made on a new list and the list of the caller stays as it
    is; otherwise the list of the caller is emptied. *)
Lemma rebound_getnode_returns self elements root w node w' :
  (l ← list_read elements;
   elements ← (if FSNode.is_root_path l then list_new [] else mret elements);
   FSNode.getnode self elements root) w = (Ok node, w') →
  contents w' elements
  = (if FSNode.is_root_path (contents w elements) then contents w elements
     else [])
  ∧ structure_depth w' = structure_depth w.
Proof.
  run. unfold list_read.
  destruct (FSNode.is_root_path (contents w elements)) eqn:Hroot.
  - unfold list_new. intros Hget.
    apply getnode_returns in Hget as (_ & _ & _ & Hdepth & Hframe).
    split; [|done]. unfold contents at 1.
    rewrite Hframe by (by apply root_path_allocated).
    cbn. rewrite lookup_insert_ne; [done|].
    intros Heq. by apply (root_path_allocated w elements).
  - intros Hget. by apply getnode_returns in Hget as (? & _ & _ & ? & _).
Qed.

Lemma adddir_returns self elements directory root w w' :
  FSNode.adddir self elements directory root w = (Ok tt, w') →
  contents w' elements
  = if FSNode.is_root_path (contents w elements) then contents w elements
    else [].
Proof.
  unfold FSNode.adddir. intros Hrun.
  apply M_bind_inv in Hrun as (l & w0 & Hread & Hrun).
  apply M_bind_inv in Hrun as (elements' & w1 & Hnew & Hrun).
  apply M_bind_inv in Hrun as (node & w2 & Hget & Hrun).
  assert ((l ← list_read elements;
           elements ← (if FSNode.is_root_path l then list_new [] else mret elements);
           FSNode.getnode self elements (Some (default self root))) w
          = (Ok node, w2)) as Hwalk.
  { run. rewrite Hread. rewrite Hnew. exact Hget. }
  apply rebound_getnode_returns in Hwalk as [<- _].
  apply M_bind_inv in Hrun as (n & w3 & Hderef & Hrun).
  unfold deref in Hderef. destruct (node_at _ _); [|done].
  injection Hderef as <- <-.
  destruct (bool_decide _).
  - by injection Hrun as <-.
  - unfold setitem_dirs in Hrun. run. by injection Hrun as <-.
Qed.

Lemma addfile_returns self elements filename id root w w' :
  FSNode.addfile self elements filename id root w = (Ok tt, w') →
  contents w' elements
  = if FSNode.is_root_path (contents w elements) then contents w elements
    else [].
Proof.
  unfold FSNode.addfile. intros Hrun.
  apply M_bind_inv in Hrun as (l & w0 & Hread & Hrun).
  apply M_bind_inv in Hrun as (elements' & w1 & Hnew & Hrun).
  apply M_bind_inv in Hrun as (node & w2 & Hget & Hrun).
  assert ((l ← list_read elements;
           elements ← (if FSNode.is_root_path l then list_new [] else mret elements);
           FSNode.getnode self elements (Some (default self root))) w
          = (Ok node, w2)) as Hwalk.
  { run. rewrite Hread. rewrite Hnew. exact Hget. }
  apply rebound_getnode_returns in Hwalk as [<- _].
  unfold setitem_files in Hrun. run. by injection Hrun as <-.
Qed.

Lemma is_root_path_true (l : list string) :
  FSNode.is_root_path l = true ↔ l = [""%string].
Proof.
  unfold FSNode.is_root_path. split.
  - intros [Hlen Hhead]%andb_true_iff.
    apply bool_decide_eq_true in Hlen. apply bool_decide_eq_true in Hhead.
    destruct l as [|x [|y l]]; cbn in *; unfold len in *; cbn in *;
      try lia; try done. by injection Hhead as ->.
  - by intros ->.
Qed.

Lemma is_root_path_singleton (x : string) :
  x ≠ ""%string → FSNode.is_root_path [x] = false.
Proof.
  intros Hx. apply not_true_is_false. rewrite is_root_path_true.
  by intros [= ->].
Qed.

(** ** The loop of [mount] *)

(** One level of the loop, started with an empty [sub_elements].  The
    list then holds the segment of the level before and nothing else, so
    the directory is added below the node of that one segment. *)
Lemma mount_level_ok (level_subbed : gmap Z string) (sub_elements : loc)
    (level : Z) (w : world) (directory : string) (n : FSNode) :
  heap w !! sub_elements = Some [] →
  level_subbed !! (level - 1) ≠ Some ""%string →
  level_subbed !! level = Some directory →
  node_at (directory_structure w) (option_list (level_subbed !! (level - 1)))
  = Some n →
  mount_level level_subbed sub_elements level w
  = (Ok tt,
     set_tree (update_at (option_list (level_subbed !! (level - 1)))
                 (ensure_dir directory))
       (set_heap <[sub_elements := []]> w)).
Proof.
  intros Hl Hne Hd Hn. unfold mount_level. run.
  unfold getitem. rewrite Hd.
  destruct (level_subbed !! (level - 1)) as [segment|] eqn:Hprev;
    cbn [option_list] in *.
  - unfold list_append. rewrite (contents_lookup w sub_elements [] Hl).
    cbn [app].
    rewrite (adddir_ok sub_elements directory
               (set_heap <[sub_elements := [segment]]> w) [segment] n).
    + by rewrite set_heap_insert_insert.
    + cbn. by rewrite lookup_insert_eq.
    + apply is_root_path_singleton. by intros ->.
    + done.
  - by rewrite (adddir_ok sub_elements directory w [] n).
Qed.

Lemma mount_level_returns (level_subbed : gmap Z string) (sub_elements : loc)
    (level : Z) (w w' : world) :
  contents w sub_elements = [] →
  level_subbed !! (level - 1) ≠ Some ""%string →
  mount_level level_subbed sub_elements level w = (Ok tt, w') →
  contents w' sub_elements = [].
Proof.
  intros Hempty Hne. unfold mount_level. intros Hrun.
  apply M_bind_inv in Hrun as ([] & w1 & Happend & Hrun).
  apply M_bind_inv in Hrun as (directory & w2 & Hdir & Hrun).
  unfold lift in Hdir. injection Hdir as _ <-.
  apply adddir_returns in Hrun as ->.
  destruct (level_subbed !! (level - 1)) as [segment|].
  - unfold list_append in Happend. injection Happend as <-.
    rewrite Hempty. unfold contents. cbn. rewrite lookup_insert_eq. cbn.
    rewrite is_root_path_singleton; [done|]. by intros ->.
  - injection Happend as <-. by rewrite Hempty.
Qed.

Section mount_loop.
Context `{Unicode}.

(** C9, as the code has it.  Whenever [getnode] returns, every element
    has been popped from the list it was given.  [adddir] and [addfile]
    leave the list they are given empty, unless it reads [['']]: then
    they bind their local name to a new list, and the list of the caller
    still reads [['']] afterwards.  In the loop of [mount], with the
    segments of [PATH_FORMAT] for any item, [sub_elements] is empty again
    after each [adddir]. *)
Theorem getnode_consumes_its_argument :
  (∀ self elements root w node w',
     FSNode.getnode self elements root w = (Ok node, w') →
     contents w' elements = [])
  ∧ (∀ self elements directory root w w',
       FSNode.adddir self elements directory root w = (Ok tt, w') →
       contents w' elements
       = if FSNode.is_root_path (contents w elements) then [""%string] else [])
  ∧ (∀ self elements filename id root w w',
       FSNode.addfile self elements filename id root w = (Ok tt, w') →
       contents w' elements
       = if FSNode.is_root_path (contents w elements) then [""%string] else [])
  ∧ (∀ item level_subbed sub_elements level w w',
       template_mapping item
       ≫= level_subbed_of (templates_of PATH_FORMAT)
             (structure_depth_of PATH_FORMAT) = Ok level_subbed →
       level ∈ range 0 (structure_depth_of PATH_FORMAT - 1) →
       contents w sub_elements = [] →
       mount_level level_subbed sub_elements level w = (Ok tt, w') →
       contents w' sub_elements = []).
Proof.
  split; [|split; [|split]].
  - intros self elements root w node w' Hrun.
    by apply getnode_returns in Hrun as [? _].
  - intros self elements directory root w w' Hrun.
    rewrite (adddir_returns _ _ _ _ _ _ Hrun).
    destruct (FSNode.is_root_path _) eqn:Hroot; [|done].
    by apply is_root_path_true.
  - intros self elements filename id root w w' Hrun.
    rewrite (addfile_returns _ _ _ _ _ _ _ Hrun).
    destruct (FSNode.is_root_path _) eqn:Hroot; [|done].
    by apply is_root_path_true.
  - intros item level_subbed sub_elements level w w' Hsubbed Hlevel Hempty Hrun.
    apply (mount_level_returns level_subbed sub_elements level w w');
      [done| |done].
    rewrite template_mapping_rendered in Hsubbed.
    destruct (decodable item); [|done]. rewrite bind_Ok in Hsubbed.
    destruct (path_segments_rendered item (extension (Item.path item)))
      as (l0 & l1 & l2 & Hseg & Hl0).
    rewrite (level_subbed_PATH_FORMAT _ l0 l1 l2 Hseg) in Hsubbed.
    injection Hsubbed as <-.
    assert (level = 0 ∨ level = 1) as [-> | ->].
    { revert Hlevel. vm_compute (range _ _). rewrite !elem_of_cons, elem_of_nil.
      tauto. }
    + by lookup_field.
    + change (1 - 1) with 0. lookup_field.
      intros [= ->]. by apply (artist_segment_nonempty item).
Qed.

(** ** The segments of an item *)

Lemma segments_path_segments (item : Item.t) (l0 l1 l2 : string) :
  decodable item = true →
  path_segments (list_to_map (rendered_fields item (extension (Item.path item))))
  = Some [l0; l1; l2] →
  segments item = [l0; l1; l2].
Proof.
  intros Hdec Hseg. unfold segments, level_subbed.
  rewrite template_mapping_rendered, Hdec, bind_Ok.
  rewrite (level_subbed_PATH_FORMAT _ l0 l1 l2 Hseg).
  reflexivity.
Qed.

(** An item whose extension is no text has no segments. *)
Lemma segments_undecodable (item : Item.t) :
  decodable item = false → segments item = [].
Proof.
  intros Hdec. unfold segments, level_subbed.
  by rewrite template_mapping_rendered, Hdec.
Qed.

Lemma segments_three (item : Item.t) :
  decodable item = true →
  ∃ l0 l1 l2, segments item = [l0; l1; l2] ∧ l0 ≠ ""%string
              ∧ level_subbed_of (templates_of PATH_FORMAT) 3
                  (list_to_map
                     (rendered_fields item (extension (Item.path item))))
                = Ok (<[2 := l2]> (<[1 := l1]> (<[0 := l0]> ∅))).
Proof.
  intros Hdec.
  destruct (path_segments_rendered item (extension (Item.path item)))
    as (l0 & l1 & l2 & Hseg & Hl0).
  exists l0, l1, l2. split; [by apply segments_path_segments|].
  split; [rewrite Hl0; apply artist_segment_nonempty|].
  by apply level_subbed_PATH_FORMAT.
Qed.

(** ** What one turn of the loop of [mount] does to the tree *)

(** The body of the loop for an item whose extension is no text: the
    error of [template_mapping] ends it before the tree is touched. *)
Lemma mount_item_undecodable (templates : gmap Z string) (depth : Z)
    (item : Item.t) (w : world) :
  decodable item = false →
  mount_item templates depth item w = (Raise UnicodeDecodeError, w).
Proof.
  intros Hdec. unfold mount_item. run.
  by rewrite template_mapping_rendered, Hdec.
Qed.

(** The body of the loop for any other item, with templates of three
    levels whose first segment is not empty. *)
Lemma mount_item_tree (templates : gmap Z string) (item : Item.t)
    (w : world) (l0 l1 l2 : string) :
  decodable item = true →
  level_subbed_of templates 3
    (list_to_map (rendered_fields item (extension (Item.path item))))
  = Ok (<[2 := l2]> (<[1 := l1]> (<[0 := l0]> ∅))) →
  l0 ≠ ""%string →
  ∃ w', mount_item templates 3 item w = (Ok tt, w')
        ∧ directory_structure w'
          = tree_insert l0 l1 l2 (Item.id item) (directory_structure w)
        ∧ structure_depth w' = structure_depth w.
Proof.
  intros Hdec Hsubbed Hl0. unfold mount_item.
  set (level_subbed := <[2 := l2]> (<[1 := l1]> (<[0 := l0]> ∅)) : gmap Z string)
    in *.
  assert (level_subbed !! (-1) = None) as Hm1 by done.
  assert (level_subbed !! 0 = Some l0) as H0 by done.
  assert (level_subbed !! 1 = Some l1) as H1 by done.
  assert (level_subbed !! 2 = Some l2) as H2 by done.
  run. rewrite template_mapping_rendered, Hdec. cbn beta iota.
  rewrite Hsubbed.
  unfold list_new. set (sub_elements := fresh (dom (heap w))).
  set (w1 := set_heap <[sub_elements := []]> w).
  assert (heap w1 !! sub_elements = Some []) as Hheap1
    by (cbn; by rewrite lookup_insert_eq).
  change (range 0 (3 - 1)) with [0; 1]. cbn [for_each]. run.
  rewrite (mount_level_ok level_subbed sub_elements 0 w1 l0 (directory_structure w));
    [|done|change (0 - 1) with (-1); by rewrite Hm1|done
     |change (0 - 1) with (-1); by rewrite Hm1].
  change (0 - 1) with (-1). rewrite Hm1.
  set (t2 := ensure_dir l0 (directory_structure w)).
  set (w2 := set_tree _ (set_heap _ w1)).
  assert (directory_structure w2 = t2) as Htree2 by reflexivity.
  assert (heap w2 !! sub_elements = Some []) as Hheap2
    by (cbn; by rewrite lookup_insert_eq).
  destruct (ensure_dir_has l0 (directory_structure w)) as [c Hc]. fold t2 in Hc.
  rewrite (mount_level_ok level_subbed sub_elements 1 w2 l1 c);
    [|done|change (1 - 1) with 0; rewrite H0; by intros [= ->]|done
     |change (1 - 1) with 0; rewrite H0, Htree2; cbn; by rewrite Hc].
  change (1 - 1) with 0. rewrite H0.
  set (t3 := update_at [l0] (ensure_dir l1) t2).
  set (w3 := set_tree _ (set_heap _ w2)).
  assert (directory_structure w3 = t3) as Htree3 by reflexivity.
  assert (heap w3 !! sub_elements = Some []) as Hheap3
    by (cbn; by rewrite lookup_insert_eq).
  assert (node_at t3 [l0] = Some (ensure_dir l1 c)) as Hc3.
  { apply node_at_update_at. cbn. by rewrite Hc. }
  destruct (ensure_dir_has l1 c) as [d Hd].
  assert (node_at t3 [l0; l1] = Some d) as Hd3.
  { change [l0; l1] with ([l0] ++ [l1]).
    by rewrite (node_at_snoc _ _ _ _ Hc3). }
  unfold getitem. change (3 - 3) with 0. change (3 - 2) with 1.
  change (3 - 1) with 2. rewrite H0, H1, H2.
  unfold list_append. rewrite (contents_lookup w3 sub_elements [] Hheap3).
  cbn [app].
  set (w4 := set_heap _ w3).
  assert (contents w4 sub_elements = [l0]) as ->
    by (unfold contents; cbn; by rewrite lookup_insert_eq).
  cbn [app].
  set (w5 := set_heap _ w4).
  rewrite (addfile_ok sub_elements l2 (Item.id item) w5 [l0; l1] d);
    [|cbn; by rewrite lookup_insert_eq|done|done].
  eexists. split; [reflexivity|]. split; reflexivity.
Qed.

(** The tree after [tree_insert], one level at a time. *)
Lemma tree_insert_eq (l0 l1 l2 : string) (ident : Z) (t : FSNode) :
  let c := default (mkFSNode ∅ ∅) (dirs t !! l0) in
  let d := default (mkFSNode ∅ ∅) (dirs c !! l1) in
  tree_insert l0 l1 l2 ident t
  = mkFSNode
      (<[l0 := mkFSNode (<[l1 := set_file l2 ident d]> (dirs c)) (files c)]>
         (dirs t))
      (files t).
Proof.
  intros c d. subst c d. unfold tree_insert, ensure_dir.
  destruct t as [D F]. cbn [dirs files].
  destruct (D !! l0) as [c|] eqn:Hc; cbn [from_option id].
  - cbn [update_at dirs files]. rewrite Hc.
    destruct c as [Dc Fc]. cbn [dirs files].
    destruct (Dc !! l1) as [d|] eqn:Hd; cbn [from_option id dirs files].
    + rewrite lookup_insert_eq. cbn [dirs files update_at].
      rewrite Hd. cbn [dirs files].
      by rewrite insert_insert_eq.
    + rewrite lookup_insert_eq. cbn [dirs files update_at].
      rewrite lookup_insert_eq. cbn [dirs files].
      by rewrite !insert_insert_eq.
  - cbn [update_at dirs files]. rewrite lookup_insert_eq.
    cbn [dirs files]. rewrite lookup_empty. cbn [dirs files].
    rewrite insert_insert_eq, lookup_insert_eq. cbn [dirs files update_at].
    rewrite lookup_insert_eq. cbn [dirs files].
    by rewrite !insert_insert_eq.
Qed.

Lemma node_at_leaf (q : list string) :
  node_at (mkFSNode ∅ ∅) q = match q with [] => Some (mkFSNode ∅ ∅) | _ => None end.
Proof. destruct q as [|x q]; [done|]. cbn. by rewrite lookup_empty. Qed.

Lemma node_at_set_file (l2 : string) (ident : Z) (d : FSNode) (x : string)
    (q : list string) :
  node_at (set_file l2 ident d) (x :: q) = node_at d (x :: q).
Proof. reflexivity. Qed.

(** The file map of every directory after [tree_insert]. *)
Lemma file_at_tree_insert (l0 l1 l2 : string) (ident : Z) (t : FSNode)
    (p : list string) (name : string) :
  file_at (tree_insert l0 l1 l2 ident t) p name
  = if decide (p ++ [name] = [l0; l1; l2]) then Some ident
    else file_at t p name.
Proof.
  rewrite tree_insert_eq. cbn zeta. unfold file_at.
  destruct p as [|a [|b q]].
  - cbn. by destruct (decide _).
  - cbn [node_at dirs files app].
    rewrite decide_False by (by intros [=]).
    destruct (decide (a = l0)) as [->|Ha].
    + rewrite lookup_insert_eq. cbn.
      destruct (dirs t !! l0) as [c|]; cbn; [done|]. by rewrite lookup_empty.
    + by rewrite lookup_insert_ne.
  - cbn [node_at dirs files app].
    destruct (decide (a = l0)) as [->|Ha].
    + rewrite lookup_insert_eq. cbn [dirs files].
      destruct (decide (b = l1)) as [->|Hb].
      * rewrite lookup_insert_eq.
        destruct q as [|x q].
        -- cbn [node_at mbind option_bind set_file files app].
           destruct (decide (name = l2)) as [->|Hn].
           ++ rewrite decide_True by done. by rewrite lookup_insert_eq.
           ++ rewrite decide_False by (intros [=]; done).
              rewrite lookup_insert_ne by done.
              destruct (dirs t !! l0) as [c|]; cbn [from_option id].
              ** destruct (dirs c !! l1) as [d|]; cbn; [done|].
                 by rewrite lookup_empty.
              ** cbn. by rewrite !lookup_empty.
        -- rewrite decide_False by (intros [= _ Hq]; by destruct q).
           rewrite node_at_set_file.
           destruct (dirs t !! l0) as [c|]; cbn [from_option id].
           ++ destruct (dirs c !! l1) as [d|]; cbn [from_option id]; [done|].
              by rewrite node_at_leaf.
           ++ cbn [dirs]. rewrite lookup_empty. cbn [from_option id].
              by rewrite node_at_leaf.
      * rewrite lookup_insert_ne by done.
        rewrite decide_False by (intros [=]; done).
        destruct (dirs t !! l0) as [c|]; cbn [from_option id]; [done|].
        cbn [dirs]. by rewrite lookup_empty.
    + rewrite lookup_insert_ne by done.
      rewrite decide_False by (intros [=]; done). done.
Qed.

(** The directories after [tree_insert]: those that were there, and the
    two of the path. *)
Lemma node_at_tree_insert_1 (l0 l1 l2 : string) (ident : Z) (t : FSNode)
    (a : string) :
  is_Some (node_at (tree_insert l0 l1 l2 ident t) [a])
  ↔ a = l0 ∨ is_Some (node_at t [a]).
Proof.
  rewrite tree_insert_eq. cbn zeta. cbn [node_at dirs].
  destruct (decide (a = l0)) as [->|Ha].
  - rewrite lookup_insert_eq. split; [by left | eauto].
  - rewrite lookup_insert_ne by done. split; [by right|].
    by intros [?|?].
Qed.

Lemma node_at_tree_insert_2 (l0 l1 l2 : string) (ident : Z) (t : FSNode)
    (a b : string) :
  is_Some (node_at (tree_insert l0 l1 l2 ident t) [a; b])
  ↔ (a = l0 ∧ b = l1) ∨ is_Some (node_at t [a; b]).
Proof.
  rewrite tree_insert_eq. cbn zeta. cbn [node_at dirs].
  destruct (decide (a = l0)) as [->|Ha].
  - rewrite lookup_insert_eq. cbn [dirs].
    destruct (decide (b = l1)) as [->|Hb].
    + rewrite lookup_insert_eq. split; [by left | eauto].
    + rewrite lookup_insert_ne by done.
      destruct (dirs t !! l0) as [c|]; cbn [from_option id dirs].
      * split; [by right|]. by intros [[_ ?]|?].
      * rewrite lookup_empty. split; [by intros [? ?]|].
        intros [[_ ?]|[? ?]]; done.
  - rewrite lookup_insert_ne by done. split; [by right|].
    by intros [[? _]|?].
Qed.

Lemma node_at_tree_insert_3 (l0 l1 l2 : string) (ident : Z) (t : FSNode)
    (a b x : string) (q : list string) :
  is_Some (node_at (tree_insert l0 l1 l2 ident t) (a :: b :: x :: q))
  ↔ is_Some (node_at t (a :: b :: x :: q)).
Proof.
  rewrite tree_insert_eq. cbn zeta. cbn [node_at dirs].
  destruct (decide (a = l0)) as [->|Ha].
  - rewrite lookup_insert_eq. cbn [dirs].
    destruct (decide (b = l1)) as [->|Hb].
    + rewrite lookup_insert_eq. cbn [set_file dirs].
      destruct (dirs t !! l0) as [c|]; cbn [from_option id dirs].
      * destruct (dirs c !! l1) as [d|]; cbn [from_option id dirs]; [done|].
        rewrite lookup_empty. done.
      * rewrite !lookup_empty. cbn [from_option id dirs].
        rewrite lookup_empty. done.
    + rewrite lookup_insert_ne by done.
      destruct (dirs t !! l0) as [c|]; cbn [from_option id dirs]; [done|].
      rewrite lookup_empty. done.
  - by rewrite lookup_insert_ne.
Qed.


End mount_loop.

(** [adddir] with a list that reads [['']]: the directory is added at the
    root, and the list still reads [['']]. *)
Lemma adddir_keeps_root_path_list :
  let w := set_heap <[0%nat := [""%string]]> empty_world in
  contents w 0%nat = [""%string]
  ∧ ∃ w', FSNode.adddir [] 0%nat "x" None w = (Ok tt, w')
          ∧ contents w' 0%nat = [""%string]
          ∧ contents w' 0%nat ≠ [].
Proof.
  intros w. split; [reflexivity|].
  destruct (FSNode.adddir [] 0%nat "x" None w) as [r w'] eqn:Hrun.
  assert (r = Ok tt) as ->.
  { change r with (r, w').1. rewrite <- Hrun. vm_compute. reflexivity. }
  assert (contents w' 0%nat = [""%string]) as Hc.
  { change w' with (Ok tt, w').2. rewrite <- Hrun. vm_compute. reflexivity. }
  exists w'. split; [done|]. split; [exact Hc|]. by rewrite Hc.
Qed.



(** A walk to the album directory of the example world: the two
    segments are gone from the list when [getnode] returns. *)
Lemma getnode_consumes_its_argument_witness :
  let w := set_heap <[0%nat := ["A"; "B (2001) [MP3]"]%string]> example_world in
  contents w 0%nat = ["A"; "B (2001) [MP3]"]%string
  ∧ ∃ node w', FSNode.getnode [] 0%nat None w = (Ok node, w')
               ∧ contents w' 0%nat = [].
Proof.
  intros w. split; [reflexivity|].
  destruct (FSNode.getnode [] 0%nat None w) as [r w'] eqn:Hrun.
  assert (∃ node, r = Ok node) as [node ->].
  { change r with (r, w').1. rewrite <- Hrun. vm_compute. eauto. }
  exists node, w'. split; [reflexivity|].
  exact (proj1 (getnode_consumes_its_argument (H := example_unicode))
           [] 0%nat None w node w' Hrun).
Defined.


(** * More of the code

    Properties of the functions around those above: the instance count
    and the reads and writes of [FileHandler], [listdir], the whole of
    [mount], and [getattr] and [access]. *)

(** ** [FileHandler.open] and [FileHandler.release] *)

Lemma set_instance_count_id (self : FileHandler.t) :
  FileHandler.set_instance_count (FileHandler.instance_count self) self = self.
Proof. by destruct self. Qed.

Lemma releases_positive (k : nat) :
  ∀ self m,
    FileHandler.instance_count self = Z.of_nat k →
    releases (k + m) self
    = (replicate k false ++ replicate m true,
       FileHandler.set_instance_count 0 self).
Proof.
  induction k as [|k IH]; intros self m Hcount.
  - cbn [Nat.add replicate app].
    assert (FileHandler.set_instance_count 0 self = self) as ->.
    { change 0 with (Z.of_nat 0). rewrite <- Hcount.
      apply set_instance_count_id. }
    induction m as [|m IHm]; [done|].
    cbn [releases replicate]. unfold FileHandler.release. run.
    rewrite Hcount. change (Z.of_nat 0 >? 0) with false. cbn iota beta.
    by rewrite IHm.
  - cbn [Nat.add releases replicate app]. unfold FileHandler.release. run.
    rewrite Hcount. destruct (Z.gtb_spec (Z.of_nat (S k)) 0); [|lia].
    rewrite (IH _ m); [done|]. cbn. lia.
Qed.

(** X9.  The instance count of a handler.  A handler whose count is
    [k] answers [False] to the next [k] calls of [release] and [True] to
    every call after them, and its count ends at 0 and never goes below;
    nothing else of the handler changes.  In particular the handler that
    [__init__] leaves, with the count 1, answers [False] to its first
    [release].  A call of [open] followed by one of [release] leaves the
    handler as it was. *)
Theorem release_counts_down (self : FileHandler.t) (k m : nat) :
  FileHandler.instance_count self = Z.of_nat k →
  releases (k + m) self
  = (replicate k false ++ replicate m true,
     FileHandler.set_instance_count 0 self)
  ∧ (FileHandler.open ≫= λ _, FileHandler.release) self = (Ok false, self).
Proof.
  intros Hcount. split; [by apply releases_positive|].
  unfold FileHandler.open, FileHandler.release. run. cbn.
  destruct (Z.gtb_spec (FileHandler.instance_count self + 1) 0); [|lia].
  f_equal. replace (FileHandler.instance_count self + 1 - 1)
    with (FileHandler.instance_count self) by lia.
  by destruct self.
Qed.

(** The example handler has the count 1: the first release answers
    [False], the second and the third [True]. *)
Lemma release_counts_down_witness :
  FileHandler.instance_count example_flac_handler = Z.of_nat 1
  ∧ (releases 3 example_flac_handler).1 = [false; true; true]
  ∧ FileHandler.instance_count (releases 3 example_flac_handler).2 = 0.
Proof.
  assert (FileHandler.instance_count example_flac_handler = Z.of_nat 1)
    as Hcount by reflexivity.
  split; [exact Hcount|].
  pose proof (proj1 (release_counts_down example_flac_handler 1 2 Hcount))
    as Hrel.
  change (1 + 2)%nat with 3%nat in Hrel. rewrite Hrel.
  split; reflexivity.
Defined.

(** ** What [write] stores *)

(** X10.  [write] stores nothing.  A write into the header of a FLAC
    handler begins by decoding the overlaid stream, which raises for
    every stream; so however [write] is called, it returns without a
    value or raises, never with a number of bytes, and the handler and
    the library are afterwards what they were before. *)
Theorem write_stores_nothing `{Mutagen} (offset : Z) (buf : bytes)
    (st st' : FileHandler.state) r :
  FileHandler.write offset buf st = (r, st') →
  st' = st ∧ (r = Ok None ∨ ∃ e, r = Raise e).
Proof.
  destruct st as [self lib]. unfold FileHandler.write. run.
  destruct (attr (FileHandler.bound self)) as [bound|e];
    [|intros [= <- <-]; eauto].
  destruct (offset <? bound); [|intros [= <- <-]; eauto].
  destruct (attr (FileHandler.header self)) as [header|e];
    [|intros [= <- <-]; eauto].
  destruct (decide _) as [_|_]; [|intros [= <- <-]; eauto].
  unfold FileHandler.try_except_IOError.
  match goal with
  | |- context [FileHandler.update_tags ?filedata _ _] =>
      rewrite (update_tags_decode_error filedata buf (self, lib)
                 AttributeError (new_raises (Bytes filedata)))
  end.
  cbn. intros [= <- <-]; eauto.
Qed.

(** A byte written into the first block of the example header. *)
Lemma write_stores_nothing_witness :
  ∃ r st',
    @FileHandler.write example_mutagen 8 [x07]
      (example_flac_handler, example_library) = (r, st')
    ∧ r = Raise AttributeError
    ∧ st' = (example_flac_handler, example_library)
    ∧ (r = Ok None ∨ ∃ e, r = Raise e).
Proof.
  destruct (@FileHandler.write example_mutagen 8 [x07]
              (example_flac_handler, example_library)) as [r st'] eqn:Hrun.
  exists r, st'. split; [reflexivity|].
  assert (r = Raise AttributeError) as Hr.
  { change r with (r, st').1. rewrite <- Hrun. vm_compute. reflexivity. }
  split; [exact Hr|].
  exact (@write_stores_nothing example_mutagen 8 [x07]
           (example_flac_handler, example_library) st' r Hrun).
Defined.

(** ** Reads in a row *)

Lemma slice_slice_app {A} (s : list A) (a b c : Z) :
  0 ≤ a → a ≤ b → b ≤ c → slice s a b ++ slice s b c = slice s a c.
Proof.
  intros Ha Hb Hc. rewrite !slice_nonneg by lia.
  replace (Z.to_nat c - Z.to_nat a)%nat
    with ((Z.to_nat b - Z.to_nat a) + (Z.to_nat c - Z.to_nat b))%nat by lia.
  rewrite <- take_take_drop, drop_drop. do 3 f_equal. lia.
Qed.

Lemma len_slice_le {A} (s : list A) (a b : Z) :
  0 ≤ a → a ≤ b → len (slice s a b) ≤ b - a.
Proof.
  intros Ha Hb. rewrite slice_nonneg by lia. unfold len.
  rewrite length_take. lia.
Qed.

Lemma slice_past_end {A} (s : list A) (a b : Z) :
  len s ≤ a → a ≤ b → slice s a b = [].
Proof.
  intros Ha Hb. unfold len in Ha. rewrite slice_nonneg by lia.
  rewrite drop_ge by lia. apply take_nil.
Qed.

(** What [read] answers is the window of the virtual stream. *)
Lemma read_window (self : FileHandler.t) (h : bytes) (size offset : Z) :
  FileHandler.header self = Some h →
  FileHandler.bound self = Some (len h) →
  0 ≤ size → 0 ≤ offset →
  FileHandler.read self size offset
  = Ok (slice (h ++ FileHandler.music_data self) offset (offset + size)).
Proof.
  intros Hh Hb Hsize Hoff. unfold FileHandler.read. rewrite Hb, Hh. cbn.
  pose proof (len_nonneg h) as Hlen.
  destruct (Z.ltb_spec offset (len h)) as [Hin|Hout].
  - destruct (Z.ltb_spec (offset + size) (len h)) as [Hshort|Hlong].
    + by rewrite slice_app_l by lia.
    + rewrite slice_app_across by lia. do 3 f_equal. lia.
  - rewrite slice_app_r by lia. do 2 f_equal. lia.
Qed.

(** X11.  Reads in a row give the virtual stream.  For a handler whose
    bound is the length of its header, a read of [size1] bytes at
    [offset] followed by a read of [size2] bytes where the first one
    ended give together what one read of [size1 + size2] bytes at
    [offset] gives.  No read answers more bytes than were asked for, and
    a read at or after the end of the header and payload answers the
    empty string. *)
Theorem read_in_a_row (self : FileHandler.t) (h : bytes)
    (size1 size2 offset : Z) :
  FileHandler.header self = Some h →
  FileHandler.bound self = Some (len h) →
  0 ≤ size1 → 0 ≤ size2 → 0 ≤ offset →
  ∃ data1 data2,
    FileHandler.read self size1 offset = Ok data1
    ∧ FileHandler.read self size2 (offset + size1) = Ok data2
    ∧ FileHandler.read self (size1 + size2) offset = Ok (data1 ++ data2)
    ∧ len data1 ≤ size1
    ∧ (len h + len (FileHandler.music_data self) ≤ offset → data1 = []).
Proof.
  intros Hh Hb H1 H2 Hoff.
  rewrite !(read_window self h) by (done || lia).
  eexists _, _. split; [done|]. split; [done|]. split; [|split].
  - f_equal. rewrite slice_slice_app by lia. f_equal. lia.
  - pose proof (len_slice_le (h ++ FileHandler.music_data self) offset
                  (offset + size1)). lia.
  - intros Hend. apply slice_past_end; [rewrite len_app|]; lia.
Qed.

(** Two reads of the example handler that meet two bytes before the
    header ends. *)
Lemma read_in_a_row_witness :
  let self := example_flac_handler in
  FileHandler.read self 5 10 = Ok [x81; x00; x00; x03; x00]
  ∧ FileHandler.read self 4 15 = Ok [x00; x00; xff; xf8]
  ∧ FileHandler.read self 9 10
    = Ok ([x81; x00; x00; x03; x00] ++ [x00; x00; xff; xf8]).
Proof.
  intros self.
  assert (0 ≤ 5) as H5 by lia. assert (0 ≤ 4) as H4 by lia.
  assert (0 ≤ 10) as H10 by lia.
  destruct (read_in_a_row self example_header 5 4 10 eq_refl eq_refl H5 H4 H10)
    as (data1 & data2 & Hr1 & Hr2 & Hr & _).
  assert (data1 = [x81; x00; x00; x03; x00]) as Hd1.
  { assert (Ok data1 = Ok [x81; x00; x00; x03; x00]) as [=]; [|done].
    rewrite <- Hr1. reflexivity. }
  assert (data2 = [x00; x00; xff; xf8]) as Hd2.
  { assert (Ok data2 = Ok [x00; x00; xff; xf8]) as [=]; [|done].
    rewrite <- Hr2. reflexivity. }
  rewrite Hd1 in Hr1, Hr. rewrite Hd2 in Hr2, Hr.
  split; [exact Hr1|]. split; [exact Hr2 | exact Hr].
Defined.

(** ** A walk that fails *)

(** [getnode] on a path that does not exist: [KeyError], at the first
    name that is missing; the tree is as before. *)
Lemma getnode_fuel_missing (l : list string) :
  ∀ fuel self elements root w,
    heap w !! elements = Some l → (length l ≤ fuel)%nat →
    is_Some (node_at (directory_structure w) (default self root)) →
    node_at (directory_structure w) (default self root ++ l) = None →
    ∃ rest, FSNode.getnode_fuel fuel self elements root w
            = (Raise KeyError, set_heap <[elements := rest]> w).
Proof.
  induction l as [|x l IH]; intros fuel self elements root w Hl Hfuel Hroot Hnone.
  - rewrite app_nil_r in Hnone. rewrite Hnone in Hroot. by destruct Hroot.
  - rewrite getnode_fuel_unfold. run. unfold list_read.
    rewrite (contents_lookup w elements _ Hl).
    destruct fuel as [|fuel]; [cbn in Hfuel; lia|].
    unfold list_pop0. rewrite (contents_lookup w elements _ Hl).
    unfold getitem_dirs, deref. run. cbn [directory_structure set_heap].
    destruct Hroot as [n Hn]. rewrite Hn. unfold getitem.
    destruct (dirs n !! x) as [child|] eqn:Hchild.
    + destruct (IH fuel self elements (Some (default self root ++ [x]))
                  (set_heap <[elements := l]> w)) as [rest Hrest].
      * cbn. by rewrite lookup_insert_eq.
      * cbn in Hfuel. lia.
      * cbn [from_option id directory_structure set_heap].
        rewrite (node_at_snoc _ _ _ _ Hn), Hchild. eauto.
      * cbn [from_option id directory_structure set_heap].
        by rewrite <- app_assoc.
      * rewrite Hrest. exists rest. by rewrite set_heap_insert_insert.
    + by exists l.
Qed.

(** A walk from the root on a new list: the list display, then
    [getnode]. *)
Lemma walk_new_list (w : world) (l : list string) :
  ∃ w', FSNode.getnode [] (fresh (dom (heap w))) None
          (set_heap <[fresh (dom (heap w)) := l]> w)
        = (match node_at (directory_structure w) l with
           | Some _ => Ok l
           | None => Raise KeyError
           end, w')
        ∧ directory_structure w' = directory_structure w
        ∧ structure_depth w' = structure_depth w
        ∧ ∀ k, is_Some (heap w !! k) → heap w' !! k = heap w !! k.
Proof.
  set (elements := fresh (dom (heap w))).
  set (w1 := set_heap <[elements := l]> w).
  assert (heap w1 !! elements = Some l) as Hl
    by (cbn; by rewrite lookup_insert_eq).
  assert (∀ rest k, is_Some (heap w !! k) →
            heap (set_heap <[elements := rest]> w1) !! k = heap w !! k)
    as Hframe.
  { intros rest k Hk. cbn. rewrite !lookup_insert_ne; [done|..];
      intros <-; apply (is_fresh (dom (heap w))); by apply elem_of_dom. }
  destruct (node_at (directory_structure w) l) as [n|] eqn:Hnode.
  - rewrite (getnode_ok [] elements None w1 l Hl) by (cbn; rewrite Hnode; eauto).
    eexists. split; [done|]. split; [done|]. split; [done|]. apply Hframe.
  - unfold FSNode.getnode. run. unfold list_read.
    rewrite (contents_lookup w1 elements l Hl).
    destruct (getnode_fuel_missing l (length l) [] elements None w1)
      as [rest ->]; [done|lia|cbn; eauto|done|].
    eexists. split; [done|]. split; [done|]. split; [done|]. apply Hframe.
Qed.

(** ** [FSNode.listdir] *)

Lemma elem_of_keys `{Countable K} {A} (d : gmap K A) (k : K) :
  k ∈ keys d ↔ is_Some (d !! k).
Proof.
  unfold keys. rewrite list_elem_of_fmap. split.
  - intros ([k' a] & -> & Hin). apply elem_of_map_to_list in Hin. eauto.
  - intros [a Ha]. exists (k, a). split; [done|].
    by apply elem_of_map_to_list.
Qed.

Lemma NoDup_keys `{Countable K} {A} (d : gmap K A) : NoDup (keys d).
Proof. apply NoDup_fst_map_to_list. Qed.

(** X12.  [listdir] lists the node at the end of the path it is given:
    each name of a sub-directory (or of a file) of that node once, and
    no other name.  The tree is not changed.  A path that reads [['']]
    stands for the root and is left as it is; any other path is empty
    afterwards.  When the path leads nowhere, [KeyError] is raised. *)
Theorem listdir_lists_the_node (w : world) (elements : loc)
    (p : list string) (directories : bool) :
  heap w !! elements = Some p →
  let target := if FSNode.is_root_path p then [] else p in
  (∀ n, node_at (directory_structure w) target = Some n →
        ∃ names w',
          FSNode.listdir [] elements directories None w = (Ok names, w')
          ∧ NoDup names
          ∧ (∀ name, name ∈ names
                     ↔ if directories then is_Some (dirs n !! name)
                       else is_Some (files n !! name))
          ∧ directory_structure w' = directory_structure w
          ∧ contents w' elements = if FSNode.is_root_path p then p else [])
  ∧ (node_at (directory_structure w) target = None →
     ∃ w', FSNode.listdir [] elements directories None w = (Raise KeyError, w')
           ∧ directory_structure w' = directory_structure w).
Proof.
  intros Hp target. unfold FSNode.listdir. run. unfold list_read.
  rewrite (contents_lookup w elements p Hp). cbn [from_option id].
  destruct (FSNode.is_root_path p) eqn:Hroot; subst target.
  - (* the walk is made on a new, empty list *)
    split; [|done].
    intros n [= <-]. unfold list_new.
    set (fresh_list := fresh (dom (heap w))).
    assert (fresh_list ≠ elements) as Hne.
    { intros Heq. apply (is_fresh (dom (heap w))). fold fresh_list.
      rewrite Heq. apply elem_of_dom. eauto. }
    rewrite (getnode_ok [] fresh_list (Some []) _ []);
      [|cbn; by rewrite lookup_insert_eq|cbn; eauto].
    unfold deref. cbn [directory_structure set_heap app from_option id].
    assert (∀ names,
              NoDup names →
              (∀ name, name ∈ names
                       ↔ if directories
                         then is_Some (dirs (directory_structure w) !! name)
                         else is_Some (files (directory_structure w) !! name)) →
              ∃ names' w',
                (Ok names, set_heap <[fresh_list := []]>
                             (set_heap <[fresh_list := []]> w))
                = (Ok names', w')
                ∧ NoDup names'
                ∧ (∀ name, name ∈ names'
                           ↔ if directories
                             then is_Some (dirs (directory_structure w) !! name)
                             else is_Some (files (directory_structure w) !! name))
                ∧ directory_structure w' = directory_structure w
                ∧ contents w' elements = p) as Hdone.
    { intros names Hnd Hin. exists names. eexists. split; [done|].
      split; [done|]. split; [done|]. split; [done|].
      unfold contents. cbn. rewrite !lookup_insert_ne by done.
      by rewrite Hp. }
    destruct directories; apply Hdone;
      [apply NoDup_keys | apply elem_of_keys
       | apply NoDup_keys | apply elem_of_keys].
  - split.
    + intros n Hn.
      rewrite (getnode_ok [] elements (Some []) w p Hp) by (cbn; eauto).
      unfold deref. cbn [directory_structure set_heap app from_option id].
      rewrite Hn.
      destruct directories; eexists _, _; (split; [done|]);
        (split; [apply NoDup_keys|]); (split; [apply elem_of_keys|]);
        (split; [done|]); unfold contents; cbn; by rewrite lookup_insert_eq.
    + intros Hnone. unfold FSNode.getnode. run. unfold list_read.
      rewrite (contents_lookup w elements p Hp).
      destruct (getnode_fuel_missing p (length p) [] elements (Some []) w)
        as [rest ->]; [done|lia|cbn; eauto|done|].
      by eexists.
Qed.

(** The album directory of the example world holds one file; the list
    that named the directory is empty afterwards. *)
Lemma listdir_lists_the_node_witness :
  let w := set_heap <[0%nat := ["A"; "B (2001) [MP3]"]%string]> example_world in
  heap w !! 0%nat = Some ["A"; "B (2001) [MP3]"]%string
  ∧ ∃ n names w',
      node_at (directory_structure w) ["A"; "B (2001) [MP3]"]%string = Some n
      ∧ FSNode.listdir [] 0%nat false None w = (Ok names, w')
      ∧ ("01 - A - T.mp3"%string ∈ names ↔ is_Some (files n !! "01 - A - T.mp3"%string))
      ∧ contents w' 0%nat = [].
Proof.
  intros w.
  assert (heap w !! 0%nat = Some ["A"; "B (2001) [MP3]"]%string) as Hp
    by reflexivity.
  split; [exact Hp|].
  destruct (node_at (directory_structure w) ["A"; "B (2001) [MP3]"]%string)
    as [n|] eqn:Hn; [|by vm_compute in Hn].
  destruct (proj1 (listdir_lists_the_node w 0%nat _ false Hp) n Hn)
    as (names & w' & Hrun & _ & Hin & _ & Hc).
  exists n, names, w'. split; [reflexivity|]. split; [exact Hrun|].
  split; [exact (Hin _) | exact Hc].
Defined.

(** ** [FileHandler.__init__] on a path that does not resolve *)

(** X13.  How [FileHandler(path, lib)] fails when the path does not
    lead to a file of the library.  With the directory part of the path
    missing from the tree, or the file name missing from the directory,
    [KeyError]; with a path of fewer components than the depth of the
    tree, [IndexError]; with an identifier that the library does not
    have, [AttributeError] (from [None.path]); with an item whose file is
    not on the disk, [IOError]. *)
Theorem init_lookup_errors `{Mutagen} (path : string) (lib : Library)
    (disk : Disk) (w : world) :
  let pathsplit := split "/" (str_slice_from path 1) in
  let dir := slice pathsplit 0 (structure_depth w - 1) in
  let outcome := (FileHandler.init path lib disk w).1 in
  (node_at (directory_structure w) dir = None → outcome = Raise KeyError)
  ∧ (∀ n e, node_at (directory_structure w) dir = Some n →
            index pathsplit (structure_depth w - 1) = Raise e →
            outcome = Raise e ∧ e = IndexError)
  ∧ (∀ n name, node_at (directory_structure w) dir = Some n →
               index pathsplit (structure_depth w - 1) = Ok name →
               files n !! name = None → outcome = Raise KeyError)
  ∧ (∀ n name id, node_at (directory_structure w) dir = Some n →
                  index pathsplit (structure_depth w - 1) = Ok name →
                  files n !! name = Some id → lib !! id = None →
                  outcome = Raise AttributeError)
  ∧ (∀ n name id item, node_at (directory_structure w) dir = Some n →
                       index pathsplit (structure_depth w - 1) = Ok name →
                       files n !! name = Some id → lib !! id = Some item →
                       disk !! Item.path item = None →
                       outcome = Raise IOError).
Proof.
  intros pathsplit dir outcome. subst outcome.
  unfold FileHandler.init. fold pathsplit. run. fold dir. unfold list_new.
  destruct (walk_new_list w dir) as (w' & -> & Htree & Hdepth & _).
  split; [by intros ->|].
  split; [|split; [|split]].
  - intros n e Hn Hindex. rewrite Hn. unfold deref. rewrite Htree, Hn, Hindex.
    split; [done|]. unfold index in Hindex.
    repeat case_match; by simplify_eq.
  - intros n name Hn Hindex Hfile. rewrite Hn. unfold deref.
    rewrite Htree, Hn, Hindex. unfold getitem. by rewrite Hfile.
  - intros n name id Hn Hindex Hfile Hlib. rewrite Hn. unfold deref.
    rewrite Htree, Hn, Hindex. unfold getitem. rewrite Hfile.
    unfold Library in *. by rewrite Hlib.
  - intros n name id item Hn Hindex Hfile Hlib Hdisk. rewrite Hn. unfold deref.
    rewrite Htree, Hn, Hindex. unfold getitem. rewrite Hfile.
    unfold Library in *. rewrite Hlib. cbn [attr].
    destruct (_ !! Item.path item) as [data|] eqn:Hd; [|done].
    exfalso. revert Hd. change (disk !! Item.path item = Some data → False).
    by rewrite Hdisk.
Qed.

(** In the example world: an artist that was not mounted, and an item
    that is mounted but whose identifier is not in the library given. *)
Lemma init_lookup_errors_witness :
  node_at (directory_structure example_world)
    (slice (split "/" (str_slice_from "/Z/B (2001) [MP3]/01 - A - T.mp3" 1)) 0
       (structure_depth example_world - 1)) = None
  ∧ (@FileHandler.init example_mutagen "/Z/B (2001) [MP3]/01 - A - T.mp3"
       example_library example_disk example_world).1 = Raise KeyError.
Proof.
  assert (node_at (directory_structure example_world)
            (slice (split "/" (str_slice_from "/Z/B (2001) [MP3]/01 - A - T.mp3" 1))
               0 (structure_depth example_world - 1)) = None) as Hnone
    by (vm_compute; reflexivity).
  split; [exact Hnone|].
  exact (proj1 (@init_lookup_errors example_mutagen
                  "/Z/B (2001) [MP3]/01 - A - T.mp3" example_library
                  example_disk example_world) Hnone).
Defined.

(** ** The whole loop of [mount] *)

Section mount.
Context `{Unicode}.

Lemma insert_item_segments (t : FSNode) (item : Item.t) (l0 l1 l2 : string) :
  segments item = [l0; l1; l2] →
  insert_item t item = tree_insert l0 l1 l2 (Item.id item) t.
Proof. unfold insert_item. by intros ->. Qed.

Lemma insert_item_undecodable (t : FSNode) (item : Item.t) :
  decodable item = false → insert_item t item = t.
Proof.
  intros Hdec. unfold insert_item. by rewrite (segments_undecodable item Hdec).
Qed.

(** The loop goes on until an item makes [template_mapping] raise. *)
Lemma for_each_mount_item (items : list Item.t) :
  ∀ w, ∃ w',
    for_each items (mount_item (templates_of PATH_FORMAT) 3) w
    = (if forallb decodable items then Ok tt else Raise UnicodeDecodeError, w')
    ∧ directory_structure w'
      = foldl insert_item (directory_structure w) (resolved items)
    ∧ structure_depth w' = structure_depth w.
Proof.
  induction items as [|item items IH]; intros w; [by exists w|].
  cbn [forallb resolved]. destruct (decodable item) eqn:Hdec.
  - destruct (segments_three item Hdec) as (l0 & l1 & l2 & Hseg & Hl0 & Hsubbed).
    destruct (mount_item_tree (templates_of PATH_FORMAT) item w l0 l1 l2
                Hdec Hsubbed Hl0) as (w1 & Hrun & Htree & Hdepth).
    destruct (IH w1) as (w' & Hrest & Htree' & Hdepth').
    exists w'. cbn [for_each foldl andb]. unfold mbind, M_bind.
    rewrite Hrun, Hrest.
    split; [done|]. split; [|congruence].
    by rewrite Htree', Htree, (insert_item_segments _ _ l0 l1 l2).
  - exists w. cbn [for_each foldl andb]. unfold mbind, M_bind.
    by rewrite (mount_item_undecodable _ _ _ _ Hdec).
Qed.

Lemma mount_tree (items : list Item.t) (w : world) :
  ∃ w', mount items w
        = (if forallb decodable items then Ok tt
           else Raise UnicodeDecodeError, w')
        ∧ directory_structure w'
          = foldl insert_item (mkFSNode ∅ ∅) (resolved items)
        ∧ structure_depth w' = 3.
Proof.
  unfold mount. change (structure_depth_of PATH_FORMAT) with 3.
  unfold mbind, M_bind, modify.
  match goal with
  | |- context [for_each items _ ?w0] =>
      destruct (for_each_mount_item items w0) as (w' & -> & Htree & Hdepth)
  end.
  exists w'. split; [by destruct (forallb decodable items)|]. done.
Qed.

Lemma resolved_all (items : list Item.t) :
  forallb decodable items = true → resolved items = items.
Proof.
  induction items as [|item items IH]; [done|]. cbn.
  destruct (decodable item); [|done]. cbn. intros Hall. by rewrite IH.
Qed.

Lemma mounted_snoc (items : list Item.t) (item : Item.t) (path : list string) :
  mounted (items ++ [item]) path
  = if decide (segments item = path) then Some item else mounted items path.
Proof.
  unfold mounted. rewrite filter_app.
  destruct (decide (segments item = path)) as [Heq|Hne].
  - rewrite (filter_cons_True _ item []) by done. rewrite filter_nil.
    by rewrite last_snoc.
  - rewrite (filter_cons_False _ item []) by done. rewrite filter_nil.
    by rewrite app_nil_r.
Qed.

Lemma file_at_leaf (dir : list string) (name : string) :
  file_at (mkFSNode ∅ ∅) dir name = None.
Proof.
  unfold file_at. rewrite node_at_leaf. destruct dir; [|done].
  cbn. by rewrite lookup_empty.
Qed.

Lemma file_at_mounted (items : list Item.t) (dir : list string) (name : string) :
  file_at (foldl insert_item (mkFSNode ∅ ∅) items) dir name
  = Item.id <$> mounted items (dir ++ [name]).
Proof.
  induction items as [|item items IH] using rev_ind.
  - by rewrite file_at_leaf.
  - rewrite foldl_snoc, mounted_snoc.
    destruct (decodable item) eqn:Hdec.
    + destruct (segments_three item Hdec) as (l0 & l1 & l2 & Hseg & _ & _).
      rewrite (insert_item_segments _ _ l0 l1 l2 Hseg), file_at_tree_insert, Hseg.
      destruct (decide (dir ++ [name] = [l0; l1; l2])) as [Heq|Hne].
      * by rewrite decide_True.
      * by rewrite decide_False.
    + rewrite (insert_item_undecodable _ _ Hdec), (segments_undecodable _ Hdec).
      rewrite decide_False; [done|]. by destruct dir.
Qed.


Lemma node_at_mounted (items : list Item.t) :
  let t := foldl insert_item (mkFSNode ∅ ∅) items in
  (∀ a, is_Some (node_at t [a])
        ↔ ∃ item, item ∈ items ∧ take 1 (segments item) = [a])
  ∧ (∀ a b, is_Some (node_at t [a; b])
            ↔ ∃ item, item ∈ items ∧ take 2 (segments item) = [a; b])
  ∧ (∀ a b x q, node_at t (a :: b :: x :: q) = None).
Proof.
  induction items as [|item items IH] using rev_ind.
  - cbn. split; [|split].
    + intros a. rewrite lookup_empty. split; [by intros [? ?]|].
      by intros (? & ?%elem_of_nil & _).
    + intros a b. rewrite lookup_empty. split; [by intros [? ?]|].
      by intros (? & ?%elem_of_nil & _).
    + intros a b x q. by rewrite lookup_empty.
  - cbn zeta in *. rewrite foldl_snoc.
    destruct IH as (IH1 & IH2 & IH3).
    destruct (decodable item) eqn:Hdec.
    + destruct (segments_three item Hdec) as (l0 & l1 & l2 & Hseg & _ & _).
      rewrite (insert_item_segments _ _ l0 l1 l2 Hseg).
      split; [|split].
      * intros a. rewrite node_at_tree_insert_1, IH1. split.
        -- intros [->|(i & Hi & Ha)].
           ++ exists item. split; [|by rewrite Hseg].
              apply elem_of_app. right. by apply list_elem_of_singleton.
           ++ exists i. split; [|done]. apply elem_of_app. by left.
        -- intros (i & [Hi|Hi%list_elem_of_singleton]%elem_of_app & Ha).
           ++ right. eauto.
           ++ subst i. rewrite Hseg in Ha. left. by injection Ha.
      * intros a b. rewrite node_at_tree_insert_2, IH2. split.
        -- intros [[-> ->]|(i & Hi & Ha)].
           ++ exists item. split; [|by rewrite Hseg].
              apply elem_of_app. right. by apply list_elem_of_singleton.
           ++ exists i. split; [|done]. apply elem_of_app. by left.
        -- intros (i & [Hi|Hi%list_elem_of_singleton]%elem_of_app & Ha).
           ++ right. eauto.
           ++ subst i. rewrite Hseg in Ha. left. by injection Ha.
      * intros a b x q.
        destruct (node_at (tree_insert _ _ _ _ _) _) eqn:Hn; [|done].
        assert (is_Some (node_at (foldl insert_item (mkFSNode ∅ ∅) items)
                           (a :: b :: x :: q))) as [? Hs].
        { apply (node_at_tree_insert_3 l0 l1 l2 (Item.id item)). eauto. }
        by rewrite IH3 in Hs.
    + rewrite (insert_item_undecodable _ _ Hdec).
      pose proof (segments_undecodable _ Hdec) as Hseg.
      split; [|split; [|exact IH3]].
      * intros a. rewrite IH1. split.
        -- intros (i & Hi & Ha). exists i. split; [|done].
           apply elem_of_app. by left.
        -- intros (i & [Hi|Hi%list_elem_of_singleton]%elem_of_app & Ha).
           ++ eauto.
           ++ subst i. by rewrite Hseg in Ha.
      * intros a b. rewrite IH2. split.
        -- intros (i & Hi & Ha). exists i. split; [|done].
           apply elem_of_app. by left.
        -- intros (i & [Hi|Hi%list_elem_of_singleton]%elem_of_app & Ha).
           ++ eauto.
           ++ subst i. by rewrite Hseg in Ha.
Qed.


End mount.

(** ** The characters of the segments *)

Lemma chars_app (a b : string) : chars (a +:+ b) = chars a ++ chars b.
Proof.
  unfold chars. induction a as [|c a IH]; [done|]. simpl. f_equal. exact IH.
Qed.

Lemma chars_nil (s : string) : chars s = [] ↔ s = ""%string.
Proof. by destruct s. Qed.

Section segments.
Context `{Unicode}.

(** The segments of an item, put together from the rendered fields. *)
Lemma segments_formula (item : Item.t) :
  decodable item = true →
  let artist := if decide (Item.artist item = ""%string)
                then "Unknown Artist"%string
                else replace_unsafe (Item.artist item) in
  let album := if decide (Item.album item = ""%string)
               then "Unknown Album"%string
               else replace_unsafe (Item.album item) in
  let title := if decide (Item.title item = ""%string)
               then "Unknown Track"%string
               else replace_unsafe (Item.title item) in
  let year := if decide (Item.year item = 0) then "Unknown Year"%string
              else str_int (Item.year item) in
  let track := zero_pad 2 (str_int (Item.track item)) in
  let format := replace_unsafe (extension (Item.path item)) in
  segments item
  = [ artist;
      album +:+ " (" +:+ year +:+ ") [" +:+ str_upper format +:+ "]";
      track +:+ " - " +:+ artist +:+ " - " +:+ title +:+ "." +:+ format ]%string.
Proof.
  intros Hdec artist album title year track format.
  apply segments_path_segments; [exact Hdec|].
  unfold path_segments, rendered_fields.
  cbn [list_to_map foldr uncurry fst snd]. unfold uncurry. cbn [fst snd].
  repeat (lookup_field; cbn [mbind option_bind]).
  reflexivity.
Qed.

Lemma no_slash_app (a b : string) :
  ("/"%char ∉ chars (a +:+ b)) ↔ ("/"%char ∉ chars a) ∧ ("/"%char ∉ chars b).
Proof. rewrite chars_app. apply not_elem_of_app. Qed.

Lemma no_slash_re_sub_scan (at_start : bool) (s : string) :
  "/"%char ∉ chars (re_sub_scan at_start s).
Proof.
  revert at_start. induction s as [|c s IH]; intros at_start.
  - apply not_elem_of_nil.
  - cbn [re_sub_scan]. unfold chars. cbn [list_ascii_of_string].
    apply not_elem_of_cons. split; [|apply IH].
    destruct (unsafe_char c) eqn:Hc; cbn [orb]; [done|].
    destruct (at_start && _); [done|].
    intros <-. done.
Qed.

Lemma head_re_sub (s : string) : head (chars (re_sub s)) ≠ Some "."%char.
Proof.
  destruct s as [|c s]; [done|]. unfold re_sub. cbn [re_sub_scan].
  unfold chars. cbn [list_ascii_of_string head]. cbn [andb].
  destruct (unsafe_char c); cbn [orb]; [done|].
  destruct (bool_decide_reflect (c = "."%char)) as [->|Hne]; [done|].
  by intros [= ->].
Qed.

Lemma entry_name_replace_unsafe (s : string) :
  s ≠ ""%string → entry_name (replace_unsafe s).
Proof.
  intros Hs. rewrite <- re_sub_replace_unsafe. split; [|split].
  - by rewrite re_sub_empty.
  - apply no_slash_re_sub_scan.
  - apply head_re_sub.
Qed.

Lemma digit_char_plain (d : Z) :
  0 ≤ d < 10 → digit_char d ≠ "/"%char ∧ digit_char d ≠ "."%char.
Proof.
  intros Hd. assert (d ∈ seqZ 0 10) as Hin by (apply elem_of_seqZ; lia).
  clear Hd. revert d Hin. apply Forall_forall.
  repeat constructor; by vm_compute.
Qed.

Lemma digits_fuel_plain (fuel : nat) :
  ∀ n, 0 ≤ n →
       Forall (λ c, c ≠ "/"%char ∧ c ≠ "."%char) (digits_fuel fuel n).
Proof.
  induction fuel as [|fuel IH]; intros n Hn; [constructor|].
  rewrite digits_fuel_S. destruct (Z.ltb_spec n 10).
  - repeat constructor; by apply digit_char_plain.
  - apply Forall_app. split.
    + apply IH. apply Z.div_pos; lia.
    + repeat constructor; apply digit_char_plain;
        pose proof (Z.mod_pos_bound n 10); lia.
Qed.

Lemma str_int_plain (n : Z) :
  Forall (λ c, c ≠ "/"%char ∧ c ≠ "."%char) (chars (str_int n))
  ∧ str_int n ≠ ""%string.
Proof.
  unfold str_int. destruct (Z.ltb_spec n 0).
  - split; [|done]. unfold chars. cbn [list_ascii_of_string].
    constructor; [done|]. fold (chars (text (digits_fuel (S (Z.to_nat (- n))) (- n)))).
    rewrite chars_text. apply digits_fuel_plain. lia.
  - split; [rewrite chars_text; by apply digits_fuel_plain|].
    intros Hnil. apply (f_equal String.length) in Hnil.
    rewrite length_text in Hnil.
    pose proof (digits_fuel_length (Z.to_nat n) n).
    change (String.length "") with 0%nat in Hnil. lia.
Qed.

Lemma plain_entry_name (s : string) :
  Forall (λ c, c ≠ "/"%char ∧ c ≠ "."%char) (chars s) → s ≠ ""%string →
  entry_name s.
Proof.
  intros Hplain Hne. split; [done|]. split.
  - intros Hin. rewrite Forall_forall in Hplain.
    by destruct (Hplain _ Hin).
  - destruct s as [|c s]; [done|]. unfold chars in *.
    cbn [list_ascii_of_string head] in *.
    apply Forall_cons in Hplain as [[_ Hc] _]. by intros [= ->].
Qed.

Lemma zero_pad_plain (n : Z) : entry_name (zero_pad 2 (str_int n)).
Proof.
  rewrite <- format_02i_zero_pad. unfold format_02i.
  destruct (str_int_plain n) as [Hplain Hne].
  destruct (_ && _).
  - apply plain_entry_name; [|done]. unfold chars.
    cbn [list_ascii_of_string]. by constructor.
  - by apply plain_entry_name.
Qed.

Lemma upper_char_slash (c : ascii) :
  c ≠ "/"%char → upper_char c ≠ "/"%char.
Proof.
  destruct c as [[] [] [] [] [] [] [] []]; by vm_compute.
Qed.

Lemma no_slash_upper (s : string) :
  "/"%char ∉ chars s → "/"%char ∉ chars (upper s).
Proof.
  unfold upper. rewrite chars_text. intros Hs Hin.
  apply list_elem_of_fmap in Hin as (c & Hc & Hin).
  apply (upper_char_slash c); [|done]. by intros ->.
Qed.

Lemma entry_name_app (a b : string) :
  entry_name a → "/"%char ∉ chars b → entry_name (a +:+ b).
Proof.
  intros (Ha & Hslash & Hhead) Hb. split; [|split].
  - by destruct a.
  - by apply no_slash_app.
  - rewrite chars_app. destruct a as [|c a]; [done|]. exact Hhead.
Qed.

(** Text of ASCII is text in UTF-8, and stays text of ASCII under
    [re.sub]. *)
Lemma utf8_valid_ascii (bs : list Z) :
  forallb (λ b, b <? 128) bs = true → utf8_valid bs = true.
Proof.
  unfold utf8_valid. induction bs as [|b bs IH]; [done|].
  cbn [forallb utf8_scan utf8_step]. intros [Hb Hbs]%andb_true_iff.
  rewrite Hb. by apply IH.
Qed.

Lemma is_ascii_decode (s : string) :
  is_ascii s = true
  → utf8_valid ((λ c, Z.of_nat (nat_of_ascii c)) <$> chars s) = true.
Proof.
  unfold is_ascii. intros Hs. apply utf8_valid_ascii.
  induction (chars s) as [|c l IH]; [done|].
  cbn [forallb fmap list_fmap] in *. apply andb_true_iff in Hs as [Hc Hl].
  rewrite IH by done. rewrite andb_true_r.
  apply Nat.ltb_lt in Hc. apply Z.ltb_lt. lia.
Qed.

Lemma is_ascii_re_sub_scan (at_start : bool) (s : string) :
  is_ascii s = true → is_ascii (re_sub_scan at_start s) = true.
Proof.
  unfold is_ascii, chars. revert at_start.
  induction s as [|c s IH]; intros at_start; [done|].
  cbn [re_sub_scan list_ascii_of_string forallb].
  intros [Hc Hs]%andb_true_iff. rewrite (IH false Hs), andb_true_r.
  by destruct (_ || _).
Qed.

(** What the extension of an item has to be for its segments to name
    directory entries: text, whose upper-case form has no slash. *)
Lemma segments_entry_names (item : Item.t) :
  decodable item = true →
  ("/"%char ∉ chars (str_upper (replace_unsafe (extension (Item.path item))))) →
  length (segments item) = 3%nat ∧ Forall entry_name (segments item).
Proof.
  intros Hdec Hupper. rewrite (segments_formula item Hdec). cbn zeta.
  split; [done|].
  assert (∀ s unknown, entry_name unknown →
            entry_name (if decide (s = ""%string) then unknown
                        else replace_unsafe s)) as Htext.
  { intros s unknown Hu. destruct (decide _); [done|].
    by apply entry_name_replace_unsafe. }
  assert (∀ s, "/"%char ∉ chars (replace_unsafe s)) as Hfield.
  { intros s. rewrite <- re_sub_replace_unsafe. apply no_slash_re_sub_scan. }
  assert (entry_name "Unknown Artist") as Hartist
    by (split; [done|split; [apply (bool_decide_unpack _); by vm_compute|done]]).
  assert (entry_name "Unknown Album") as Halbum
    by (split; [done|split; [apply (bool_decide_unpack _); by vm_compute|done]]).
  assert (entry_name "Unknown Track") as Htitle
    by (split; [done|split; [apply (bool_decide_unpack _); by vm_compute|done]]).
  assert (∀ n, "/"%char ∉ chars (if decide (n = 0) then "Unknown Year"%string
                                 else str_int n)) as Hyear.
  { intros n. destruct (decide _);
      [apply (bool_decide_unpack _); by vm_compute|].
    destruct (str_int_plain n) as [Hplain _]. intros Hin.
    rewrite Forall_forall in Hplain. by destruct (Hplain _ Hin). }
  apply Forall_cons. split; [|apply Forall_cons; split;
                                [|apply Forall_cons; split; [|by apply Forall_nil]]].
  - by apply Htext.
  - apply entry_name_app; [by apply Htext|].
    repeat (apply no_slash_app; split);
      first [ apply Hyear | exact Hupper
            | apply (bool_decide_unpack _); by vm_compute ].
  - apply entry_name_app; [apply zero_pad_plain|].
    repeat (apply no_slash_app; split);
      first [ apply Hfield | by apply Htext
            | apply (bool_decide_unpack _); by vm_compute ].
Qed.

(** An extension of ASCII is such a one. *)
Lemma ascii_extension (item : Item.t) :
  is_ascii (extension (Item.path item)) = true →
  decodable item = true
  ∧ ("/"%char
     ∉ chars (str_upper (replace_unsafe (extension (Item.path item))))).
Proof.
  intros Hascii. split; [by apply is_ascii_decode|].
  unfold str_upper. rewrite <- re_sub_replace_unsafe.
  unfold re_sub. rewrite (is_ascii_re_sub_scan true _ Hascii).
  apply no_slash_upper, no_slash_re_sub_scan.
Qed.

(** X16.  The segments of a virtual path can name directory entries.
    For an item whose file has an extension of ASCII, whatever its
    fields hold, the path has three segments, and none of them is empty,
    contains a slash or begins with a dot; in particular no segment is
    ["."] or [".."]. *)
Theorem segments_are_entry_names (item : Item.t) :
  is_ascii (extension (Item.path item)) = true →
  length (segments item) = 3%nat ∧ Forall entry_name (segments item).
Proof.
  intros [Hdec Hupper]%ascii_extension. by apply segments_entry_names.
Qed.

End segments.

(** The segments of the example item. *)
Lemma segments_are_entry_names_witness :
  is_ascii (extension (Item.path example_item)) = true
  ∧ segments (H := example_unicode) example_item
    = ["A"; "B (2001) [MP3]"; "01 - A - T.mp3"]%string
  ∧ Forall entry_name (segments (H := example_unicode) example_item).
Proof.
  assert (is_ascii (extension (Item.path example_item)) = true) as Hascii
    by (vm_compute; reflexivity).
  split; [exact Hascii|]. split; [vm_compute; reflexivity|].
  exact (proj2 (segments_are_entry_names (H := example_unicode) example_item
                  Hascii)).
Defined.

(** ** Splitting a virtual path *)

Lemma split_nonempty (sep : ascii) (s : string) : split sep s ≠ [].
Proof.
  destruct s as [|c s]; [done|]. cbn [split].
  destruct (decide _); [done|]. by destruct (split sep s).
Qed.

Lemma append_empty_r (a : string) : (a +:+ "")%string = a.
Proof.
  induction a as [|c a IH]; [done|].
  change (String c (a +:+ "") = String c a). by rewrite IH.
Qed.

Lemma split_app_sep (sep : ascii) (a rest : string) :
  sep ∉ chars a →
  split sep (a +:+ String sep rest) = a :: split sep rest.
Proof.
  induction a as [|c a IH]; intros Ha.
  - change ("" +:+ String sep rest)%string with (String sep rest).
    cbn [split]. by rewrite decide_True.
  - unfold chars in Ha. cbn [list_ascii_of_string] in Ha.
    apply not_elem_of_cons in Ha as [Hc Ha].
    change (String c a +:+ String sep rest)%string
      with (String c (a +:+ String sep rest)).
    cbn [split]. rewrite decide_False by done. by rewrite (IH Ha).
Qed.

Lemma split_no_sep (sep : ascii) (a : string) :
  sep ∉ chars a → split sep a = [a].
Proof.
  induction a as [|c a IH]; intros Ha; [done|].
  unfold chars in Ha. cbn [list_ascii_of_string] in Ha.
  apply not_elem_of_cons in Ha as [Hc Ha].
  cbn [split]. rewrite decide_False by done. by rewrite (IH Ha).
Qed.

Lemma str_slice_from_1 (c : ascii) (s : string) :
  str_slice_from (String c s) 1 = s.
Proof.
  unfold str_slice_from, slice_from, slice_index, chars.
  cbn [list_ascii_of_string]. change (1 <? 0) with false. cbn iota.
  unfold len. cbn [length]. rewrite Z.min_l by lia.
  change (Z.to_nat 1) with 1%nat. cbn [drop]. apply text_chars.
Qed.

Lemma split_virtual_path (a : string) (segs : list string) :
  Forall (λ s, "/"%char ∉ chars s) (a :: segs) →
  split "/" (str_slice_from (virtual_path (a :: segs)) 1) = a :: segs.
Proof.
  cbn [virtual_path foldr]. rewrite str_slice_from_1.
  revert a. induction segs as [|b segs IH]; intros a Hsafe.
  - apply Forall_cons in Hsafe as [Ha _]. cbn [foldr].
    rewrite append_empty_r. by apply split_no_sep.
  - apply Forall_cons in Hsafe as [Ha Hsafe]. cbn [foldr].
    rewrite split_app_sep by done. f_equal. by apply IH.
Qed.

Lemma virtual_path_not_root (a : string) (segs : list string) :
  a ≠ ""%string → virtual_path (a :: segs) ≠ "/"%string.
Proof.
  intros Ha. cbn [virtual_path foldr]. intros [= Heq].
  destruct a; [done|]. done.
Qed.

(** ** The two lookups of [getattr] and [access] *)

Lemma only_allocates_refl (w : world) : only_allocates w w.
Proof. done. Qed.

Lemma file_id_spec (pathsplit : list string) (w : world) :
  ∃ w', beetFileSystem.file_id pathsplit w
        = (match node_at (directory_structure w)
                   (slice pathsplit 0 (structure_depth w - 1)) with
           | Some n =>
               name ← index pathsplit (structure_depth w - 1);
               getitem (files n) name
           | None => Raise KeyError
           end, w')
        ∧ only_allocates w w'.
Proof.
  unfold beetFileSystem.file_id. run. unfold list_new.
  destruct (walk_new_list w (slice pathsplit 0 (structure_depth w - 1)))
    as (w' & -> & Htree & Hdepth & Hheap).
  exists w'. split; [|done].
  destruct (node_at _ _) as [n|] eqn:Hn; [|done].
  unfold deref. rewrite Htree, Hn.
  by destruct (index _ _).
Qed.

Lemma is_directory_spec (pathsplit : list string) (w : world) :
  ∃ w', beetFileSystem.is_directory pathsplit w
        = (name ← index pathsplit (len pathsplit - 1);
           match node_at (directory_structure w)
                   (slice pathsplit 0 (len pathsplit - 1)) with
           | Some n => Ok (bool_decide (is_Some (dirs n !! name)))
           | None => Raise KeyError
           end, if index pathsplit (len pathsplit - 1) is Ok _ then w' else w)
        ∧ only_allocates w w'.
Proof.
  unfold beetFileSystem.is_directory. run. unfold list_new.
  destruct (walk_new_list w (slice pathsplit 0 (len pathsplit - 1)))
    as (w' & Hwalk & Htree & Hdepth & Hheap).
  exists w'. split; [|done].
  destruct (index _ _) as [name|e]; [|done]. rewrite Hwalk.
  destruct (node_at _ _) as [n|] eqn:Hn; [|done].
  unfold deref. by rewrite Htree, Hn.
Qed.

Lemma slice_all {A} (s : list A) : slice s 0 (len s) = s.
Proof.
  rewrite slice_nonneg by (pose proof (len_nonneg s); lia).
  unfold len. rewrite drop_0, take_ge; [done | lia].
Qed.

(** The last name of a path and the names before it. *)
Lemma index_last (ps : list string) :
  ps ≠ [] →
  ∃ name, index ps (len ps - 1) = Ok name
          ∧ ps = slice ps 0 (len ps - 1) ++ [name].
Proof.
  intros Hne. destruct ps as [|x ps _] using rev_ind; [done|].
  exists x. rewrite len_app. change (len [x]) with 1.
  pose proof (len_nonneg ps).
  replace (len ps + 1 - 1) with (len ps) by lia. split.
  - unfold index. rewrite (proj2 (Z.ltb_ge (len ps) 0)) by lia.
    rewrite (proj2 (Z.ltb_ge (len ps) 0)) by lia.
    unfold len. rewrite Nat2Z.id. by rewrite list_lookup_middle.
  - rewrite slice_app_l by lia. by rewrite slice_all.
Qed.

Lemma is_directory_node (ps : list string) (w : world) :
  ps ≠ [] →
  ∃ w', beetFileSystem.is_directory ps w
        = (match node_at (directory_structure w)
                   (slice ps 0 (len ps - 1)) with
           | Some _ =>
               Ok (bool_decide (is_Some (node_at (directory_structure w) ps)))
           | None => Raise KeyError
           end, w')
        ∧ only_allocates w w'.
Proof.
  intros Hne. destruct (is_directory_spec ps w) as (w' & Hrun & Hw').
  destruct (index_last ps Hne) as (name & Hname & Hps).
  exists w'. split; [|done]. rewrite Hrun, Hname. cbn.
  destruct (node_at (directory_structure w) (slice ps 0 (len ps - 1)))
    as [n|] eqn:Hn; [|done].
  assert (node_at (directory_structure w) ps = dirs n !! name) as Heq.
  { rewrite <- (node_at_snoc _ _ _ _ Hn). by rewrite <- Hps. }
  do 2 f_equal. apply bool_decide_ext. by rewrite Heq.
Qed.

Lemma item_at_not_OutOfFuel (w : world) (lib : Library) (ps : list string) :
  item_at w lib ps ≠ Raise OutOfFuel.
Proof.
  unfold item_at. destruct (node_at _ _) as [n|]; [|done].
  destruct (index _ _) as [name|e] eqn:Hindex.
  - cbn. unfold getitem. destruct (files n !! name) as [id|]; [|done].
    cbn. unfold Library in *. by destruct (lib !! id).
  - cbn. intros [= ->]. unfold index in Hindex.
    repeat case_match; simplify_eq.
Qed.

(** ** [getattr] *)

Section getattr.
Context `{OS}.
Implicit Types (now : datetime) (lib : Library) (path : string) (w : world).

Lemma getattr_root now lib w :
  beetFileSystem.getattr now lib "/" w
  = (Ok (inl (directory_stat now 493)), w).
Proof. reflexivity. Qed.

Lemma getattr_directory_path now lib path w :
  path ≠ "/"%string →
  let ps := split "/" (str_slice_from path 1) in
  len ps ≠ structure_depth w →
  ∃ w', beetFileSystem.getattr now lib path w
        = (Ok (if decide (is_Some (node_at (directory_structure w) ps))
               then inl (directory_stat now 356)
               else inr (- errno.ENOENT)), w')
        ∧ only_allocates w w'.
Proof.
  intros Hpath ps Hlen.
  unfold beetFileSystem.getattr, try_except_Exception.
  destruct (decide (path = "/"%string)) as [|_]; [done|]. fold ps. run.
  destruct (decide (len ps = structure_depth w)) as [|_]; [done|].
  destruct (is_directory_node ps w (split_nonempty _ _)) as (w' & -> & Hw').
  exists w'. split; [|done].
  destruct (node_at (directory_structure w) (slice ps 0 (len ps - 1)))
    as [n|] eqn:Hn.
  - destruct (decide (is_Some (node_at (directory_structure w) ps)))
      as [Hsome|Hnone].
    + rewrite (bool_decide_eq_true_2 _ Hsome). reflexivity.
    + rewrite (bool_decide_eq_false_2 _ Hnone). reflexivity.
  - destruct (decide (is_Some (node_at (directory_structure w) ps)))
      as [Hsome|_]; [|reflexivity].
    exfalso. revert Hsome.
    destruct (index_last ps (split_nonempty _ _)) as (name & _ & Hps).
    rewrite Hps, node_at_app, Hn. by intros [? ?].
Qed.

Lemma getattr_file_path now lib path w :
  path ≠ "/"%string →
  let ps := split "/" (str_slice_from path 1) in
  len ps = structure_depth w →
  ∃ w', beetFileSystem.getattr now lib path w
        = (Ok (match item_at w lib ps with
               | Ok item =>
                   if decide (Item.path item = ""%string)
                   then inr (- errno.ENOENT)
                   else match os_stat (Item.path item) with
                        | Some statinfo =>
                            match fromtimestamp (os.st_atime statinfo),
                                  fromtimestamp (os.st_mtime statinfo),
                                  fromtimestamp (os.st_ctime statinfo) with
                            | Some dt_atime, Some dt_mtime, Some dt_ctime =>
                                inl (file_stat now statinfo
                                       dt_atime dt_mtime dt_ctime)
                            | _, _, _ => inr (- errno.ENOENT)
                            end
                        | None => inr (- errno.ENOENT)
                        end
               | Raise _ => inr (- errno.ENOENT)
               end), w')
        ∧ only_allocates w w'.
Proof.
  intros Hpath ps Hlen.
  pose proof (item_at_not_OutOfFuel w lib ps) as Hfuel.
  unfold beetFileSystem.getattr, try_except_Exception.
  destruct (decide (path = "/"%string)) as [|_]; [done|]. fold ps. run.
  destruct (decide (len ps = structure_depth w)) as [_|]; [|done].
  destruct (file_id_spec ps w) as (w' & -> & Hw').
  exists w'. split; [|done]. unfold item_at in *.
  destruct (node_at _ _) as [n|]; [|done].
  destruct (index ps _) as [name|e]; cbn in *;
    [|destruct (decide (e = OutOfFuel)) as [->|]; done].
  destruct (getitem (files n) name) as [id|e]; cbn in *;
    [|destruct (decide (e = OutOfFuel)) as [->|]; done].
  destruct (attr (lib !! id)) as [item|e]; cbn in *;
    [|destruct (decide (e = OutOfFuel)) as [->|]; done].
  destruct (decide (Item.path item = ""%string)); [done|].
  destruct (os_stat (Item.path item)) as [statinfo|]; [|done].
  cbn. unfold beetFileSystem.datetime_fromtimestamp.
  destruct (fromtimestamp (os.st_atime statinfo)); [|done].
  destruct (fromtimestamp (os.st_mtime statinfo)); [|done].
  by destruct (fromtimestamp (os.st_ctime statinfo)).
Qed.

Lemma getattr_answers now lib path w :
  ∃ answer w',
    beetFileSystem.getattr now lib path w = (Ok answer, w')
    ∧ only_allocates w w'
    ∧ ∀ n, answer = inr n → n = - errno.ENOENT.
Proof.
  destruct (decide (path = "/"%string)) as [->|Hpath].
  { eexists _, _. split; [apply getattr_root|]. by split. }
  destruct (decide (len (split "/" (str_slice_from path 1)) = structure_depth w))
    as [Hlen|Hlen].
  - destruct (getattr_file_path now lib path w Hpath Hlen) as (w' & -> & Hw').
    eexists _, _. split; [done|]. split; [done|]. intros n.
    destruct (item_at _ _ _) as [item|]; [|by intros [= <-]].
    destruct (decide _); [by intros [= <-]|].
    destruct (os_stat _) as [statinfo|]; [|by intros [= <-]].
    destruct (fromtimestamp (os.st_atime statinfo)); [|by intros [= <-]].
    destruct (fromtimestamp (os.st_mtime statinfo)); [|by intros [= <-]].
    destruct (fromtimestamp (os.st_ctime statinfo)); [done | by intros [= <-]].
  - destruct (getattr_directory_path now lib path w Hpath Hlen)
      as (w' & -> & Hw').
    eexists _, _. split; [done|]. split; [done|]. intros n.
    destruct (decide _); [done | by intros [= <-]].
Qed.
End getattr.

(** X17.  [getattr] always answers.  Whatever the path, the tree, the
    library and the files on disk are, [getattr] raises nothing: it
    returns a [Stat] or the number [-ENOENT], and no other number.  It
    makes lists for its walks and changes nothing else: the tree and its
    depth are as before. *)
Theorem getattr_always_answers `{OS} (now : datetime) (lib : Library)
    (path : string) (w : world) :
  ∃ answer w',
    beetFileSystem.getattr now lib path w = (Ok answer, w')
    ∧ only_allocates w w'
    ∧ ∀ n, answer = inr n → n = - errno.ENOENT.
Proof. apply getattr_answers. Qed.

(** X18.  What [getattr] answers for directories.  The root is a
    directory with the permissions 755.  Any other path whose number of
    components is not the depth of the tree is taken for a directory: the
    answer is a directory [Stat] with the permissions 544, of size 4096
    and with two links, when the walk along the components of the path
    ends at a node of the tree, and [-ENOENT] when it does not. *)
Theorem getattr_directories `{OS} (now : datetime) (lib : Library) (w : world) :
  (beetFileSystem.getattr now lib "/" w).1 = Ok (inl (directory_stat now 493))
  ∧ ∀ path,
      path ≠ "/"%string →
      let ps := split "/" (str_slice_from path 1) in
      len ps ≠ structure_depth w →
      (beetFileSystem.getattr now lib path w).1
      = Ok (if decide (is_Some (node_at (directory_structure w) ps))
            then inl (directory_stat now 356)
            else inr (- errno.ENOENT)).
Proof.
  split; [done|]. intros path Hpath ps Hlen.
  by destruct (getattr_directory_path now lib path w Hpath Hlen)
    as (w' & -> & _).
Qed.

(** The artist directory of the example world, and one that is not
    there. *)
Lemma getattr_directories_witness :
  (@beetFileSystem.getattr example_os 0 example_library "/A" example_world).1
  = Ok (inl (@directory_stat example_os 0 356))
  ∧ (@beetFileSystem.getattr example_os 0 example_library "/Z" example_world).1
    = Ok (inr (- errno.ENOENT)).
Proof.
  pose proof (proj2 (@getattr_directories example_os 0 example_library
                       example_world)) as Hdir.
  assert ("/A"%string ≠ "/"%string) as HA by discriminate.
  assert ("/Z"%string ≠ "/"%string) as HZ by discriminate.
  assert (len (split "/" (str_slice_from "/A" 1)) ≠ structure_depth example_world)
    as HlenA by (vm_compute; discriminate).
  assert (len (split "/" (str_slice_from "/Z" 1)) ≠ structure_depth example_world)
    as HlenZ by (vm_compute; discriminate).
  split.
  - rewrite (Hdir "/A"%string HA HlenA). reflexivity.
  - rewrite (Hdir "/Z"%string HZ HlenZ). reflexivity.
Defined.

(** ** [mount], then [getattr] *)

Section mount_getattr.
Context `{Unicode} `{OS}.

Lemma mounted_file (items : list Item.t) (item : Item.t) (l0 l1 l2 : string) :
  segments item = [l0; l1; l2] → mounted items [l0; l1; l2] = Some item →
  ∃ n, node_at (foldl insert_item (mkFSNode ∅ ∅) items) [l0; l1] = Some n
       ∧ files n !! l2 = Some (Item.id item).
Proof.
  intros Hseg Hmounted.
  pose proof (file_at_mounted items [l0; l1] l2) as Hfile.
  cbn [app] in Hfile. rewrite Hmounted in Hfile. unfold file_at in Hfile.
  destruct (node_at _ _) as [n|]; [|done]. by exists n.
Qed.

(** X19.  What was mounted is found.  After a [mount] that returned,
    for every item of the list whose file has an extension of ASCII,
    [getattr] answers a directory [Stat] for the path of its first
    segment and for the path of its first two segments; and for the path
    of its three segments it answers the [Stat] of the file of the item,
    made from the result of [os.stat], when no later item of the list has
    the same segments, the library has the item under its identifier,
    the file is there, and its three times are times that
    [datetime.fromtimestamp] takes. *)
Theorem mount_then_getattr (items : list Item.t) (w w' : world)
    (now : datetime) (lib : Library) (item : Item.t) :
  mount items w = (Ok tt, w') →
  item ∈ items →
  is_ascii (extension (Item.path item)) = true →
  (beetFileSystem.getattr now lib (virtual_path (take 1 (segments item))) w').1
  = Ok (inl (directory_stat now 356))
  ∧ (beetFileSystem.getattr now lib (virtual_path (take 2 (segments item))) w').1
    = Ok (inl (directory_stat now 356))
  ∧ (mounted items (segments item) = Some item →
     lib !! Item.id item = Some item →
     Item.path item ≠ ""%string →
     ∀ statinfo dt_atime dt_mtime dt_ctime,
       os_stat (Item.path item) = Some statinfo →
       fromtimestamp (os.st_atime statinfo) = Some dt_atime →
       fromtimestamp (os.st_mtime statinfo) = Some dt_mtime →
       fromtimestamp (os.st_ctime statinfo) = Some dt_ctime →
       (beetFileSystem.getattr now lib (virtual_path (segments item)) w').1
       = Ok (inl (file_stat now statinfo dt_atime dt_mtime dt_ctime))).
Proof.
  intros Hmount Hitem [Hdec Hupper]%ascii_extension.
  destruct (mount_tree items w) as (w0 & Hrun & Htree & Hdepth).
  rewrite Hrun in Hmount.
  destruct (forallb decodable items) eqn:Hall; [|done].
  injection Hmount as <-. rewrite (resolved_all items Hall) in Htree.
  destruct (segments_entry_names item Hdec Hupper) as [Hlen Hnames].
  destruct (segments item) as [|l0 [|l1 [|l2 [|]]]] eqn:Hseg; try done.
  assert (Forall (λ s, "/"%char ∉ chars s) [l0; l1; l2]) as Hsafe.
  { eapply Forall_impl; [exact Hnames|]. by intros s (_ & ? & _). }
  apply Forall_cons in Hnames as [(Hl0 & _ & _) _].
  assert (Forall (λ s, "/"%char ∉ chars s) [l0]) as Hsafe1.
  { apply Forall_cons in Hsafe as [? _]. by repeat constructor. }
  assert (Forall (λ s, "/"%char ∉ chars s) [l0; l1]) as Hsafe2.
  { apply Forall_cons in Hsafe as [? Hsafe].
    apply Forall_cons in Hsafe as [? _]. by repeat constructor. }
  destruct (node_at_mounted items) as (H1 & H2 & _). cbn zeta in H1, H2.
  cbn [take].
  split; [|split].
  - destruct (getattr_directory_path now lib (virtual_path [l0]) w0)
      as (w1 & -> & _).
    + by apply virtual_path_not_root.
    + by rewrite split_virtual_path, Hdepth.
    + cbn [fst]. rewrite split_virtual_path by done.
      rewrite decide_True; [done|]. rewrite Htree. apply H1.
      exists item. split; [done|]. by rewrite Hseg.
  - destruct (getattr_directory_path now lib (virtual_path [l0; l1]) w0)
      as (w1 & -> & _).
    + by apply virtual_path_not_root.
    + by rewrite split_virtual_path, Hdepth.
    + cbn [fst]. rewrite split_virtual_path by done.
      rewrite decide_True; [done|]. rewrite Htree. apply H2.
      exists item. split; [done|]. by rewrite Hseg.
  - intros Hmounted Hlib Hpath statinfo dt_atime dt_mtime dt_ctime
      Hstat Hatime Hmtime Hctime.
    destruct (getattr_file_path now lib (virtual_path [l0; l1; l2]) w0)
      as (w1 & -> & _).
    + by apply virtual_path_not_root.
    + by rewrite split_virtual_path, Hdepth.
    + cbn [fst]. rewrite split_virtual_path by done.
      destruct (mounted_file items item l0 l1 l2 Hseg Hmounted)
        as (n & Hn & Hfile).
      unfold item_at. rewrite Hdepth, Htree.
      change (slice [l0; l1; l2] 0 (3 - 1)) with [l0; l1]. rewrite Hn.
      change (index [l0; l1; l2] (3 - 1)) with (Ok l2 : result string).
      cbn. unfold getitem. rewrite Hfile. cbn.
      unfold Library in *. rewrite Hlib. cbn.
      rewrite decide_False by done.
      by rewrite Hstat, Hatime, Hmtime, Hctime.
Qed.

End mount_getattr.

(** The example library, mounted; the first item is the file
    ["/music/x.mp3"], which the example system has. *)
Lemma mount_then_getattr_witness :
  let items := [example_item; example_item_at 8 "/music/x.flac";
                example_item_at 10 "/music/x.ogg"] in
  let statinfo := {| os.st_mode := 33188; os.st_size := 5; os.st_uid := 1000;
                     os.st_gid := 1000; os.st_nlink := 1; os.st_atime := 10;
                     os.st_mtime := 20; os.st_ctime := 30 |} in
  mount (H := example_unicode) items empty_world = (Ok tt, example_world)
  ∧ example_item ∈ items
  ∧ is_ascii (extension (Item.path example_item)) = true
  ∧ mounted (H := example_unicode) items
      (segments (H := example_unicode) example_item) = Some example_item
  ∧ virtual_path (segments (H := example_unicode) example_item)
    = "/A/B (2001) [MP3]/01 - A - T.mp3"%string
  ∧ (@beetFileSystem.getattr example_os 0 example_library "/A" example_world).1
    = Ok (inl (@directory_stat example_os 0 356))
  ∧ (@beetFileSystem.getattr example_os 0 example_library
       "/A/B (2001) [MP3]/01 - A - T.mp3" example_world).1
    = Ok (inl (@file_stat example_os 0 statinfo 10 20 30)).
Proof.
  intros items statinfo.
  assert (mount (H := example_unicode) items empty_world
          = (Ok tt, example_world)) as Hmount.
  { unfold example_world. fold items.
    destruct (mount (H := example_unicode) items empty_world)
      as [r w'] eqn:Hrun.
    assert (r = Ok tt) as ->; [|done].
    change r with (r, w').1. rewrite <- Hrun. vm_compute. reflexivity. }
  assert (example_item ∈ items) as Hin by (apply list_elem_of_here).
  assert (is_ascii (extension (Item.path example_item)) = true) as Hascii
    by (vm_compute; reflexivity).
  assert (mounted (H := example_unicode) items
            (segments (H := example_unicode) example_item)
          = Some example_item)
    as Hmounted by (vm_compute; reflexivity).
  assert (example_library !! Item.id example_item = Some example_item)
    as Hlib by (vm_compute; reflexivity).
  assert (Item.path example_item ≠ ""%string) as Hpath by discriminate.
  assert (@os_stat example_os (Item.path example_item) = Some statinfo)
    as Hstat by (vm_compute; reflexivity).
  destruct (@mount_then_getattr example_unicode example_os items empty_world
              example_world 0 example_library example_item Hmount Hin Hascii)
    as (Hdir1 & _ & Hfile).
  split; [exact Hmount|]. split; [exact Hin|]. split; [exact Hascii|].
  split; [exact Hmounted|].
  split; [vm_compute; reflexivity|]. split; [exact Hdir1|].
  exact (Hfile Hmounted Hlib Hpath statinfo 10 20 30 Hstat
           eq_refl eq_refl eq_refl).
Defined.

(** ** [access] *)

Lemma access_directory_path (lib : Library) (path : string) (flags : Z)
    (w : world) :
  path ≠ "/"%string →
  let ps := split "/" (str_slice_from path 1) in
  len ps ≠ structure_depth w →
  ∃ w', beetFileSystem.access lib path flags w
        = (match node_at (directory_structure w)
                   (slice ps 0 (len ps - 1)) with
           | Some _ =>
               Ok (if decide (is_Some (node_at (directory_structure w) ps))
                   then 0 else - errno.EACCES)
           | None => Raise KeyError
           end, w')
        ∧ only_allocates w w'.
Proof.
  intros Hpath ps Hlen. unfold beetFileSystem.access. fold ps.
  destruct (decide (path = "/"%string)) as [|_]; [done|]. run.
  rewrite bool_decide_eq_false_2 by done. cbn [negb].
  destruct (is_directory_node ps w (split_nonempty _ _)) as (w' & -> & Hw').
  exists w'. split; [|done].
  destruct (node_at (directory_structure w) (slice ps 0 (len ps - 1)));
    [|done].
  destruct (decide (is_Some (node_at (directory_structure w) ps)))
    as [Hsome|Hnone].
  - rewrite (bool_decide_eq_true_2 _ Hsome). reflexivity.
  - rewrite (bool_decide_eq_false_2 _ Hnone). reflexivity.
Qed.

Lemma access_file_path (lib : Library) (path : string) (flags : Z)
    (w : world) :
  path ≠ "/"%string →
  let ps := split "/" (str_slice_from path 1) in
  len ps = structure_depth w →
  ∃ w', beetFileSystem.access lib path flags w
        = (match item_at w lib ps with
           | Ok item =>
               Ok (if decide (Item.path item = ""%string)
                   then - errno.EACCES else 0)
           | Raise e => Raise e
           end, w')
        ∧ only_allocates w w'.
Proof.
  intros Hpath ps Hlen. unfold beetFileSystem.access. fold ps.
  destruct (decide (path = "/"%string)) as [|_]; [done|]. run.
  rewrite bool_decide_eq_true_2 by done. cbn [negb].
  destruct (file_id_spec ps w) as (w' & -> & Hw').
  exists w'. split; [|done]. unfold item_at.
  destruct (node_at _ _) as [n|]; [|done].
  destruct (index ps _) as [name|e]; cbn; [|done].
  destruct (getitem (files n) name) as [id|e]; cbn; [|done].
  destruct (attr (lib !! id)) as [item|e]; cbn; [|done].
  by destruct (decide (Item.path item = ""%string)).
Qed.

(** X20.  What [access] answers, and where it raises.  For the root the
    answer is 0.  A path whose number of components is the depth of the
    tree is taken for a file: the answer is 0 when the tree and the
    library lead to an item with a real path, [-EACCES] when the real
    path of the item is empty, and the exception of the lookup leaves
    [access] when the lookup fails.  Any other path is taken for a
    directory: the answer is 0 when the walk along its components ends at
    a node and [-EACCES] when only its last component is missing; when an
    earlier component is missing, [KeyError] leaves [access].  The
    flags make no difference. *)
Theorem access_outcomes (lib : Library) (flags : Z) (w : world) :
  (beetFileSystem.access lib "/" flags w).1 = Ok 0
  ∧ ∀ path,
      path ≠ "/"%string →
      let ps := split "/" (str_slice_from path 1) in
      (len ps = structure_depth w →
       (beetFileSystem.access lib path flags w).1
       = match item_at w lib ps with
         | Ok item =>
             Ok (if decide (Item.path item = ""%string)
                 then - errno.EACCES else 0)
         | Raise e => Raise e
         end)
      ∧ (len ps ≠ structure_depth w →
         (beetFileSystem.access lib path flags w).1
         = match node_at (directory_structure w)
                   (slice ps 0 (len ps - 1)) with
           | Some _ =>
               Ok (if decide (is_Some (node_at (directory_structure w) ps))
                   then 0 else - errno.EACCES)
           | None => Raise KeyError
           end).
Proof.
  split; [done|]. intros path Hpath ps. split; intros Hlen.
  - by destruct (access_file_path lib path flags w Hpath Hlen) as (w' & -> & _).
  - by destruct (access_directory_path lib path flags w Hpath Hlen)
      as (w' & -> & _).
Qed.

(** In the example world: a file that is mounted, a directory whose
    parent is not there, and a file that is not there. *)
Lemma access_outcomes_witness :
  (beetFileSystem.access example_library "/A/B (2001) [MP3]/01 - A - T.mp3" 4
     example_world).1 = Ok 0
  ∧ (beetFileSystem.access example_library "/Z/Y" 4 example_world).1
    = Raise KeyError
  ∧ (beetFileSystem.access example_library "/A/B (2001) [MP3]/nothing" 4
       example_world).1 = Raise KeyError.
Proof.
  pose proof (proj2 (access_outcomes example_library 4 example_world)) as Hacc.
  assert (∀ path : string, String.length path ≠ 1%nat → path ≠ "/"%string)
    as Hne by (by intros path Hlen ->).
  split; [|split].
  - destruct (Hacc "/A/B (2001) [MP3]/01 - A - T.mp3"%string) as [Hfile _];
      [by apply Hne|].
    rewrite Hfile by (vm_compute; reflexivity). vm_compute. reflexivity.
  - destruct (Hacc "/Z/Y"%string) as [_ Hdir]; [by apply Hne|].
    rewrite Hdir by (vm_compute; discriminate). vm_compute. reflexivity.
  - destruct (Hacc "/A/B (2001) [MP3]/nothing"%string) as [Hfile _];
      [by apply Hne|].
    rewrite Hfile by (vm_compute; reflexivity). vm_compute. reflexivity.
Defined.

(** X21.  [access] allows what [getattr] finds.  Whenever [getattr]
    answers a [Stat] for a path, [access] answers 0 for that path,
    whatever the flags are. *)
Theorem access_allows_what_getattr_finds `{OS} (now : datetime)
    (lib : Library) (path : string) (flags : Z) (w : world) (st : Stat.t) :
  (beetFileSystem.getattr now lib path w).1 = Ok (inl st) →
  (beetFileSystem.access lib path flags w).1 = Ok 0.
Proof.
  destruct (decide (path = "/"%string)) as [->|Hpath]; [done|].
  destruct (decide (len (split "/" (str_slice_from path 1)) = structure_depth w))
    as [Hlen|Hlen].
  - destruct (getattr_file_path now lib path w Hpath Hlen) as (w1 & -> & _).
    destruct (access_file_path lib path flags w Hpath Hlen) as (w2 & -> & _).
    cbn [fst]. destruct (item_at _ _ _) as [item|]; [|done].
    by destruct (decide _).
  - destruct (getattr_directory_path now lib path w Hpath Hlen)
      as (w1 & -> & _).
    destruct (access_directory_path lib path flags w Hpath Hlen)
      as (w2 & -> & _).
    cbn [fst]. destruct (decide _) as [Hsome|]; [|done]. intros _.
    destruct (index_last _ (split_nonempty "/" (str_slice_from path 1)))
      as (name & _ & Hps).
    rewrite Hps in Hsome. apply node_at_prefix in Hsome as [n Hn].
    by rewrite Hn.
Qed.

Lemma access_allows_what_getattr_finds_witness :
  (@beetFileSystem.getattr example_os 0 example_library
     "/A/B (2001) [MP3]/01 - A - T.mp3" example_world).1
  = Ok (inl (@file_stat example_os 0
               {| os.st_mode := 33188; os.st_size := 5; os.st_uid := 1000;
                  os.st_gid := 1000; os.st_nlink := 1; os.st_atime := 10;
                  os.st_mtime := 20; os.st_ctime := 30 |}
               10 20 30))
  ∧ (beetFileSystem.access example_library "/A/B (2001) [MP3]/01 - A - T.mp3" 2
       example_world).1 = Ok 0.
Proof.
  assert ((@beetFileSystem.getattr example_os 0 example_library
             "/A/B (2001) [MP3]/01 - A - T.mp3" example_world).1
          = Ok (inl (@file_stat example_os 0
                       {| os.st_mode := 33188; os.st_size := 5;
                          os.st_uid := 1000; os.st_gid := 1000;
                          os.st_nlink := 1; os.st_atime := 10;
                          os.st_mtime := 20; os.st_ctime := 30 |}
                       10 20 30)))
    as Hget by (vm_compute; reflexivity).
  split; [exact Hget|].
  exact (@access_allows_what_getattr_finds example_os 0 example_library
           "/A/B (2001) [MP3]/01 - A - T.mp3" 2 example_world _ Hget).
Defined.

(** ** [FileHandler.__init__] on an MP3 file *)

Lemma slice_from_0 {A} (s : list A) : slice_from s 0 = s.
Proof.
  unfold slice_from, slice_index. change (0 <? 0) with false. cbn iota.
  rewrite Z.min_l by apply len_nonneg. done.
Qed.

Lemma read_text_ascii (data : bytes) :
  forallb (λ b, byte_val b <? 128) data = true →
  read_text data = Ok (universal_newlines data).
Proof.
  intros Hascii. unfold read_text. rewrite utf8_valid_ascii; [done|].
  induction data as [|b data IH]; [done|].
  cbn [forallb fmap list_fmap] in *. apply andb_true_iff in Hascii as [-> Hd].
  by apply IH.
Qed.

(** X22.  What [FileHandler(path, lib)] makes of an MP3 file.  The
    extension of the path reads ["mp3"] in lower case, the tree and the
    library lead from the path to an item, and the file of the item is on
    the disk.  The file is read as text.  When its bytes are ASCII,
    [__init__] returns: the handler has that item, the instance count 1,
    no decoder object and no header, the bound and the offset 0, and for
    payload the bytes of the file with the line ends ["\r\n"] and ["\r"]
    turned into ["\n"].  When its bytes are not UTF-8, as the frames of
    an MP3 file are, [__init__] raises [UnicodeDecodeError].  The tree is
    not changed. *)
Theorem init_mp3 `{Mutagen} (path : string) (lib : Library) (disk : Disk)
    (w : world) (item : Item.t) (data : bytes) :
  FileHandler.format_of path = "mp3"%string →
  item_at w lib (split "/" (str_slice_from path 1)) = Ok item →
  disk !! Item.path item = Some data →
  ∃ w', only_allocates w w'
        ∧ (forallb (λ b, byte_val b <? 128) data = true →
           FileHandler.init path lib disk w
           = (Ok {| FileHandler.path := path;
                    FileHandler.item := item;
                    FileHandler.real_path := Item.path item;
                    FileHandler.instance_count := 1;
                    FileHandler.format := "mp3";
                    FileHandler.inf := None;
                    FileHandler.header := None;
                    FileHandler.bound := Some 0;
                    FileHandler.music_offset := Some 0;
                    FileHandler.music_data := universal_newlines data |}, w'))
        ∧ (utf8_valid (byte_val <$> data) = false →
           FileHandler.init path lib disk w = (Raise UnicodeDecodeError, w')).
Proof.
  intros Hformat Hitem Hdisk.
  unfold FileHandler.init. run. unfold list_new.
  set (ps := split "/" (str_slice_from path 1)) in *.
  destruct (walk_new_list w (slice ps 0 (structure_depth w - 1)))
    as (w' & -> & Htree & Hdepth & Hheap).
  exists w'. split; [done|]. unfold item_at in Hitem.
  destruct (node_at _ _) as [n|] eqn:Hn; [|done].
  unfold deref. rewrite Htree, Hn.
  destruct (index ps _) as [name|]; [|done]. cbn in Hitem.
  destruct (getitem (files n) name) as [id|]; [|done]. cbn in Hitem.
  rewrite Hitem.
  destruct (_ !! Item.path item) as [data'|] eqn:Hd; [|done].
  injection Hdisk as ->.
  rewrite Hformat. unfold FileHandler.bounds_of.
  rewrite decide_False by done. rewrite decide_True by done.
  unfold attr. change (0 <? 0) with false. cbn beta iota zeta.
  rewrite slice_from_0. split.
  - intros Hascii. by rewrite (read_text_ascii data Hascii).
  - intros Hbad. unfold read_text.
    by destruct (utf8_valid _).
Qed.

(** The first item of the example library, from the example world, and
    the same with a file of one byte 255. *)
Lemma init_mp3_witness :
  FileHandler.format_of "/A/B (2001) [MP3]/01 - A - T.mp3" = "mp3"%string
  ∧ item_at example_world example_library
      (split "/" (str_slice_from "/A/B (2001) [MP3]/01 - A - T.mp3" 1))
    = Ok example_item
  ∧ example_disk !! Item.path example_item
    = Some [x49; x44; x33; x01; x02]
  ∧ (∃ self w',
      @FileHandler.init example_mutagen "/A/B (2001) [MP3]/01 - A - T.mp3"
        example_library example_disk example_world = (Ok self, w')
      ∧ FileHandler.music_data self = [x49; x44; x33; x01; x02]
      ∧ FileHandler.bound self = Some 0)
  ∧ (@FileHandler.init example_mutagen "/A/B (2001) [MP3]/01 - A - T.mp3"
       example_library (<["/music/x.mp3"%string := [xff]]> example_disk)
       example_world).1 = Raise UnicodeDecodeError.
Proof.
  assert (FileHandler.format_of "/A/B (2001) [MP3]/01 - A - T.mp3"
          = "mp3"%string) as Hformat by (vm_compute; reflexivity).
  assert (item_at example_world example_library
            (split "/" (str_slice_from "/A/B (2001) [MP3]/01 - A - T.mp3" 1))
          = Ok example_item) as Hitem by (vm_compute; reflexivity).
  assert (example_disk !! Item.path example_item
          = Some [x49; x44; x33; x01; x02]) as Hdisk by (vm_compute; reflexivity).
  assert ((<["/music/x.mp3"%string := [xff]]> example_disk : Disk)
            !! Item.path example_item = Some [xff]) as Hdisk'
    by (vm_compute; reflexivity).
  split; [exact Hformat|]. split; [exact Hitem|]. split; [exact Hdisk|].
  split.
  - destruct (@init_mp3 example_mutagen _ example_library example_disk
                example_world example_item _ Hformat Hitem Hdisk)
      as (w' & _ & Hrun & _).
    eexists _, w'. split; [exact (Hrun eq_refl)|]. split; reflexivity.
  - destruct (@init_mp3 example_mutagen _ example_library _
                example_world example_item _ Hformat Hitem Hdisk')
      as (w' & _ & _ & Hrun).
    by rewrite (Hrun eq_refl).
Defined.

(** ** [adddir] on a directory that is there *)

(** X23.  [adddir] never replaces a directory.  When the node at the
    end of the path already has a sub-directory of the name, [adddir]
    returns and the tree is what it was, with the sub-directory and all
    that stands below it; the list of the path is empty afterwards.
    When the path leads nowhere, [KeyError] is raised and the tree is
    what it was. *)
Theorem adddir_keeps_directory (w : world) (elements : loc)
    (p : list string) (directory : string) :
  heap w !! elements = Some p →
  FSNode.is_root_path p = false →
  (is_Some (node_at (directory_structure w) (p ++ [directory])) →
   FSNode.adddir [] elements directory None w
   = (Ok tt, set_heap <[elements := []]> w))
  ∧ (node_at (directory_structure w) p = None →
     ∃ w', FSNode.adddir [] elements directory None w = (Raise KeyError, w')
           ∧ directory_structure w' = directory_structure w).
Proof.
  intros Hp Hroot. split.
  - intros Hsome.
    destruct (node_at_prefix _ _ _ Hsome) as [n Hn].
    rewrite (adddir_ok elements directory w p n Hp Hroot Hn).
    f_equal. unfold set_tree. cbn [directory_structure set_heap structure_depth heap].
    rewrite (update_at_id _ n); [done..|].
    rewrite (node_at_snoc _ _ _ _ Hn) in Hsome. destruct Hsome as [child Hchild].
    unfold ensure_dir. by rewrite Hchild.
  - intros Hnone. unfold FSNode.adddir. run. unfold list_read.
    rewrite (contents_lookup w elements p Hp), Hroot. cbn [from_option id].
    unfold FSNode.getnode. run. unfold list_read.
    rewrite (contents_lookup w elements p Hp).
    destruct (getnode_fuel_missing p (length p) [] elements (Some []) w)
      as [rest ->]; [done|lia|cbn; eauto|done|].
    by eexists.
Qed.

(** The artist directory of the example world, added again: the album
    directory below it is still there. *)
Lemma adddir_keeps_directory_witness :
  let w := set_heap <[0%nat := []]> example_world in
  heap w !! 0%nat = Some []
  ∧ ∃ w', FSNode.adddir [] 0%nat "A" None w = (Ok tt, w')
          ∧ directory_structure w' = directory_structure example_world
          ∧ is_Some (node_at (directory_structure w') ["A"; "B (2001) [MP3]"]%string).
Proof.
  intros w.
  assert (heap w !! 0%nat = Some []) as Hp by reflexivity.
  assert (FSNode.is_root_path [] = false) as Hroot by reflexivity.
  assert (is_Some (node_at (directory_structure w) ([] ++ ["A"%string])))
    as Hsome by (vm_compute; eauto).
  split; [exact Hp|].
  exists (set_heap <[0%nat := []]> w).
  split; [exact (proj1 (adddir_keeps_directory w 0%nat [] "A" Hp Hroot) Hsome)|].
  split; [reflexivity|]. vm_compute. eauto.
Defined.
